(** * A shallow embedding of the job queue: pool dispatcher, in-memory
      worker (Consumer), messages and their JSON form.

    Go values are modelled as follows.
    - [error] values: [option error], [None] being [nil].
    - [int32] / [uint64] / [int64]: [Z] with the wrap-around written out.
    - [[]byte]: [option (list byte)], [None] being the nil slice.
    - channels: a record with the buffered elements, the capacity and the
      closed flag; a channel of [struct{}] that is only ever closed is a
      [bool].
    - a call that may panic returns an [outcome].
    - [sync.Once]: the [done] flag as a [bool].
    Logging is not modelled. *)

From Stdlib Require Import ZArith List Lia Bool String Ascii.
From Stdlib Require Import Strings.Byte.
From Stdlib Require Import Decimal DecimalZ DecimalPos DecimalFacts.
Import ListNotations.
Local Open Scope Z_scope.

Set Implicit Arguments.
Set Warnings "-register-all".

(* ================================================================= *)
(** ** Go runtime values *)

Definition Duration := Z.

(** A nil-able byte slice. *)
Definition byteslice := option (list byte).

Inductive error : Type :=
| ErrQueueShutdown          (* "queue has been closed and released" *)
| ErrMissingWorker          (* "missing worker module" *)
| errMaxCapacity            (* "max capacity reached" *)
| errNoMessage              (* errors.New("no message in queue") *)
| DeadlineExceeded          (* context.DeadlineExceeded *)
| Canceled                  (* context.Canceled *)
| ErrOther (msg : string).  (* errors.New(msg) of user code or a backend *)

Inductive panic_value : Type :=
| PanicCloseOfClosedChannel
| PanicSendOnClosedChannel
| PanicValue (v : string).  (* panic(v) of user code *)

Inductive outcome (A : Type) : Type :=
| Returned (a : A)
| Panicked (p : panic_value).
Arguments Panicked {A} p.

(** [atomic.CompareAndSwapInt32(&x, old, new)]: the new content and the
    result. *)
Definition CompareAndSwapInt32 (x old new : Z) : Z * bool :=
  if x =? old then (new, true) else (x, false).

(* ----------------------------------------------------------------- *)
(** *** uint64 arithmetic *)

Module U64.

Definition modulus : Z := 2 ^ 64.

Definition wrap (z : Z) : Z := z mod modulus.

(** [atomic.AddUint64(&x, 1)] *)
Definition inc (x : Z) : Z := wrap (x + 1).

(** [atomic.AddUint64(&x, ^uint64(0))] *)
Definition dec (x : Z) : Z := wrap (x + (modulus - 1)).

Definition in_range (x : Z) : Prop := 0 <= x < modulus.

(** [int(x)] on a 64-bit platform. *)
Definition to_int (x : Z) : Z :=
  if x <? 2 ^ 63 then x else x - modulus.

End U64.

(** [int64], the type under [time.Duration]: the subtraction of two
    durations wraps around. *)
Module Int64.

Definition min : Z := - 2 ^ 63.
Definition max : Z := 2 ^ 63 - 1.

Definition wrap (z : Z) : Z := (z + 2 ^ 63) mod 2 ^ 64 - 2 ^ 63.

End Int64.

(* ----------------------------------------------------------------- *)
(** *** Channels *)

Module Chan.

Record t (A : Type) : Type := mk {
  buf : list A;       (* queued elements, oldest first *)
  cap : nat;          (* cap(c) *)
  closed : bool
}.
Arguments mk {A} buf cap closed.

(** [make(chan A, n)] *)
Definition make (A : Type) (n : nat) : t A := mk [] n false.

(** [len(c)] *)
Definition len {A} (c : t A) : nat := List.length (buf c).

Inductive send_result (A : Type) : Type :=
| Sent (c : t A)      (* the send case was taken *)
| NotReady            (* the send would block: [default] is taken *)
| SendOnClosed.       (* the send case was taken and panicked *)
Arguments NotReady {A}.
Arguments SendOnClosed {A}.

(** [select { case c <- v: ... default: ... }] with no receiver waiting
    on [c]. *)
Definition try_send {A} (c : t A) (v : A) : send_result A :=
  if closed c then SendOnClosed
  else if (len c <? cap c)%nat then Sent (mk (buf c ++ [v]) (cap c) false)
  else NotReady.

Inductive recv_result (A : Type) : Type :=
| Received (v : A) (c : t A)
| ReceivedZero        (* closed and drained: the zero value, ok = false *)
| Empty.              (* the receive would block: [default] is taken *)
Arguments ReceivedZero {A}.
Arguments Empty {A}.

(** [select { case v := <-c: ... default: ... }] *)
Definition try_recv {A} (c : t A) : recv_result A :=
  match buf c with
  | v :: rest => Received v (mk rest (cap c) (closed c))
  | [] => if closed c then ReceivedZero else Empty
  end.

(** [close(c)] *)
Definition close {A} (c : t A) : outcome (t A) :=
  if closed c then Panicked PanicCloseOfClosedChannel
  else Returned (mk (buf c) (cap c) true).

(** A channel never holds more than its capacity. *)
Definition wf {A} (c : t A) : Prop := (len c <= cap c)%nat.

End Chan.

(** A [chan struct{}] used only as a broadcast signal: [true] once closed. *)
Definition signal := bool.

Definition close_signal (c : signal) : outcome signal :=
  if c then Panicked PanicCloseOfClosedChannel else Returned true.

(* ================================================================= *)
(** ** Metrics *)

(** Modelled from the spec: the [metric] type behind [q.metric] and
    [s.metric] is not among the sources.  It holds the counters submitted,
    success and failure and the busy-workers gauge; the readers return
    [uint64] (see [Consumer.BusyWorkers]), so every update wraps at 2^64. *)
Module Metric.

Record t : Type := mk {
  busyWorkers : Z;
  successTasks : Z;
  failureTasks : Z;
  submittedTasks : Z
}.

Definition zero : t := mk 0 0 0 0.

Definition IncBusyWorker (m : t) : t :=
  mk (U64.inc (busyWorkers m)) (successTasks m) (failureTasks m) (submittedTasks m).

Definition DecBusyWorker (m : t) : t :=
  mk (U64.dec (busyWorkers m)) (successTasks m) (failureTasks m) (submittedTasks m).

Definition IncSuccessTask (m : t) : t :=
  mk (busyWorkers m) (U64.inc (successTasks m)) (failureTasks m) (submittedTasks m).

Definition IncFailureTask (m : t) : t :=
  mk (busyWorkers m) (successTasks m) (U64.inc (failureTasks m)) (submittedTasks m).

Definition IncSubmittedTask (m : t) : t :=
  mk (busyWorkers m) (successTasks m) (failureTasks m) (U64.inc (submittedTasks m)).

Definition BusyWorkers (m : t) : Z := busyWorkers m.
Definition SuccessTasks (m : t) : Z := successTasks m.
Definition FailureTasks (m : t) : Z := failureTasks m.
Definition SubmittedTasks (m : t) : Z := submittedTasks m.

(** Every counter is a [uint64]. *)
Definition wf (m : t) : Prop :=
  U64.in_range (busyWorkers m) /\ U64.in_range (successTasks m) /\
  U64.in_range (failureTasks m) /\ U64.in_range (submittedTasks m).

End Metric.

(* ================================================================= *)
(** ** Tasks and messages *)

(** What a running task can observe of its [context.Context]: the timeout
    the scope was created with and, when the worker is shut down while the
    task runs, the moment (counted from the start of [handle]) at which the
    scope is cancelled. *)
Record Context : Type := mkContext {
  ctxTimeout : Duration;
  ctxShutdownAt : option Duration
}.

(** The observable behaviour of one call of user code: it returns or panics
    [after] nanoseconds, or never comes back. *)
Inductive Behaviour : Type :=
| Finishes (after : Duration) (r : outcome (option error))
| Hangs.

(** [type TaskFunc func(context.Context) error] *)
Definition TaskFunc : Type := Context -> Behaviour.

(** Modelled from the spec: the declaration of [Job] (package queue) is not
    among the sources; its fields are the ones the tests and [Consumer.Run]
    use ([Task], [Timeout], [Body]), with the JSON names of [job.Message]
    ([Task] is not serialized). *)
Record Job : Type := mkJob {
  Task : option TaskFunc;
  Timeout : Duration;
  Body : byteslice
}.

(** [var data Job] *)
Definition zeroJob : Job := mkJob None 0 None.

Module job.

(** [job.Message] *)
Record Message : Type := mkMessage {
  Task : option TaskFunc;
  Timeout : Duration;
  Payload : byteslice;
  RetryCount : Z;
  RetryDelay : Duration
}.

Definition zeroMessage : Message := mkMessage None 0 None 0 0.

(** The integer fields are [int64]s. *)
Definition int64_range (z : Z) : Prop := - 2 ^ 63 <= z < 2 ^ 63.

Definition wf (m : Message) : Prop :=
  int64_range (Timeout m) /\ int64_range (RetryCount m) /\
  int64_range (RetryDelay m).

(** [func (m *Message) Bytes() []byte] *)
Definition Bytes (m : Message) : byteslice :=
  match Task m with
  | Some _ => None
  | None => Payload m
  end.

(** Modelled from the spec: the per-job options ([timeout], [retry_count],
    [retry_delay]) that [NewOptions(opts...)] and [opt.Apply(o)] produce;
    package [job]'s option type is not among the sources. *)
Record Options : Type := mkOptions {
  retryCount : Z;
  retryDelay : Duration;
  timeout : Duration
}.

End job.

(** Modelled from the spec: [Job.Bytes] is not among the sources; it
    returns the payload of the job, which is what [Consumer.Run] decodes
    before it takes over the callable of a [Job]. *)
Definition Job_Bytes (j : Job) : byteslice := Body j.

(** The values of interface type [QueuedMessage] that [Consumer] handles:
    a [Job], or any other implementation (such as the tests' [mockMessage]),
    of which only [Bytes()] is observable. *)
Inductive QueuedMessage : Type :=
| QJob (j : Job)
| QOther (bytes : byteslice).

Definition Bytes (m : QueuedMessage) : byteslice :=
  match m with
  | QJob j => Job_Bytes j
  | QOther b => b
  end.

(** [mockMessage{message: s}] *)
Definition mockMessage (message : string) : QueuedMessage :=
  QOther (Some (list_byte_of_string message)).

(* ================================================================= *)
(** ** Bytes, decimal numerals and base64 *)

Definition byte_of_N (n : N) : byte :=
  match Byte.of_N n with Some b => b | None => x00 end.

Definition in_N_range (lo hi : N) (c : byte) : bool :=
  let n := Byte.to_N c in ((lo <=? n) && (n <=? hi))%N.

Fixpoint bytes_eqb (a b : list byte) : bool :=
  match a, b with
  | [], [] => true
  | x :: a', y :: b' => Byte.eqb x y && bytes_eqb a' b'
  | _, _ => false
  end.

(** [strconv]: decimal digits. *)
Module strconv.

Definition isDigit (c : byte) : bool := in_N_range 48 57 c.

Definition digit_byte (n : N) : byte := byte_of_N (48 + n).

Fixpoint bytes_of_uint (d : Decimal.uint) : list byte :=
  match d with
  | Nil => []
  | D0 d' => digit_byte 0 :: bytes_of_uint d'
  | D1 d' => digit_byte 1 :: bytes_of_uint d'
  | D2 d' => digit_byte 2 :: bytes_of_uint d'
  | D3 d' => digit_byte 3 :: bytes_of_uint d'
  | D4 d' => digit_byte 4 :: bytes_of_uint d'
  | D5 d' => digit_byte 5 :: bytes_of_uint d'
  | D6 d' => digit_byte 6 :: bytes_of_uint d'
  | D7 d' => digit_byte 7 :: bytes_of_uint d'
  | D8 d' => digit_byte 8 :: bytes_of_uint d'
  | D9 d' => digit_byte 9 :: bytes_of_uint d'
  end.

Definition cons_digit (c : byte) (d : Decimal.uint) : Decimal.uint :=
  match (Byte.to_N c - 48)%N with
  | 0 => D0 d | 1 => D1 d | 2 => D2 d | 3 => D3 d | 4 => D4 d
  | 5 => D5 d | 6 => D6 d | 7 => D7 d | 8 => D8 d | _ => D9 d
  end%N.

(** The digits of a string made of decimal digits only. *)
Fixpoint uint_of_bytes (s : list byte) : option Decimal.uint :=
  match s with
  | [] => Some Nil
  | c :: r =>
      if isDigit c then option_map (cons_digit c) (uint_of_bytes r) else None
  end.

(** [strconv.FormatInt(z, 10)] *)
Definition FormatInt (z : Z) : list byte :=
  match Z.to_int z with
  | Decimal.Pos d => bytes_of_uint d
  | Decimal.Neg d => x2d :: bytes_of_uint d
  end.

(** [strconv.ParseUint(s, 10, 64)] on a string without sign: the value,
    or [None] on a syntax error or when out of the range of [uint64]. *)
Definition ParseUint (s : list byte) : option Z :=
  match s with
  | [] => None
  | _ =>
      match uint_of_bytes s with
      | Some d =>
          let n := Z.of_uint d in
          if n <? 2 ^ 64 then Some n else None
      | None => None
      end
  end.

(** [strconv.ParseInt(s, 10, 64)] on a string with an optional minus sign
    (the form a JSON number has). *)
Definition ParseInt (s : list byte) : option Z :=
  let (neg, digits) :=
    match s with
    | c :: r => if Byte.eqb c x2d then (true, r) else (false, s)
    | [] => (false, s)
    end in
  match digits with
  | [] => None
  | _ =>
      match uint_of_bytes digits with
      | Some d =>
          let n := if neg then - Z.of_uint d else Z.of_uint d in
          if (- 2 ^ 63 <=? n) && (n <? 2 ^ 63) then Some n else None
      | None => None
      end
  end.

End strconv.

(** [encoding/base64], [StdEncoding]. *)
Module base64.

Definition encodeStd : list byte :=
  Eval cbv in list_byte_of_string
    "ABCDEFGHIJKLMNOPQRSTUVWXYZabcdefghijklmnopqrstuvwxyz0123456789+/".

Definition pad : byte := x3d.

Definition enc (n : N) : byte := nth (N.to_nat n) encodeStd x00.

(** The decode map of the alphabet. *)
Definition dec (c : byte) : option N :=
  let n := Byte.to_N c in
  (if in_N_range 65 90 c then Some (n - 65)
   else if in_N_range 97 122 c then Some (n - 71)
   else if in_N_range 48 57 c then Some (n + 4)
   else if n =? 43 then Some 62
   else if n =? 47 then Some 63
   else None)%N.

(** [StdEncoding.EncodeToString] *)
Fixpoint EncodeToString (src : list byte) : list byte :=
  match src with
  | [] => []
  | [a] =>
      let x := Byte.to_N a in
      [enc (x / 4); enc ((x mod 4) * 16); pad; pad]%N
  | [a; b] =>
      let x := Byte.to_N a in
      let y := Byte.to_N b in
      [enc (x / 4); enc ((x mod 4) * 16 + y / 16); enc ((y mod 16) * 4); pad]%N
  | a :: b :: c :: r =>
      let x := Byte.to_N a in
      let y := Byte.to_N b in
      let z := Byte.to_N c in
      (enc (x / 4) :: enc ((x mod 4) * 16 + y / 16)
        :: enc ((y mod 16) * 4 + z / 64) :: enc (z mod 64)
        :: EncodeToString r)%N
  end.

Definition isNewline (c : byte) : bool := Byte.eqb c x0a || Byte.eqb c x0d.

Definition isNil {A} (l : list A) : bool :=
  match l with [] => true | _ => false end.

(** Quanta of four characters; padding only closes the last quantum, and
    the bits left over in a padded quantum are dropped (the encoding is
    not strict). *)
Fixpoint decode_quanta (s : list byte) : option (list byte) :=
  match s with
  | [] => Some []
  | a :: b :: c :: d :: r =>
      match dec a, dec b with
      | Some x, Some y =>
          let b0 := byte_of_N (x * 4 + y / 16) in
          match dec c with
          | Some z =>
              let b1 := byte_of_N ((y mod 16) * 16 + z / 4) in
              match dec d with
              | Some w =>
                  let b2 := byte_of_N ((z mod 4) * 64 + w) in
                  option_map (fun t => b0 :: b1 :: b2 :: t) (decode_quanta r)
              | None =>
                  if Byte.eqb d pad && isNil r then Some [b0; b1] else None
              end
          | None =>
              if Byte.eqb c pad && Byte.eqb d pad && isNil r
              then Some [b0] else None
          end
      | _, _ => None
      end%N
  | _ => None
  end.

(** [StdEncoding.DecodeString]: carriage returns and line feeds are
    ignored; [None] is a [CorruptInputError]. *)
Definition DecodeString (s : list byte) : option (list byte) :=
  decode_quanta (filter (fun c => negb (isNewline c)) s).

End base64.

(* ================================================================= *)
(** ** JSON *)

(** The behaviour of [encoding/json] (and of [goccy/go-json], which follows
    it) on the two record types of this program.  The text is first checked
    against the JSON grammar as a whole; only then are the members of the
    top-level object stored field by field, a member that does not fit its
    field being skipped and the first such error reported at the end.

    Bytes above 0x7f inside a string are kept as they are (the library
    replaces ill-formed UTF-8 by U+FFFD); either way such a string is no
    field name and no base64 text, so the decoded record is the same.
    The library's limit on the depth of nesting is left out. *)
Module json.

Inductive value : Type :=
| JNull
| JBool (b : bool)
| JNumber (lit : list byte)
| JString (s : list byte)
| JArray (elems : list value)
| JObject (members : list (list byte * value)).

Inductive UnmarshalError : Type :=
| SyntaxError
| UnmarshalTypeError
| CorruptInputError.      (* of base64 *)

Definition quote : byte := x22.
Definition backslash : byte := x5c.

Definition isSpace (c : byte) : bool :=
  Byte.eqb c x20 || Byte.eqb c x09 || Byte.eqb c x0a || Byte.eqb c x0d.

Fixpoint skip_ws (s : list byte) : list byte :=
  match s with
  | c :: r => if isSpace c then skip_ws r else s
  | [] => []
  end.

(* ----------------------------------------------------------------- *)
(** *** Numbers *)

Fixpoint span_digits (s : list byte) : list byte * list byte :=
  match s with
  | c :: r =>
      if strconv.isDigit c
      then let (ds, r') := span_digits r in (c :: ds, r')
      else ([], s)
  | [] => ([], [])
  end.

(** [0] or a non-empty run of digits not starting with [0]. *)
Definition scan_int (s : list byte) : option (list byte * list byte) :=
  match s with
  | c :: r =>
      if Byte.eqb c x30 then Some ([c], r)
      else if strconv.isDigit c
      then let (ds, r') := span_digits r in Some (c :: ds, r')
      else None
  | [] => None
  end.

Definition scan_frac (s : list byte) : option (list byte * list byte) :=
  match s with
  | c :: r =>
      if Byte.eqb c x2e
      then let (ds, r') := span_digits r in
           if base64.isNil ds then None else Some (c :: ds, r')
      else Some ([], s)
  | [] => Some ([], s)
  end.

Definition scan_exp (s : list byte) : option (list byte * list byte) :=
  match s with
  | c :: r =>
      if Byte.eqb c x65 || Byte.eqb c x45
      then
        let (sg, r1) :=
          match r with
          | d :: r' =>
              if Byte.eqb d x2b || Byte.eqb d x2d then ([d], r') else ([], r)
          | [] => ([], r)
          end in
        let (ds, r2) := span_digits r1 in
        if base64.isNil ds then None else Some (c :: sg ++ ds, r2)
      else Some ([], s)
  | [] => Some ([], s)
  end.

(** A number literal at the head of [s]: the literal and the rest. *)
Definition scan_number (s : list byte) : option (list byte * list byte) :=
  let (sg, s1) :=
    match s with
    | c :: r => if Byte.eqb c x2d then ([c], r) else ([], s)
    | [] => ([], s)
    end in
  match scan_int s1 with
  | Some (i, s2) =>
      match scan_frac s2 with
      | Some (f, s3) =>
          match scan_exp s3 with
          | Some (e, s4) => Some (sg ++ i ++ f ++ e, s4)
          | None => None
          end
      | None => None
      end
  | None => None
  end.

(* ----------------------------------------------------------------- *)
(** *** Strings *)

Definition hexval (c : byte) : option N :=
  let n := Byte.to_N c in
  (if in_N_range 48 57 c then Some (n - 48)
   else if in_N_range 97 102 c then Some (n - 87)
   else if in_N_range 65 70 c then Some (n - 55)
   else None)%N.

Definition getu4 (a b c d : byte) : option N :=
  match hexval a, hexval b, hexval c, hexval d with
  | Some x, Some y, Some z, Some w => Some (((x * 16 + y) * 16 + z) * 16 + w)%N
  | _, _, _, _ => None
  end.

(** [utf8.EncodeRune] for a valid code point. *)
Definition EncodeRune (r : N) : list byte :=
  (if r <? 128 then [byte_of_N r]
   else if r <? 2048 then [byte_of_N (192 + r / 64); byte_of_N (128 + r mod 64)]
   else if r <? 65536 then
     [byte_of_N (224 + r / 4096); byte_of_N (128 + (r / 64) mod 64);
      byte_of_N (128 + r mod 64)]
   else
     [byte_of_N (240 + r / 262144); byte_of_N (128 + (r / 4096) mod 64);
      byte_of_N (128 + (r / 64) mod 64); byte_of_N (128 + r mod 64)])%N.

Definition ReplacementChar : N := 65533.

Definition IsSurrogate (r : N) : bool := ((55296 <=? r) && (r <? 57344))%N.

(** [utf16.DecodeRune] *)
Definition DecodeRune (r1 r2 : N) : N :=
  (if (55296 <=? r1) && (r1 <? 56320) && (56320 <=? r2) && (r2 <? 57344)
   then (r1 - 55296) * 1024 + (r2 - 56320) + 65536
   else ReplacementChar)%N.

Definition simple_escape (c : byte) : option byte :=
  if Byte.eqb c quote then Some quote
  else if Byte.eqb c backslash then Some backslash
  else if Byte.eqb c x2f then Some x2f      (* \/ *)
  else if Byte.eqb c x62 then Some x08      (* \b *)
  else if Byte.eqb c x66 then Some x0c      (* \f *)
  else if Byte.eqb c x6e then Some x0a      (* \n *)
  else if Byte.eqb c x72 then Some x0d      (* \r *)
  else if Byte.eqb c x74 then Some x09      (* \t *)
  else None.

(** A character that stands for itself inside a string. *)
Definition isPlain (c : byte) : bool :=
  negb (Byte.eqb c quote) && negb (Byte.eqb c backslash)
  && negb (Byte.to_N c <? 32)%N.

Definition prepend (p : list byte) (r : option (list byte * list byte))
  : option (list byte * list byte) :=
  match r with
  | Some (s, rest) => Some (p ++ s, rest)
  | None => None
  end.

(** The second half of a surrogate pair, when [s] starts with one. *)
Definition low_surrogate (s : list byte) : option (N * list byte) :=
  match s with
  | e :: u :: a :: b :: c :: d :: r =>
      if Byte.eqb e backslash && Byte.eqb u x75
      then match getu4 a b c d with
           | Some rr => Some (rr, r)
           | None => None
           end
      else None
  | _ => None
  end.

(** The text after an opening quote: the unquoted string up to the closing
    quote, and what follows it. *)
Fixpoint scan_string (fuel : nat) (s : list byte)
  : option (list byte * list byte) :=
  match fuel with
  | O => None
  | S fuel =>
      match s with
      | [] => None
      | c :: r =>
          if Byte.eqb c quote then Some ([], r)
          else if Byte.eqb c backslash then
            match r with
            | [] => None
            | e :: r1 =>
                match simple_escape e with
                | Some b => prepend [b] (scan_string fuel r1)
                | None =>
                    if Byte.eqb e x75 then
                      match r1 with
                      | h1 :: h2 :: h3 :: h4 :: r2 =>
                          match getu4 h1 h2 h3 h4 with
                          | Some rr =>
                              if IsSurrogate rr then
                                match low_surrogate r2 with
                                | Some (rr1, r3) =>
                                    if (DecodeRune rr rr1 =? ReplacementChar)%N
                                    then prepend (EncodeRune ReplacementChar)
                                                 (scan_string fuel r2)
                                    else prepend (EncodeRune (DecodeRune rr rr1))
                                                 (scan_string fuel r3)
                                | None =>
                                    prepend (EncodeRune ReplacementChar)
                                            (scan_string fuel r2)
                                end
                              else prepend (EncodeRune rr) (scan_string fuel r2)
                          | None => None
                          end
                      | _ => None
                      end
                    else None
                end
            end
          else if (Byte.to_N c <? 32)%N then None
          else prepend [c] (scan_string fuel r)
      end
  end.

(* ----------------------------------------------------------------- *)
(** *** Values *)

Definition starts_with (p s : list byte) : option (list byte) :=
  if bytes_eqb p (firstn (List.length p) s)
  then Some (skipn (List.length p) s) else None.

Definition lit_null : list byte := Eval cbv in list_byte_of_string "null".
Definition lit_true : list byte := Eval cbv in list_byte_of_string "true".
Definition lit_false : list byte := Eval cbv in list_byte_of_string "false".

Fixpoint scan_value (fuel : nat) (s : list byte) {struct fuel}
  : option (value * list byte) :=
  match fuel with
  | O => None
  | S fuel =>
      match skip_ws s with
      | [] => None
      | c :: r =>
          if Byte.eqb c quote then
            match scan_string (S (List.length r)) r with
            | Some (str, r') => Some (JString str, r')
            | None => None
            end
          else if Byte.eqb c x5b then          (* [ *)
            match skip_ws r with
            | c' :: r' =>
                if Byte.eqb c' x5d then Some (JArray [], r')
                else match scan_elements fuel r [] with
                     | Some (l, r'') => Some (JArray l, r'')
                     | None => None
                     end
            | [] => None
            end
          else if Byte.eqb c x7b then          (* { *)
            match skip_ws r with
            | c' :: r' =>
                if Byte.eqb c' x7d then Some (JObject [], r')
                else match scan_members fuel r [] with
                     | Some (l, r'') => Some (JObject l, r'')
                     | None => None
                     end
            | [] => None
            end
          else if Byte.eqb c x6e then
            option_map (fun r' => (JNull, r')) (starts_with lit_null (c :: r))
          else if Byte.eqb c x74 then
            option_map (fun r' => (JBool true, r')) (starts_with lit_true (c :: r))
          else if Byte.eqb c x66 then
            option_map (fun r' => (JBool false, r')) (starts_with lit_false (c :: r))
          else
            match scan_number (c :: r) with
            | Some (lit, r') => Some (JNumber lit, r')
            | None => None
            end
      end
  end
with scan_elements (fuel : nat) (s : list byte) (acc : list value) {struct fuel}
  : option (list value * list byte) :=
  match fuel with
  | O => None
  | S fuel =>
      match scan_value fuel s with
      | Some (v, r) =>
          match skip_ws r with
          | c :: r' =>
              if Byte.eqb c x2c then scan_elements fuel r' (v :: acc)
              else if Byte.eqb c x5d then Some (List.rev (v :: acc), r')
              else None
          | [] => None
          end
      | None => None
      end
  end
with scan_members (fuel : nat) (s : list byte) (acc : list (list byte * value))
  {struct fuel} : option (list (list byte * value) * list byte) :=
  match fuel with
  | O => None
  | S fuel =>
      match skip_ws s with
      | c :: r =>
          if Byte.eqb c quote then
            match scan_string (S (List.length r)) r with
            | Some (k, r1) =>
                match skip_ws r1 with
                | c1 :: r2 =>
                    if Byte.eqb c1 x3a then
                      match scan_value fuel r2 with
                      | Some (v, r3) =>
                          match skip_ws r3 with
                          | c3 :: r4 =>
                              if Byte.eqb c3 x2c
                              then scan_members fuel r4 ((k, v) :: acc)
                              else if Byte.eqb c3 x7d
                              then Some (List.rev ((k, v) :: acc), r4)
                              else None
                          | [] => None
                          end
                      | None => None
                      end
                    else None
                | [] => None
                end
            | None => None
            end
          else None
      | [] => None
      end
  end.

(** The whole text as one JSON value ([checkValid] and the scan in one);
    [None] is a [SyntaxError]. *)
Definition parse (data : list byte) : option value :=
  match scan_value (S (List.length data)) data with
  | Some (v, rest) => if base64.isNil (skip_ws rest) then Some v else None
  | None => None
  end.

(* ----------------------------------------------------------------- *)
(** *** Storing values into fields *)

(** Keep the earliest error ([d.saveError]). *)
Definition saveError (saved new : option UnmarshalError) : option UnmarshalError :=
  match saved with
  | Some e => Some e
  | None => new
  end.

(** A value into a field of kind [int64] ([time.Duration] included). *)
Definition store_int64 (v : value) (old : Z) : Z * option UnmarshalError :=
  match v with
  | JNull => (old, None)
  | JNumber lit =>
      match strconv.ParseInt lit with
      | Some n => (n, None)
      | None => (old, Some UnmarshalTypeError)
      end
  | _ => (old, Some UnmarshalTypeError)
  end.

(** A value into an element of kind [uint8]. *)
Definition store_uint8 (v : value) (old : byte) : byte * option UnmarshalError :=
  match v with
  | JNull => (old, None)
  | JNumber lit =>
      match strconv.ParseUint lit with
      | Some n =>
          if n <? 256 then (byte_of_N (Z.to_N n), None)
          else (old, Some UnmarshalTypeError)
      | None => (old, Some UnmarshalTypeError)
      end
  | _ => (old, Some UnmarshalTypeError)
  end.

(** The elements of a JSON array into a slice of bytes, index by index: an
    element that fails keeps what the slice held at its index (zero where
    the slice is grown). *)
Fixpoint store_elements (vs : list value) (old : list byte)
  : list byte * option UnmarshalError :=
  match vs with
  | [] => ([], None)
  | v :: vs' =>
      let (b, e) := store_uint8 v (hd x00 old) in
      let (bs, e') := store_elements vs' (tl old) in
      (b :: bs, saveError e e')
  end.

(** A value into a field of type [[]byte]. *)
Definition store_bytes (v : value) (old : byteslice)
  : byteslice * option UnmarshalError :=
  match v with
  | JNull => (None, None)
  | JString s =>
      match base64.DecodeString s with
      | Some b => (Some b, None)
      | None => (old, Some CorruptInputError)
      end
  | JArray vs =>
      let (bs, e) :=
        store_elements vs (match old with Some l => l | None => [] end) in
      (Some bs, e)
  | _ => (old, Some UnmarshalTypeError)
  end.

(** Field names are matched without regard to the case of ASCII letters. *)
Definition lower (c : byte) : byte :=
  if in_N_range 65 90 c then byte_of_N (Byte.to_N c + 32) else c.

Definition equalFold (a b : list byte) : bool :=
  bytes_eqb (map lower a) (map lower b).

Definition name_timeout : list byte := Eval cbv in list_byte_of_string "timeout".
Definition name_body : list byte := Eval cbv in list_byte_of_string "body".
Definition name_retry_count : list byte :=
  Eval cbv in list_byte_of_string "retry_count".
Definition name_retry_delay : list byte :=
  Eval cbv in list_byte_of_string "retry_delay".

(* ----------------------------------------------------------------- *)
(** *** [Job] *)

Definition store_Job_member (acc : Job * option UnmarshalError)
  (kv : list byte * value) : Job * option UnmarshalError :=
  let (j, err) := acc in
  let (k, v) := kv in
  if equalFold k name_timeout then
    let (t, e) := store_int64 v (Timeout j) in
    (mkJob (Task j) t (Body j), saveError err e)
  else if equalFold k name_body then
    let (b, e) := store_bytes v (Body j) in
    (mkJob (Task j) (Timeout j) b, saveError err e)
  else (j, err).

(** [json.Unmarshal(data, &v)] for [v] of type [Job]: the record after the
    call and the error returned. *)
Definition Unmarshal_Job (data : byteslice) (v : Job)
  : Job * option UnmarshalError :=
  match parse (match data with Some l => l | None => [] end) with
  | None => (v, Some SyntaxError)
  | Some JNull => (v, None)
  | Some (JObject members) => fold_left store_Job_member members (v, None)
  | Some _ => (v, Some UnmarshalTypeError)
  end.

(* ----------------------------------------------------------------- *)
(** *** [job.Message] *)

Definition store_Message_member (acc : job.Message * option UnmarshalError)
  (kv : list byte * value) : job.Message * option UnmarshalError :=
  let (m, err) := acc in
  let (k, v) := kv in
  if equalFold k name_timeout then
    let (t, e) := store_int64 v (job.Timeout m) in
    (job.mkMessage (job.Task m) t (job.Payload m) (job.RetryCount m)
                   (job.RetryDelay m), saveError err e)
  else if equalFold k name_body then
    let (b, e) := store_bytes v (job.Payload m) in
    (job.mkMessage (job.Task m) (job.Timeout m) b (job.RetryCount m)
                   (job.RetryDelay m), saveError err e)
  else if equalFold k name_retry_count then
    let (n, e) := store_int64 v (job.RetryCount m) in
    (job.mkMessage (job.Task m) (job.Timeout m) (job.Payload m) n
                   (job.RetryDelay m), saveError err e)
  else if equalFold k name_retry_delay then
    let (d, e) := store_int64 v (job.RetryDelay m) in
    (job.mkMessage (job.Task m) (job.Timeout m) (job.Payload m)
                   (job.RetryCount m) d, saveError err e)
  else (m, err).

(** [json.Unmarshal(data, &v)] for [v] of type [job.Message]. *)
Definition Unmarshal_Message (data : byteslice) (v : job.Message)
  : job.Message * option UnmarshalError :=
  match parse (match data with Some l => l | None => [] end) with
  | None => (v, Some SyntaxError)
  | Some JNull => (v, None)
  | Some (JObject members) => fold_left store_Message_member members (v, None)
  | Some _ => (v, Some UnmarshalTypeError)
  end.

Definition quoted (s : list byte) : list byte := quote :: s ++ [quote].

(** A [[]byte] field: [null] for the nil slice, else the base64 text as a
    string (its characters need no escaping). *)
Definition encode_bytes (b : byteslice) : list byte :=
  match b with
  | None => lit_null
  | Some l => quoted (base64.EncodeToString l)
  end.

(** The value that stands for a byte slice. *)
Definition bytes_value (b : byteslice) : value :=
  match b with
  | None => JNull
  | Some l => JString (base64.EncodeToString l)
  end.

(** [json.Marshal(m)] for [m] of type [*job.Message]: the fields in the
    order of the declaration, [Task] left out (its tag is [-]).  Every
    field is an integer or a byte slice, so no error arises. *)
Definition Marshal_Message (m : job.Message) : list byte :=
  [x7b]
    ++ quoted name_timeout ++ [x3a] ++ strconv.FormatInt (job.Timeout m)
    ++ [x2c] ++ quoted name_body ++ [x3a] ++ encode_bytes (job.Payload m)
    ++ [x2c] ++ quoted name_retry_count ++ [x3a]
    ++ strconv.FormatInt (job.RetryCount m)
    ++ [x2c] ++ quoted name_retry_delay ++ [x3a]
    ++ strconv.FormatInt (job.RetryDelay m)
    ++ [x7d].

End json.

(** [func (m *Message) Encode() []byte] *)
Definition Message_Encode (m : job.Message) : byteslice :=
  Some (json.Marshal_Message m).

(** [NewMessage(m, opts...)], with [o] what the options amount to. *)
Definition NewMessage (mBytes : byteslice) (o : job.Options) : job.Message :=
  job.mkMessage None (job.timeout o) mBytes (job.retryCount o) (job.retryDelay o).

(** [NewTask(task, opts...)] *)
Definition NewTask (task : option TaskFunc) (o : job.Options) : job.Message :=
  job.mkMessage task (job.timeout o) None (job.retryCount o) (job.retryDelay o).

(* ================================================================= *)
(** ** The in-memory worker *)

(** The cases of the two [select] statements of [Consumer.handle]. *)
Inductive select_case : Type :=
| casePanic        (* p := <-panicChan *)
| caseCtxDone      (* <-ctx.Done() *)
| caseStop         (* <-s.stop *)
| caseDone         (* err := <-done *)
| caseTimeAfter.   (* <-time.After(leftTime) *)

(** What the rest of the program and the scheduler contribute to one run of
    [handle]: when, counted from its start, the worker is shut down (if at
    all), and which case a [select] takes among cases that are ready at the
    same instant (the one of least [prefer]; the runtime picks at random),
    and how long after the [select] has taken [s.stop] the clock is read by
    [time.Since] ([lag], counted as 0 if negative: the clock does not run
    backwards).  Instants are nanoseconds on the clock [time.Now] reads;
    what the goroutines compute otherwise takes no time. *)
Record Env : Type := mkEnv {
  shutdownAt : option Duration;
  prefer : select_case -> nat;
  lag : Duration
}.

(** The call of user code that an execution makes. *)
Inductive call : Type :=
| CallTask (f : TaskFunc) (ctx : Context)
| CallRunFunc (ctx : Context) (m : QueuedMessage).

Definition better (prefer : select_case -> nat) (a b : select_case * Z) : bool :=
  (snd a <? snd b) || ((snd a =? snd b) && (prefer (fst a) <? prefer (fst b))%nat).

(** A blocking [select] without [default] over cases given with the instant
    at which each becomes ready ([None]: never): the case that is ready
    first is taken. *)
Fixpoint select (prefer : select_case -> nat)
  (cases : list (select_case * option Z)) : option (select_case * Z) :=
  match cases with
  | [] => None
  | (_, None) :: rest => select prefer rest
  | (c, Some t) :: rest =>
      match select prefer rest with
      | Some best => if better prefer best (c, t) then Some best else Some (c, t)
      | None => Some (c, t)
      end
  end.

Module Consumer.

Record t : Type := mk {
  taskQueue : Chan.t QueuedMessage;
  runFunc : Context -> QueuedMessage -> Behaviour;
  stop : signal;
  stopOnce : bool;
  stopFlag : Z;
  metric : Metric.t
}.

Definition set_taskQueue (s : t) (c : Chan.t QueuedMessage) : t :=
  mk c (runFunc s) (stop s) (stopOnce s) (stopFlag s) (metric s).
Definition set_stop (s : t) (c : signal) : t :=
  mk (taskQueue s) (runFunc s) c (stopOnce s) (stopFlag s) (metric s).
Definition set_stopOnce (s : t) (b : bool) : t :=
  mk (taskQueue s) (runFunc s) (stop s) b (stopFlag s) (metric s).
Definition set_stopFlag (s : t) (f : Z) : t :=
  mk (taskQueue s) (runFunc s) (stop s) (stopOnce s) f (metric s).
Definition set_metric (s : t) (m : Metric.t) : t :=
  mk (taskQueue s) (runFunc s) (stop s) (stopOnce s) (stopFlag s) m.

Definition incBusyWorker (s : t) : t := set_metric s (Metric.IncBusyWorker (metric s)).
Definition decBusyWorker (s : t) : t := set_metric s (Metric.DecBusyWorker (metric s)).
Definition BusyWorkers (s : t) : Z := Metric.BusyWorkers (metric s).

(** [NewConsumer(opts...)], with what the options amount to: the queue
    size, the payload handler and the metric. *)
Definition NewConsumer (queueSize : nat)
  (fn : Context -> QueuedMessage -> Behaviour) (metric : Metric.t) : t :=
  mk (Chan.make QueuedMessage queueSize) fn false false 0 metric.

Definition ready_at (b : Behaviour) (panics : bool) : option Z :=
  match b with
  | Finishes after (Returned _) => if panics then None else Some (Z.max 0 after)
  | Finishes after (Panicked _) => if panics then Some (Z.max 0 after) else None
  | Hangs => None
  end.

(** What [handle] does once a case of a [select] is taken with the user
    code having behaved as [b]. *)
Definition received (b : Behaviour) : outcome (option error) :=
  match b with
  | Finishes _ r => r
  | Hangs => Returned None      (* not reached: the case is never ready *)
  end.

(** When [s.stop] gets closed, as seen from a run of [handle]: at once if
    the worker is already shut down. *)
Definition stop_at (s : t) (env : Env) : option Z :=
  if stop s then Some 0 else option_map (Z.max 0) (shutdownAt env).

(** [context.WithTimeout(context.Background(), job.Timeout)] *)
Definition context_of (s : t) (env : Env) (job : Job) : Context :=
  mkContext (Timeout job) (stop_at s env).

(** The goroutine that runs the job: the call it makes and how that call
    behaves. *)
Definition user_call (s : t) (env : Env) (job : Job) : call * Behaviour :=
  let ctx := context_of s env job in
  match Task job with
  | Some f => (CallTask f ctx, f ctx)
  | None => (CallRunFunc ctx (QJob job), runFunc s ctx (QJob job))
  end.

(** The instant at which [time.Since(startTime)] reads the clock when the
    [select] has taken [s.stop] at [t1], and what it returns: the time
    elapsed since [startTime], which [time.Time.Sub] saturates at the
    greatest duration. *)
Definition clock_read (env : Env) (t1 : Z) : Z := t1 + Z.max 0 (lag env).

Definition Since (env : Env) (t1 : Z) : Duration :=
  Z.min Int64.max (clock_read env t1).

(** [func (s *Consumer) handle(job Job) error]: the state after the call,
    what the call returned (or the panic it raised), and the call of user
    code made by the goroutine it starts.  Time is counted from
    [startTime]; the scope made by [context.WithTimeout] is done at
    [job.Timeout], or at once if that is not positive.  In the case of
    [s.stop], [leftTime] is a subtraction of durations, in [int64]; the
    second [select] is entered when the clock has been read, with the timer
    of [time.After(leftTime)] started then, and a result sent before that
    is ready at once. *)
Definition handle (s : t) (env : Env) (job : Job)
  : t * outcome (option error) * call :=
  let s1 := incBusyWorker s in
  let (c, b) := user_call s env job in
  let result :=
    match select (prefer env)
            [(casePanic, ready_at b true);
             (caseCtxDone, Some (Z.max 0 (Timeout job)));
             (caseStop, stop_at s env);
             (caseDone, ready_at b false)] with
    | Some (caseStop, t1) =>
        let now := clock_read env t1 in
        let leftTime := Int64.wrap (Timeout job - Since env t1) in
        match select (prefer env)
                [(caseTimeAfter, Some (now + Z.max 0 leftTime));
                 (caseDone, option_map (Z.max now) (ready_at b false));
                 (casePanic, option_map (Z.max now) (ready_at b true))] with
        | Some (caseTimeAfter, _) => Returned (Some DeadlineExceeded)
        | Some (caseDone, _) => received b
        | Some (casePanic, _) => received b
        | _ => received b       (* not reached: the timer fires *)
        end
    | Some (caseCtxDone, _) => Returned (Some DeadlineExceeded)
    | Some (caseDone, _) => received b
    | Some (casePanic, _) => received b
    | _ => received b           (* not reached: [ctx.Done()] gets ready *)
    end in
  (decBusyWorker s1, result, c).

(** [func (s *Consumer) Run(task QueuedMessage) error] *)
Definition Run (s : t) (env : Env) (task : QueuedMessage)
  : t * outcome (option error) * list call :=
  if stop s then (s, Returned (Some ErrQueueShutdown), [])
  else
    let data := fst (json.Unmarshal_Job (Bytes task) zeroJob) in
    let data :=
      match task with
      | QJob v =>
          match Task v with
          | Some f => mkJob (Some f) (Timeout data) (Body data)
          | None => data
          end
      | QOther _ => data
      end in
    let '(s', r, c) := handle s env data in
    (s', r, [c]).

(** [func (s *Consumer) Shutdown() error] *)
Definition Shutdown (s : t) : t * outcome (option error) :=
  let (flag, swapped) := CompareAndSwapInt32 (stopFlag s) 0 1 in
  if negb swapped then (s, Returned (Some ErrQueueShutdown))
  else
    let s1 := set_stopFlag s flag in
    if stopOnce s1 then (s1, Returned None)
    else
      let s2 := set_stopOnce s1 true in
      match close_signal (stop s2) with
      | Panicked p => (s2, Panicked p)
      | Returned st =>
          match Chan.close (taskQueue s2) with
          | Panicked p => (set_stop s2 st, Panicked p)
          | Returned tq => (set_taskQueue (set_stop s2 st) tq, Returned None)
          end
      end.

(** [func (s *Consumer) Capacity() int] *)
Definition Capacity (s : t) : Z := Z.of_nat (Chan.cap (taskQueue s)).

(** [func (s *Consumer) Usage() int] *)
Definition Usage (s : t) : Z := Z.of_nat (Chan.len (taskQueue s)).

(** [func (s *Consumer) Queue(task QueuedMessage) error] *)
Definition Queue (s : t) (task : QueuedMessage) : t * outcome (option error) :=
  if stopFlag s =? 1 then (s, Returned (Some ErrQueueShutdown))
  else
    match Chan.try_send (taskQueue s) task with
    | Chan.Sent c => (set_taskQueue s c, Returned None)
    | Chan.NotReady => (s, Returned (Some errMaxCapacity))
    | Chan.SendOnClosed => (s, Panicked PanicSendOnClosedChannel)
    end.

(** [func (s *Consumer) Request() (QueuedMessage, error)] *)
Definition Request (s : t) : t * (option QueuedMessage * option error) :=
  match Chan.try_recv (taskQueue s) with
  | Chan.Received v c => (set_taskQueue s c, (Some v, None))
  | Chan.ReceivedZero => (s, (None, None))
  | Chan.Empty => (s, (None, Some errNoMessage))
  end.

(** The states of a worker that has not been shut down, and of one that
    has: [Shutdown] is the only writer of the flags and the only one to
    close the channels. *)
Definition running (s : t) : Prop :=
  stopFlag s = 0 /\ stopOnce s = false /\ stop s = false /\
  Chan.closed (taskQueue s) = false.

Definition stopped (s : t) : Prop :=
  stopFlag s = 1 /\ stopOnce s = true /\ stop s = true /\
  Chan.closed (taskQueue s) = true.

(** The calls a consumer can receive, and the state each leaves. *)
Inductive op : Type :=
| OpQueue (task : QueuedMessage)
| OpRequest
| OpShutdown
| OpRun (env : Env) (task : QueuedMessage).

Definition apply (s : t) (o : op) : t :=
  match o with
  | OpQueue task => fst (Queue s task)
  | OpRequest => fst (Request s)
  | OpShutdown => fst (Shutdown s)
  | OpRun env task => fst (fst (Run s env task))
  end.

End Consumer.

(* ================================================================= *)
(** ** The worker contract *)

Module core.

(** [core.Worker], over the state [W] of the backend and the messages [M]
    it stores.  [ofMessage] is a pointer to a [job.Message] seen as a
    [core.QueuedMessage]; [Bytes] is the method of [core.QueuedMessage]. *)
Class Worker (W M : Type) : Type := {
  Run : W -> M -> W * outcome (option error);
  Shutdown : W -> W * outcome (option error);
  Queue : W -> M -> W * outcome (option error);
  Request : W -> W * outcome (option M * option error);
  Capacity : W -> Z;
  Usage : W -> Z;
  BusyWorkers : W -> Z;
  Bytes : M -> byteslice;
  ofMessage : job.Message -> M
}.

End core.

(** [emptyWorker] *)
Inductive emptyWorker : Type := EmptyWorker.

#[export] Instance emptyWorker_Worker : core.Worker emptyWorker QueuedMessage := {
  Run w task := (w, Returned None);
  Shutdown w := (w, Returned None);
  Queue w task := (w, Returned None);
  Request w := (w, Returned (None, None));
  Capacity w := 0;
  Usage w := 0;
  BusyWorkers w := 0;
  Bytes := Bytes;
  ofMessage m := QOther (job.Bytes m)
}.

(** [Consumer] implements [Worker], here for a given environment of its
    runs.  A pointer to a [job.Message] is no [Job]: the consumer sees its
    [Bytes()]. *)
#[export] Instance Consumer_Worker (env : Env) : core.Worker Consumer.t QueuedMessage := {
  Run s task := fst (Consumer.Run s env task);
  Shutdown := Consumer.Shutdown;
  Queue := Consumer.Queue;
  Request s := let (s', r) := Consumer.Request s in (s', Returned r);
  Capacity := Consumer.Capacity;
  Usage := Consumer.Usage;
  BusyWorkers := Consumer.BusyWorkers;
  Bytes := Bytes;
  ofMessage m := QOther (job.Bytes m)
}.

(* ================================================================= *)
(** ** The pool *)

Module Queue.

Section Pool.

Context {W M : Type} `{core.Worker W M}.

(** [Queue]; the mutex, the routine group and the logger are left out. *)
Record t : Type := mk {
  metric : Metric.t;
  workerCount : Z;
  quit : signal;
  ready : Chan.t unit;
  worker : W;
  stopOnce : bool;
  stopFlag : Z
}.

Definition set_metric (q : t) (m : Metric.t) : t :=
  mk m (workerCount q) (quit q) (ready q) (worker q) (stopOnce q) (stopFlag q).
Definition set_workerCount (q : t) (n : Z) : t :=
  mk (metric q) n (quit q) (ready q) (worker q) (stopOnce q) (stopFlag q).
Definition set_quit (q : t) (c : signal) : t :=
  mk (metric q) (workerCount q) c (ready q) (worker q) (stopOnce q) (stopFlag q).
Definition set_ready (q : t) (c : Chan.t unit) : t :=
  mk (metric q) (workerCount q) (quit q) c (worker q) (stopOnce q) (stopFlag q).
Definition set_worker (q : t) (w : W) : t :=
  mk (metric q) (workerCount q) (quit q) (ready q) w (stopOnce q) (stopFlag q).
Definition set_stopOnce (q : t) (b : bool) : t :=
  mk (metric q) (workerCount q) (quit q) (ready q) (worker q) b (stopFlag q).
Definition set_stopFlag (q : t) (f : Z) : t :=
  mk (metric q) (workerCount q) (quit q) (ready q) (worker q) (stopOnce q) f.

(** [NewQueue(opts...)], with what the options amount to. *)
Definition NewQueue (workerCount : Z) (worker : option W) : option t * option error :=
  match worker with
  | None => (None, Some ErrMissingWorker)
  | Some w =>
      (Some (mk Metric.zero workerCount false (Chan.make unit 1) w false 0), None)
  end.

(** [func (q *Queue) BusyWorkers() int] and the other readers *)
Definition BusyWorkers (q : t) : Z := U64.to_int (Metric.BusyWorkers (metric q)).
Definition SuccessTasks (q : t) : Z := U64.to_int (Metric.SuccessTasks (metric q)).
Definition FailureTasks (q : t) : Z := U64.to_int (Metric.FailureTasks (metric q)).
Definition SubmittedTasks (q : t) : Z := U64.to_int (Metric.SubmittedTasks (metric q)).

(** [func (q *Queue) Shutdown()] run on its own. *)
Definition Shutdown (q : t) : t * outcome unit :=
  let (flag, swapped) := CompareAndSwapInt32 (stopFlag q) 0 1 in
  if negb swapped then (q, Returned tt)
  else
    let q1 := set_stopFlag q flag in
    if stopOnce q1 then (q1, Returned tt)
    else
      let q2 := set_stopOnce q1 true in
      match core.Shutdown (worker q2) with
      | (w', Panicked p) => (set_worker q2 w', Panicked p)
      | (w', Returned _) =>
          match close_signal (quit q2) with
          | Panicked p => (set_worker q2 w', Panicked p)
          | Returned c => (set_quit (set_worker q2 w') c, Returned tt)
          end
      end.

(** [func (q *Queue) Queue(m core.QueuedMessage, opts ...job.Option) error] *)
Definition Queue (q : t) (m : M) (o : job.Options) : t * outcome (option error) :=
  if stopFlag q =? 1 then (q, Returned (Some ErrQueueShutdown))
  else
    let message := NewMessage (core.Bytes m) o in
    match core.Queue (worker q)
            (core.ofMessage (job.mkMessage None 0 (Message_Encode message) 0 0)) with
    | (w', Panicked p) => (set_worker q w', Panicked p)
    | (w', Returned (Some err)) => (set_worker q w', Returned (Some err))
    | (w', Returned None) =>
        (set_metric (set_worker q w') (Metric.IncSubmittedTask (metric q)),
         Returned None)
    end.

(** [func (q *Queue) QueueTask(task job.TaskFunc, opts ...job.Option) error] *)
Definition QueueTask (q : t) (task : option TaskFunc) (o : job.Options)
  : t * outcome (option error) :=
  if stopFlag q =? 1 then (q, Returned (Some ErrQueueShutdown))
  else
    let message := NewTask task o in
    match core.Queue (worker q) (core.ofMessage message) with
    | (w', Panicked p) => (set_worker q w', Panicked p)
    | (w', Returned (Some err)) => (set_worker q w', Returned (Some err))
    | (w', Returned None) =>
        (set_metric (set_worker q w') (Metric.IncSubmittedTask (metric q)),
         Returned None)
    end.

(** [func (q *Queue) schedule()] *)
Definition schedule (q : t) : t * outcome unit :=
  if BusyWorkers q >=? workerCount q then (q, Returned tt)
  else
    match Chan.try_send (ready q) tt with
    | Chan.Sent c => (set_ready q c, Returned tt)
    | Chan.NotReady => (q, Returned tt)
    | Chan.SendOnClosed => (q, Panicked PanicSendOnClosedChannel)
    end.

(** [func (q *Queue) UpdateWorkerCount(num int)] *)
Definition UpdateWorkerCount (q : t) (num : Z) : t * outcome unit :=
  schedule (set_workerCount q num).

(** [func (q *Queue) work(task core.QueuedMessage)]: the body sets [err]
    when [Run] returns; the deferred function then runs whether [Run]
    returned or panicked, [recover()] yielding the panic value if any. *)
Definition work (q : t) (task : M) : t * outcome unit :=
  let (w', r) := core.Run (worker q) task in
  let q1 := set_worker q w' in
  let err := match r with Returned e => e | Panicked _ => None end in
  let q2 := set_metric q1 (Metric.DecBusyWorker (metric q1)) in
  let e := match r with Returned _ => None | Panicked p => Some p end in
  match schedule q2 with
  | (q3, Panicked p) => (q3, Panicked p)
  | (q3, Returned _) =>
      match err, e with
      | None, None =>
          (set_metric q3 (Metric.IncSuccessTask (metric q3)), Returned tt)
      | _, _ =>
          (set_metric q3 (Metric.IncFailureTask (metric q3)), Returned tt)
      end
  end.

(** The calls a pool can receive, and the state each leaves. *)
Inductive op : Type :=
| OpQueue (m : M) (o : job.Options)
| OpQueueTask (task : option TaskFunc) (o : job.Options)
| OpShutdown
| OpUpdateWorkerCount (num : Z)
| OpWork (task : M).

Definition apply (q : t) (o : op) : t :=
  match o with
  | OpQueue m o => fst (Queue q m o)
  | OpQueueTask task o => fst (QueueTask q task o)
  | OpShutdown => fst (Shutdown q)
  | OpUpdateWorkerCount num => fst (UpdateWorkerCount q num)
  | OpWork task => fst (work q task)
  end.

(** What [Queue.Queue] hands to the worker for [m]. *)
Definition enqueued (m : M) (o : job.Options) : M :=
  core.ofMessage
    (job.mkMessage None 0 (Message_Encode (NewMessage (core.Bytes m) o)) 0 0).

End Pool.

Arguments t W : clear implicits.
Arguments op M : clear implicits.

End Queue.

(* ================================================================= *)
(** ** Concurrent callers of [Queue.Shutdown] *)

(** Any number of goroutines call [q.Shutdown()] on one pool.  Each caller
    advances by atomic steps (the compare-and-swap, the fast path and the
    lock of [sync.Once], the call of the worker, the close), and a schedule
    says whose turn it is.  The trace records the calls of
    [worker.Shutdown] and the closes of [quit]. *)
Module ShutdownRace.

Inductive pc : Type :=
| AtCAS               (* atomic.CompareAndSwapInt32(&q.stopFlag, 0, 1) *)
| AtOnce              (* stopOnce.Do: the load of done *)
| AtLock              (* stopOnce.Do: the lock, and done read again *)
| AtWorkerShutdown    (* q.worker.Shutdown() *)
| AtCloseQuit         (* close(q.quit) *)
| AtOnceExit          (* done is stored, the lock released *)
| Finished
| Crashed (p : panic_value).

Inductive event : Type :=
| EvWorkerShutdown
| EvCloseQuit.

Definition event_eqb (a b : event) : bool :=
  match a, b with
  | EvWorkerShutdown, EvWorkerShutdown => true
  | EvCloseQuit, EvCloseQuit => true
  | _, _ => false
  end.

Definition occurrences (e : event) (tr : list event) : nat :=
  List.length (filter (event_eqb e) tr).

Fixpoint update {A} (l : list A) (i : nat) (x : A) : list A :=
  match l, i with
  | [], _ => []
  | _ :: r, O => x :: r
  | y :: r, S i' => y :: update r i' x
  end.

Definition is_Finished (p : pc) : bool :=
  match p with Finished => true | _ => false end.

Definition is_Crashed (p : pc) : bool :=
  match p with Crashed _ => true | _ => false end.

Section Race.

Context {W M : Type} `{core.Worker W M}.

Record sys : Type := mkSys {
  pool : Queue.t W;
  onceLocked : bool;
  callers : list pc;
  trace : list event
}.

(** [n] callers about to enter [Shutdown]. *)
Definition start (q : Queue.t W) (n : nat) : sys :=
  mkSys q false (repeat AtCAS n) [].

(** One atomic step of caller [i]; a caller that waits for the lock, has
    returned or has panicked does not move. *)
Definition step (st : sys) (i : nat) : sys :=
  let q := pool st in
  match nth_error (callers st) i with
  | None => st
  | Some AtCAS =>
      let (flag, swapped) := CompareAndSwapInt32 (Queue.stopFlag q) 0 1 in
      if swapped
      then mkSys (Queue.set_stopFlag q flag) (onceLocked st)
                 (update (callers st) i AtOnce) (trace st)
      else mkSys q (onceLocked st) (update (callers st) i Finished) (trace st)
  | Some AtOnce =>
      if Queue.stopOnce q
      then mkSys q (onceLocked st) (update (callers st) i Finished) (trace st)
      else mkSys q (onceLocked st) (update (callers st) i AtLock) (trace st)
  | Some AtLock =>
      if onceLocked st then st
      else if Queue.stopOnce q
      then mkSys q false (update (callers st) i Finished) (trace st)
      else mkSys q true (update (callers st) i AtWorkerShutdown) (trace st)
  | Some AtWorkerShutdown =>
      match core.Shutdown (Queue.worker q) with
      | (w', Panicked p) =>
          mkSys (Queue.set_stopOnce (Queue.set_worker q w') true) false
                (update (callers st) i (Crashed p)) (EvWorkerShutdown :: trace st)
      | (w', Returned _) =>
          mkSys (Queue.set_worker q w') (onceLocked st)
                (update (callers st) i AtCloseQuit) (EvWorkerShutdown :: trace st)
      end
  | Some AtCloseQuit =>
      match close_signal (Queue.quit q) with
      | Panicked p =>
          mkSys (Queue.set_stopOnce q true) false
                (update (callers st) i (Crashed p)) (trace st)
      | Returned c =>
          mkSys (Queue.set_quit q c) (onceLocked st)
                (update (callers st) i AtOnceExit) (EvCloseQuit :: trace st)
      end
  | Some AtOnceExit =>
      mkSys (Queue.set_stopOnce q true) false
            (update (callers st) i Finished) (trace st)
  | Some Finished => st
  | Some (Crashed _) => st
  end.

Definition run (sched : list nat) (st : sys) : sys := fold_left step sched st.

Definition all_finished (st : sys) : bool := forallb is_Finished (callers st).

Definition some_crashed (st : sys) : bool := existsb is_Crashed (callers st).

(** The steps a caller still has to make, at most. *)
Definition remaining (p : pc) : nat :=
  match p with
  | AtCAS => 6
  | AtOnce => 5
  | AtLock => 4
  | AtWorkerShutdown => 3
  | AtCloseQuit => 2
  | AtOnceExit => 1
  | Finished => 0
  | Crashed _ => 0
  end.

(** A caller that has not won the compare-and-swap is about to try it or
    has returned. *)
Definition idle (p : pc) : Prop := p = AtCAS \/ p = Finished.

(** The shared state that goes with the program counter of the caller
    that won the compare-and-swap, for a pool that started as [q0]. *)
Definition winner_state (q0 : Queue.t W) (p : pc) (st : sys) : Prop :=
  let q := pool st in
  Queue.stopFlag q = 1 /\
  match p with
  | AtOnce | AtLock =>
      onceLocked st = false /\ Queue.stopOnce q = false /\
      Queue.quit q = false /\ Queue.worker q = Queue.worker q0 /\
      trace st = []
  | AtWorkerShutdown =>
      onceLocked st = true /\ Queue.stopOnce q = false /\
      Queue.quit q = false /\ Queue.worker q = Queue.worker q0 /\
      trace st = []
  | AtCloseQuit =>
      onceLocked st = true /\ Queue.stopOnce q = false /\
      Queue.quit q = false /\
      Queue.worker q = fst (core.Shutdown (Queue.worker q0)) /\
      trace st = [EvWorkerShutdown]
  | AtOnceExit =>
      onceLocked st = true /\ Queue.stopOnce q = false /\
      Queue.quit q = true /\
      Queue.worker q = fst (core.Shutdown (Queue.worker q0)) /\
      trace st = [EvCloseQuit; EvWorkerShutdown]
  | Finished =>
      onceLocked st = false /\ Queue.stopOnce q = true /\
      Queue.quit q = true /\
      Queue.worker q = fst (core.Shutdown (Queue.worker q0)) /\
      trace st = [EvCloseQuit; EvWorkerShutdown]
  | AtCAS | Crashed _ => False
  end.

(** Either nobody has passed the compare-and-swap yet, or exactly one
    caller has, and the shared state is the one its progress accounts
    for. *)
Definition inv (q0 : Queue.t W) (st : sys) : Prop :=
  (Queue.stopFlag (pool st) = 0 /\ onceLocked st = false /\
   Queue.stopOnce (pool st) = false /\ Queue.quit (pool st) = false /\
   Queue.worker (pool st) = Queue.worker q0 /\ trace st = [] /\
   forall j p, nth_error (callers st) j = Some p -> p = AtCAS)
  \/
  (exists w p,
     nth_error (callers st) w = Some p /\ winner_state q0 p st /\
     forall j p', j <> w -> nth_error (callers st) j = Some p' -> idle p').

End Race.

Arguments sys W : clear implicits.

End ShutdownRace.

(* ================================================================= *)
(** ** Runs of several calls *)

(** [Queue] called for each message in turn: the consumer left and what
    each call returned. *)
Fixpoint Queue_all (s : Consumer.t) (msgs : list QueuedMessage)
  : Consumer.t * list (outcome (option error)) :=
  match msgs with
  | [] => (s, [])
  | m :: rest =>
      let (s1, e) := Consumer.Queue s m in
      let (s2, es) := Queue_all s1 rest in
      (s2, e :: es)
  end.

(** [Request] called [n] times. *)
Fixpoint Request_n (n : nat) (s : Consumer.t)
  : Consumer.t * list (option QueuedMessage * option error) :=
  match n with
  | O => (s, [])
  | S n' =>
      let (s1, r) := Consumer.Request s in
      let (s2, rs) := Request_n n' s1 in
      (s2, r :: rs)
  end.

(** [q.Queue(m, opts...)] called for each message in turn. *)
Fixpoint Submit_all {W M : Type} `{core.Worker W M}
  (q : Queue.t W) (ms : list M) (o : job.Options)
  : Queue.t W * list (outcome (option error)) :=
  match ms with
  | [] => (q, [])
  | m :: rest =>
      let (q1, e) := Queue.Queue q m o in
      let (q2, es) := Submit_all q1 rest o in
      (q2, e :: es)
  end.

(** The number of calls of [work] among the calls of a pool. *)
Definition works {M : Type} (ops : list (Queue.op M)) : Z :=
  Z.of_nat (List.length
              (filter (fun o => match o with Queue.OpWork _ => true | _ => false end)
                      ops)).

(* ================================================================= *)
(** ** The fetch loop of the dispatcher *)

(** The goroutine that [Queue.start] runs to request one task from the
    worker.  Modelled from the spec: the constant [ErrNoTaskInQueue] is not
    among the sources; [noTask e] stands for
    [errors.Is(e, ErrNoTaskInQueue)]. *)
Module Fetch.

Inductive step (M : Type) : Type :=
| Deliver (t : M)     (* tasks <- t; return *)
| CloseTasks          (* close(tasks); return *)
| Poll.               (* next iteration *)
Arguments CloseTasks {M}.
Arguments Poll {M}.

(** One iteration of the loop on what [q.worker.Request()] returned.
    [quitSoon]: [q.quit] is closed before the second of [time.After] is
    over; [quitNow]: [q.quit] is closed when the second [select] is
    reached. *)
Definition once {M : Type} (noTask : error -> bool) (quitSoon quitNow : bool)
  (r : option M * option error) : step M :=
  let (t, err) := r in
  let closed_first :=
    match err with
    | Some e => quitSoon && negb (noTask e)
    | None => false
    end in
  if closed_first then CloseTasks
  else
    match t with
    | Some m => Deliver m
    | None =>
        let is_noTask :=
          match err with Some e => noTask e | None => false end in
        if quitNow && negb is_noTask then CloseTasks else Poll
    end.

Inductive result (M : Type) : Type :=
| Delivered (t : M)
| TasksClosed
| RequestPanicked (p : panic_value).
Arguments TasksClosed {M}.
Arguments RequestPanicked {M} p.

(** The loop, for at most [fuel] iterations, with [q.quit] closed
    throughout ([quit = true]) or open throughout: the worker left and how
    the goroutine ended, [None] if it is still polling. *)
Fixpoint loop {W M : Type} `{core.Worker W M} (fuel : nat)
  (noTask : error -> bool) (quit : bool) (w : W) : W * option (result M) :=
  match fuel with
  | O => (w, None)
  | S fuel' =>
      match core.Request w with
      | (w', Panicked p) => (w', Some (RequestPanicked p))
      | (w', Returned r) =>
          match once noTask quit quit r with
          | Deliver t => (w', Some (Delivered t))
          | CloseTasks => (w', Some TasksClosed)
          | Poll => loop fuel' noTask quit w'
          end
      end
  end.

End Fetch.

(* ================================================================= *)
(** ** One turn of the dispatcher *)

(** One turn of the loop of [Queue.start], up to the point where it starts
    the goroutine that runs [q.work(task)]: [schedule], the [select] on
    [q.ready] and [q.quit], the goroutine that requests a task (waited for
    by the receive on [tasks]) and [IncBusyWorker].  No other goroutine
    touches the pool during the turn; [preferQuit] says that the [select]
    takes [q.quit] when both cases are ready (the runtime picks at
    random). *)
Module Start.

Section Turn.

Context {W M : Type} `{core.Worker W M}.

Inductive turn_result : Type :=
| Returns (q : Queue.t W)                 (* [return] *)
| Blocks (q : Queue.t W)                  (* neither [ready] nor [quit] is ready *)
| Polls (q : Queue.t W)                   (* the request loop has not ended *)
| Dispatches (q : Queue.t W) (task : M)   (* [q.work(task)] is started *)
| Panics (q : Queue.t W) (p : panic_value).

(** From the request goroutine on. *)
Definition fetch (fuel : nat) (noTask : error -> bool) (q : Queue.t W)
  : turn_result :=
  match Fetch.loop fuel noTask (Queue.quit q) (Queue.worker q) with
  | (w, None) => Polls (Queue.set_worker q w)
  | (w, Some (Fetch.Delivered task)) =>
      let q1 := Queue.set_worker q w in
      Dispatches (Queue.set_metric q1 (Metric.IncBusyWorker (Queue.metric q1))) task
  | (w, Some Fetch.TasksClosed) => Returns (Queue.set_worker q w)
  | (w, Some (Fetch.RequestPanicked p)) => Panics (Queue.set_worker q w) p
  end.

Definition turn (fuel : nat) (noTask : error -> bool) (preferQuit : bool)
  (q : Queue.t W) : turn_result :=
  match Queue.schedule q with
  | (q1, Panicked p) => Panics q1 p
  | (q1, Returned _) =>
      match Chan.try_recv (Queue.ready q1) with
      | Chan.Received _ c =>
          if Queue.quit q1 && preferQuit then Returns q1
          else fetch fuel noTask (Queue.set_ready q1 c)
      | Chan.ReceivedZero =>
          if Queue.quit q1 && preferQuit then Returns q1
          else fetch fuel noTask q1
      | Chan.Empty => if Queue.quit q1 then Returns q1 else Blocks q1
      end
  end.

End Turn.

End Start.

(* ================================================================= *)
(** * Properties *)

Unset Implicit Arguments.

(* ----------------------------------------------------------------- *)
(** ** The in-memory worker: capacity and shutdown *)

Lemma U64_dec_inc (x : Z) : U64.in_range x -> U64.dec (U64.inc x) = x.
Proof.
  unfold U64.in_range, U64.dec, U64.inc, U64.wrap, U64.modulus.
  intros Hx.
  rewrite Zplus_mod_idemp_l.
  replace (x + 1 + (2 ^ 64 - 1)) with (x + 1 * 2 ^ 64) by ring.
  rewrite Z_mod_plus_full. apply Z.mod_small. exact Hx.
Qed.

Lemma U64_inc_small (x : Z) : 0 <= x < U64.modulus - 1 -> U64.inc x = x + 1.
Proof.
  unfold U64.inc, U64.wrap. intros Hx. apply Z.mod_small. lia.
Qed.


Lemma NewConsumer_running n fn m : Consumer.running (Consumer.NewConsumer n fn m).
Proof. repeat split. Qed.

Lemma NewConsumer_wf n fn m :
  Chan.wf (Consumer.taskQueue (Consumer.NewConsumer n fn m)).
Proof. unfold Chan.wf, Chan.len. simpl. lia. Qed.

Lemma Consumer_handle_state s env j :
  fst (fst (Consumer.handle s env j)) =
  Consumer.decBusyWorker (Consumer.incBusyWorker s).
Proof.
  unfold Consumer.handle.
  destruct (Consumer.user_call s env j); reflexivity.
Qed.

(** [handle] leaves the busy gauge as it found it, on every exit path. *)
Lemma Consumer_handle_busy s env j :
  U64.in_range (Consumer.BusyWorkers s) ->
  Consumer.BusyWorkers (fst (fst (Consumer.handle s env j))) = Consumer.BusyWorkers s.
Proof.
  intros Hr. rewrite Consumer_handle_state.
  unfold Consumer.BusyWorkers, Metric.BusyWorkers in *. simpl.
  apply U64_dec_inc. exact Hr.
Qed.

Lemma Consumer_Run_taskQueue s env task :
  Consumer.taskQueue (fst (fst (Consumer.Run s env task))) = Consumer.taskQueue s /\
  Consumer.stopFlag (fst (fst (Consumer.Run s env task))) = Consumer.stopFlag s.
Proof.
  unfold Consumer.Run. destruct (Consumer.stop s); [split; reflexivity|].
  match goal with
  | |- context [Consumer.handle ?a ?b ?c] =>
      pose proof (Consumer_handle_state a b c) as Hh;
      destruct (Consumer.handle a b c) as [[s' r] c']
  end.
  simpl in *. subst s'. split; reflexivity.
Qed.

(** No call makes the task queue hold more than its capacity. *)
Lemma Consumer_apply_wf (s : Consumer.t) (o : Consumer.op) :
  Chan.wf (Consumer.taskQueue s) ->
  Chan.wf (Consumer.taskQueue (Consumer.apply s o)).
Proof.
  unfold Chan.wf, Chan.len. intros Hwf. destruct o; simpl.
  - unfold Consumer.Queue, Chan.try_send, Chan.len.
    destruct (Consumer.stopFlag s =? 1); [exact Hwf|].
    destruct (Chan.closed (Consumer.taskQueue s)); [exact Hwf|].
    destruct (Nat.ltb_spec (List.length (Chan.buf (Consumer.taskQueue s)))
                           (Chan.cap (Consumer.taskQueue s))) as [Hlt|Hge];
      simpl; [|exact Hwf].
    rewrite length_app. simpl. lia.
  - unfold Consumer.Request, Chan.try_recv.
    destruct (Chan.buf (Consumer.taskQueue s)) as [|v rest] eqn:Hbuf.
    + destruct (Chan.closed (Consumer.taskQueue s)); simpl; rewrite Hbuf;
        exact Hwf.
    + simpl in *. lia.
  - unfold Consumer.Shutdown, CompareAndSwapInt32, close_signal, Chan.close.
    destruct (Consumer.stopFlag s =? 0); simpl; [|exact Hwf].
    destruct (Consumer.stopOnce s); simpl; [exact Hwf|].
    destruct (Consumer.stop s); simpl; [exact Hwf|].
    destruct (Chan.closed (Consumer.taskQueue s)); simpl; exact Hwf.
  - destruct (Consumer_Run_taskQueue s env task) as [-> _]. exact Hwf.
Qed.

(** C4.  On a consumer that has not been shut down, [Queue] returns at
    once, and it returns [errMaxCapacity] exactly when the buffer holds as
    many messages as its capacity, the consumer (and so [Usage()]) being
    left as it was; when the buffer holds fewer, the message is appended
    and the call returns [nil]. *)
Theorem Consumer_Queue_capacity (s : Consumer.t) (task : QueuedMessage) :
  Consumer.running s ->
  Chan.wf (Consumer.taskQueue s) ->
  (Consumer.Usage s = Consumer.Capacity s ->
     Consumer.Queue s task = (s, Returned (Some errMaxCapacity))) /\
  (Consumer.Usage s < Consumer.Capacity s ->
     exists s',
       Consumer.Queue s task = (s', Returned None) /\
       Chan.buf (Consumer.taskQueue s') = Chan.buf (Consumer.taskQueue s) ++ [task] /\
       Consumer.Usage s' = Consumer.Usage s + 1 /\
       Consumer.Capacity s' = Consumer.Capacity s) /\
  (snd (Consumer.Queue s task) = Returned (Some errMaxCapacity) <->
     Consumer.Usage s = Consumer.Capacity s).
Proof.
  intros (Hflag & _ & _ & Hopen) Hwf.
  unfold Consumer.Queue, Consumer.Usage, Consumer.Capacity, Chan.try_send,
    Chan.wf, Chan.len in *.
  rewrite Hflag, Hopen. simpl.
  destruct (Nat.ltb_spec (List.length (Chan.buf (Consumer.taskQueue s)))
                         (Chan.cap (Consumer.taskQueue s))) as [Hlt|Hge].
  - split; [lia|]. split.
    + intros _. eexists. split; [reflexivity|]. simpl.
      unfold Chan.len. simpl. rewrite length_app. simpl.
      repeat split. lia.
    + simpl. split; [discriminate|lia].
  - split; [reflexivity|]. split; [lia|].
    simpl. split; [lia|reflexivity].
Qed.

Lemma Consumer_Queue_capacity_witness :
  let s := fst (Consumer.Queue
                  (fst (Consumer.Queue (Consumer.NewConsumer 2 (fun _ _ => Hangs) Metric.zero)
                                       (mockMessage "foo")))
                  (mockMessage "foo")) in
  Consumer.Usage s = 2 /\
  Consumer.Queue s (mockMessage "foo") = (s, Returned (Some errMaxCapacity)).
Proof.
  intros s. split; [reflexivity|].
  refine (proj1 (Consumer_Queue_capacity s (mockMessage "foo") _ _) _).
  - repeat split.
  - subst s. unfold Chan.wf, Chan.len. simpl. lia.
  - reflexivity.
Defined.


(** Once set, the stop flag stays set, whatever is called afterwards. *)
Lemma Consumer_stopFlag_stays (ops : list Consumer.op) : forall s,
  Consumer.stopFlag s = 1 ->
  Consumer.stopFlag (fold_left Consumer.apply ops s) = 1.
Proof.
  induction ops as [|o ops IH]; intros s Hs; simpl; [exact Hs|].
  apply IH. destruct o; simpl.
  - unfold Consumer.Queue. rewrite Hs. simpl. exact Hs.
  - unfold Consumer.Request.
    destruct (Chan.try_recv (Consumer.taskQueue s)); exact Hs.
  - unfold Consumer.Shutdown, CompareAndSwapInt32. rewrite Hs. simpl. exact Hs.
  - destruct (Consumer_Run_taskQueue s env task) as [_ ->]. exact Hs.
Qed.

Lemma Consumer_Shutdown_running s :
  Consumer.running s ->
  exists s1, Consumer.Shutdown s = (s1, Returned None) /\ Consumer.stopped s1 /\
             Chan.buf (Consumer.taskQueue s1) = Chan.buf (Consumer.taskQueue s).
Proof.
  intros (Hflag & Honce & Hstop & Hopen).
  unfold Consumer.Shutdown, CompareAndSwapInt32, close_signal, Chan.close.
  rewrite Hflag. simpl. rewrite Honce, Hstop, Hopen.
  eexists. split; [reflexivity|]. repeat split.
Qed.

(** C5.  The first [Shutdown] of a running consumer returns [nil] and
    closes [stop] and the task queue.  From then on, whatever else has been
    called in between, [Shutdown] returns [ErrQueueShutdown] (which is not
    [nil]) and leaves the consumer exactly as it was, and [Queue] rejects
    every message with [ErrQueueShutdown]. *)
Theorem Consumer_Shutdown_idempotent (s : Consumer.t) :
  Consumer.running s ->
  exists s1,
    Consumer.Shutdown s = (s1, Returned None) /\
    Consumer.stopped s1 /\
    forall (ops : list Consumer.op),
      let s2 := fold_left Consumer.apply ops s1 in
      Consumer.Shutdown s2 = (s2, Returned (Some ErrQueueShutdown)) /\
      forall task, Consumer.Queue s2 task = (s2, Returned (Some ErrQueueShutdown)).
Proof.
  intros Hrun.
  destruct (Consumer_Shutdown_running s Hrun) as (s1 & Hsd & Hstopped & _).
  exists s1. split; [exact Hsd|]. split; [exact Hstopped|].
  intros ops s2.
  assert (Hflag : Consumer.stopFlag s2 = 1).
  { apply Consumer_stopFlag_stays. apply Hstopped. }
  split.
  - unfold Consumer.Shutdown, CompareAndSwapInt32. rewrite Hflag. reflexivity.
  - intros task. unfold Consumer.Queue. rewrite Hflag. reflexivity.
Qed.

Lemma Consumer_Shutdown_idempotent_witness :
  exists s1,
    Consumer.Shutdown (Consumer.NewConsumer 2 (fun _ _ => Hangs) Metric.zero)
      = (s1, Returned None) /\
    Consumer.stopped s1 /\
    forall (ops : list Consumer.op),
      let s2 := fold_left Consumer.apply ops s1 in
      Consumer.Shutdown s2 = (s2, Returned (Some ErrQueueShutdown)) /\
      forall task, Consumer.Queue s2 task = (s2, Returned (Some ErrQueueShutdown)).
Proof.
  apply (Consumer_Shutdown_idempotent
           (Consumer.NewConsumer 2 (fun _ _ => Hangs) Metric.zero)).
  repeat split.
Defined.

(* ----------------------------------------------------------------- *)
(** ** The pool: submission and accounting *)

Lemma Metric_zero_wf : Metric.wf Metric.zero.
Proof.
  unfold Metric.wf, U64.in_range, U64.modulus. simpl. lia.
Qed.

Lemma U64_wrap_range (z : Z) : U64.in_range (U64.wrap z).
Proof.
  unfold U64.in_range, U64.wrap, U64.modulus. apply Z.mod_pos_bound. lia.
Qed.

(** The updates keep every counter a [uint64]. *)
Lemma Metric_wf_updates (m : Metric.t) :
  Metric.wf m ->
  Metric.wf (Metric.IncBusyWorker m) /\ Metric.wf (Metric.DecBusyWorker m) /\
  Metric.wf (Metric.IncSuccessTask m) /\ Metric.wf (Metric.IncFailureTask m) /\
  Metric.wf (Metric.IncSubmittedTask m).
Proof.
  intros (Hb & Hs & Hf & Hq).
  pose proof U64_wrap_range as Hw.
  unfold Metric.wf, U64.inc, U64.dec; simpl.
  split; [|split; [|split; [|split]]];
    (split; [|split; [|split]]); solve [assumption | apply Hw].
Qed.


Section PoolFacts.

Context {W M : Type} `{core.Worker W M}.

Lemma U64_inc_neq (x : Z) : U64.in_range x -> U64.inc x <> x.
Proof.
  unfold U64.in_range, U64.inc, U64.wrap, U64.modulus. intros Hx Heq.
  destruct (Z.eq_dec x (2 ^ 64 - 1)) as [->|Hne].
  - vm_compute in Heq. discriminate.
  - rewrite Z.mod_small in Heq by lia. lia.
Qed.

Lemma Queue_schedule_fields (q : Queue.t W) :
  let q' := fst (Queue.schedule q) in
  Queue.metric q' = Queue.metric q /\ Queue.stopFlag q' = Queue.stopFlag q /\
  Queue.worker q' = Queue.worker q /\ Queue.quit q' = Queue.quit q /\
  Queue.stopOnce q' = Queue.stopOnce q /\
  Chan.closed (Queue.ready q') = Chan.closed (Queue.ready q).
Proof.
  unfold Queue.schedule, Chan.try_send.
  destruct (Queue.BusyWorkers q >=? Queue.workerCount q); simpl; [tauto|].
  destruct (Chan.closed (Queue.ready q)) eqn:Hc; simpl; [rewrite Hc; tauto|].
  destruct (Chan.len (Queue.ready q) <? Chan.cap (Queue.ready q))%nat; simpl;
    rewrite ?Hc; tauto.
Qed.

(** [schedule] does not panic: [ready] is never closed. *)
Lemma Queue_schedule_returns (q : Queue.t W) :
  Chan.closed (Queue.ready q) = false ->
  snd (Queue.schedule q) = Returned tt.
Proof.
  unfold Queue.schedule, Chan.try_send. intros Hc. rewrite Hc.
  destruct (Queue.BusyWorkers q >=? Queue.workerCount q); [reflexivity|].
  destruct (Chan.len (Queue.ready q) <? Chan.cap (Queue.ready q))%nat; reflexivity.
Qed.

Lemma Queue_apply_stopFlag (q : Queue.t W) (o : Queue.op M) :
  Queue.stopFlag q = 1 -> Queue.stopFlag (Queue.apply q o) = 1.
Proof.
  intros Hs. destruct o; simpl.
  - unfold Queue.Queue. rewrite Hs. simpl. exact Hs.
  - unfold Queue.QueueTask. rewrite Hs. simpl. exact Hs.
  - unfold Queue.Shutdown, CompareAndSwapInt32. rewrite Hs. simpl. exact Hs.
  - unfold Queue.UpdateWorkerCount.
    destruct (Queue_schedule_fields (Queue.set_workerCount q num)) as (_ & Hf & _).
    rewrite Hf. exact Hs.
  - unfold Queue.work.
    destruct (core.Run (Queue.worker q) task) as [w' r].
    match goal with
    | |- context [Queue.schedule ?x] =>
        destruct (Queue_schedule_fields x) as (_ & Hf & _);
        destruct (Queue.schedule x) as [q3 [[]|p]]
    end; simpl in *.
    + destruct r as [[e|]|p]; simpl; rewrite Hf; exact Hs.
    + rewrite Hf. exact Hs.
Qed.

Lemma Queue_stopFlag_stays (ops : list (Queue.op M)) : forall q : Queue.t W,
  Queue.stopFlag q = 1 ->
  Queue.stopFlag (fold_left Queue.apply ops q) = 1.
Proof.
  induction ops as [|o ops IH]; intros q Hs; simpl; [exact Hs|].
  apply IH. apply Queue_apply_stopFlag. exact Hs.
Qed.

(** [ready] is never closed and the counters stay [uint64]s, whatever is
    called. *)
Lemma Queue_apply_invariants (q : Queue.t W) (o : Queue.op M) :
  Chan.closed (Queue.ready q) = false /\ Metric.wf (Queue.metric q) ->
  Chan.closed (Queue.ready (Queue.apply q o)) = false /\
  Metric.wf (Queue.metric (Queue.apply q o)).
Proof.
  intros [Hr Hm].
  pose proof (Metric_wf_updates _ Hm) as (_ & Hdec & _ & _ & Hsub).
  destruct o; simpl.
  - unfold Queue.Queue. destruct (Queue.stopFlag q =? 1); [split; assumption|].
    destruct (core.Queue _ _) as [w' [[e|]|p]]; split; assumption.
  - unfold Queue.QueueTask. destruct (Queue.stopFlag q =? 1); [split; assumption|].
    destruct (core.Queue _ _) as [w' [[e|]|p]]; split; assumption.
  - unfold Queue.Shutdown, CompareAndSwapInt32.
    destruct (Queue.stopFlag q =? 0); simpl; [|split; assumption].
    destruct (Queue.stopOnce q); simpl; [split; assumption|].
    destruct (core.Shutdown (Queue.worker q)) as [w' [e|p]]; [|split; assumption].
    destruct (close_signal (Queue.quit q)); split; assumption.
  - unfold Queue.UpdateWorkerCount.
    destruct (Queue_schedule_fields (Queue.set_workerCount q num))
      as (-> & _ & _ & _ & _ & ->). split; assumption.
  - unfold Queue.work.
    destruct (core.Run (Queue.worker q) task) as [w' r].
    match goal with
    | |- context [Queue.schedule ?x] =>
        destruct (Queue_schedule_fields x) as (Hm' & _ & _ & _ & _ & Hr');
        destruct (Queue.schedule x) as [q3 [[]|p]]
    end; simpl in Hm', Hr'.
    + pose proof (Metric_wf_updates _ Hdec) as (_ & _ & Hs & Hf & _).
      destruct r as [[e|]|p]; simpl; rewrite Hm', Hr'; split; assumption.
    + simpl. rewrite Hm', Hr'. split; assumption.
Qed.

Lemma Queue_invariants_stay (ops : list (Queue.op M)) : forall q : Queue.t W,
  Chan.closed (Queue.ready q) = false /\ Metric.wf (Queue.metric q) ->
  Chan.closed (Queue.ready (fold_left Queue.apply ops q)) = false /\
  Metric.wf (Queue.metric (fold_left Queue.apply ops q)).
Proof.
  induction ops as [|o ops IH]; intros q Hq; simpl; [exact Hq|].
  apply IH. apply Queue_apply_invariants. exact Hq.
Qed.

(** [Shutdown] sets the stop flag first, whatever the worker does then. *)
Lemma Queue_Shutdown_stopFlag (q : Queue.t W) :
  Queue.stopFlag q = 0 \/ Queue.stopFlag q = 1 ->
  Queue.stopFlag (fst (Queue.Shutdown q)) = 1.
Proof.
  unfold Queue.Shutdown, CompareAndSwapInt32. intros [Hs|Hs]; rewrite Hs; simpl.
  - destruct (Queue.stopOnce q); [reflexivity|]. simpl.
    destruct (core.Shutdown (Queue.worker q)) as [w' [e|p]]; [|reflexivity].
    destruct (close_signal (Queue.quit q)); reflexivity.
  - exact Hs.
Qed.

Lemma NewQueue_invariants (workerCount : Z) (w : W) :
  match fst (Queue.NewQueue workerCount (Some w)) with
  | Some q =>
      Queue.stopFlag q = 0 /\ Queue.stopOnce q = false /\ Queue.quit q = false /\
      Chan.closed (Queue.ready q) = false /\ Metric.wf (Queue.metric q)
  | None => False
  end.
Proof.
  simpl. repeat split; try reflexivity; apply Metric_zero_wf.
Qed.

(** C2.  Once [Shutdown] has been called on a pool, and whatever else is
    called afterwards, [Queue] and [QueueTask] return [ErrQueueShutdown] and
    leave the pool as it was: the worker is not called and no counter
    moves. *)
Theorem Queue_rejects_after_Shutdown
  (q0 : Queue.t W) (ops : list (Queue.op M))
  (m : M) (task : option TaskFunc) (o : job.Options) :
  Queue.stopFlag q0 = 0 \/ Queue.stopFlag q0 = 1 ->
  let q := fold_left Queue.apply ops (fst (Queue.Shutdown q0)) in
  Queue.stopFlag q = 1 /\
  Queue.Queue q m o = (q, Returned (Some ErrQueueShutdown)) /\
  Queue.QueueTask q task o = (q, Returned (Some ErrQueueShutdown)).
Proof.
  intros H0 q.
  assert (Hs : Queue.stopFlag q = 1).
  { apply Queue_stopFlag_stays. apply Queue_Shutdown_stopFlag. exact H0. }
  split; [exact Hs|].
  unfold Queue.Queue, Queue.QueueTask. rewrite Hs. simpl. split; reflexivity.
Qed.

(** C3.  On a pool whose stop flag is not set, [Queue] and [QueueTask]
    return what the worker's [Queue] returned.  If that is an error, the
    metric is as before; if it is [nil], the submitted counter has been
    incremented once (by [atomic.AddUint64], so by one unless the counter
    wraps) and the other counters are as before. *)
Theorem Queue_counts_submitted
  (q : Queue.t W) (sent : M) (w' : W) (r : option error) :
  Queue.stopFlag q <> 1 ->
  Metric.wf (Queue.metric q) ->
  core.Queue (Queue.worker q) sent = (w', Returned r) ->
  let metric' :=
    match r with
    | Some _ => Queue.metric q
    | None => Metric.IncSubmittedTask (Queue.metric q)
    end in
  (forall m o, Queue.enqueued m o = sent ->
     Queue.Queue q m o =
       (Queue.set_metric (Queue.set_worker q w') metric', Returned r)) /\
  (forall task o, core.ofMessage (NewTask task o) = sent ->
     Queue.QueueTask q task o =
       (Queue.set_metric (Queue.set_worker q w') metric', Returned r)) /\
  match r with
  | Some _ => metric' = Queue.metric q
  | None =>
      Metric.SubmittedTasks metric' =
        U64.inc (Metric.SubmittedTasks (Queue.metric q)) /\
      (Metric.SubmittedTasks (Queue.metric q) <> U64.modulus - 1 ->
       Metric.SubmittedTasks metric' =
         Metric.SubmittedTasks (Queue.metric q) + 1) /\
      Metric.SubmittedTasks metric' <> Metric.SubmittedTasks (Queue.metric q) /\
      Metric.BusyWorkers metric' = Metric.BusyWorkers (Queue.metric q) /\
      Metric.SuccessTasks metric' = Metric.SuccessTasks (Queue.metric q) /\
      Metric.FailureTasks metric' = Metric.FailureTasks (Queue.metric q)
  end.
Proof.
  intros Hs Hwf Hq metric'.
  apply Z.eqb_neq in Hs.
  split; [|split].
  - intros m o Hm. unfold Queue.Queue. rewrite Hs.
    unfold Queue.enqueued in Hm. rewrite Hm, Hq.
    subst metric'. destruct r; [|reflexivity].
    destruct q; reflexivity.
  - intros task o Hm. unfold Queue.QueueTask. rewrite Hs, Hm, Hq.
    subst metric'. destruct r; [|reflexivity].
    destruct q; reflexivity.
  - subst metric'. destruct r; [reflexivity|].
    destruct Hwf as (_ & _ & _ & Hsub).
    unfold Metric.SubmittedTasks in *. simpl.
    split; [reflexivity|]. split; [|split].
    + intros Hne. apply U64_inc_small.
      unfold U64.in_range, U64.modulus in *. lia.
    + apply U64_inc_neq. exact Hsub.
    + repeat split.
Qed.

End PoolFacts.

Lemma Queue_rejects_after_Shutdown_witness :
  let q0 := Queue.mk Metric.zero 2 false (Chan.make unit 1) EmptyWorker false 0 in
  let q := fold_left Queue.apply [Queue.OpWork (mockMessage "foo")]
                     (fst (Queue.Shutdown q0)) in
  Queue.stopFlag q = 1 /\
  Queue.Queue q (mockMessage "foo") (job.mkOptions 0 0 0)
    = (q, Returned (Some ErrQueueShutdown)) /\
  Queue.QueueTask q None (job.mkOptions 0 0 0)
    = (q, Returned (Some ErrQueueShutdown)).
Proof.
  intros q0.
  exact (Queue_rejects_after_Shutdown q0 [Queue.OpWork (mockMessage "foo")]
           (mockMessage "foo") None (job.mkOptions 0 0 0) (or_introl eq_refl)).
Defined.


Lemma Queue_counts_submitted_witness :
  let env := mkEnv None (fun _ => 0%nat) 1 in
  let c := Consumer.NewConsumer 1 (fun _ _ => Hangs) Metric.zero in
  let q := Queue.mk Metric.zero 2 false (Chan.make unit 1) c false 0 in
  let o := job.mkOptions 0 0 0 in
  let r := Queue.Queue (H := Consumer_Worker env) q (mockMessage "foo") o in
  snd r = Returned None /\ Queue.SubmittedTasks (fst r) = 1 /\
  Consumer.Usage (Queue.worker (fst r)) = 1.
Proof.
  intros env c q o r.
  pose (sent := Queue.enqueued (H := Consumer_Worker env) (mockMessage "foo") o).
  pose proof (@Queue_counts_submitted _ _ (Consumer_Worker env) q sent
                (fst (Consumer.Queue c sent)) None
                ltac:(discriminate) Metric_zero_wf eq_refl) as (H1 & _ & _).
  specialize (H1 (mockMessage "foo") o eq_refl).
  subst r. rewrite H1. repeat split.
Defined.

Section WorkFacts.

Context {W M : Type} `{core.Worker W M}.


End WorkFacts.


(* ----------------------------------------------------------------- *)
(** ** The pool: concurrent calls of [Shutdown] *)

Section RaceFacts.

Context {W M : Type} `{core.Worker W M}.

Import ShutdownRace.

Lemma nth_error_update_eq {A} (l : list A) (i : nat) (x y : A) :
  nth_error l i = Some y -> nth_error (update l i x) i = Some x.
Proof.
  revert i. induction l as [|a l IH]; intros [|i] Hn; simpl in *;
    try discriminate; [reflexivity|]. apply IH. exact Hn.
Qed.

Lemma nth_error_update_neq {A} (l : list A) (i j : nat) (x : A) :
  j <> i -> nth_error (update l i x) j = nth_error l j.
Proof.
  revert i j. induction l as [|a l IH]; intros [|i] [|j] Hne; simpl;
    try reflexivity; [contradiction|]. apply IH. congruence.
Qed.

Lemma nth_error_update_inv {A} (l : list A) (i j : nat) (x y : A) :
  nth_error (update l i x) j = Some y ->
  (j = i /\ y = x /\ exists z, nth_error l i = Some z) \/
  (j <> i /\ nth_error l j = Some y).
Proof.
  intros Hn. destruct (Nat.eq_dec j i) as [->|Hne].
  - left. destruct (nth_error l i) as [z|] eqn:Hz.
    + rewrite (nth_error_update_eq l i x z Hz) in Hn. injection Hn as <-.
      split; [reflexivity|]. split; [reflexivity|]. exists z. reflexivity.
    + exfalso. revert i Hn Hz.
      induction l as [|a l IH]; intros [|i] Hn Hz; simpl in *;
        try discriminate. eapply IH; eassumption.
  - right. split; [exact Hne|].
    rewrite nth_error_update_neq in Hn by exact Hne. exact Hn.
Qed.

Lemma start_inv (q0 : Queue.t W) (n : nat) :
  Queue.stopFlag q0 = 0 -> Queue.stopOnce q0 = false -> Queue.quit q0 = false ->
  inv q0 (start q0 n).
Proof.
  intros Hf Ho Hq. left. simpl. repeat split; try assumption.
  intros j p Hn. apply nth_error_In in Hn. apply repeat_spec in Hn. exact Hn.
Qed.

Ltac winner_moves w p' :=
  right; exists w, p'; simpl;
  split; [eapply nth_error_update_eq; eassumption|];
  split; [unfold winner_state; simpl; repeat split;
          first [congruence
                | match goal with
                  | Hx : core.Shutdown _ = _ |- _ => rewrite Hx; reflexivity
                  end]|];
  let j := fresh "j" in
  let Hne := fresh "Hne" in
  let Hj := fresh "Hj" in
  intros j ? Hne Hj; rewrite nth_error_update_neq in Hj by exact Hne; eauto.

(** Every step keeps the invariant, provided the worker's [Shutdown]
    returns. *)
Lemma step_inv (q0 : Queue.t W) (st : sys W) (i : nat) :
  (exists e, snd (core.Shutdown (Queue.worker q0)) = Returned e) ->
  inv q0 st -> inv q0 (step st i).
Proof.
  intros [e He] [Hpristine | (w & p & Hw & Hws & Hothers)].
  - destruct Hpristine as (Hf & Hl & Ho & Hq & Hwk & Htr & Hall).
    unfold step. destruct (nth_error (callers st) i) as [p|] eqn:Hi.
    + rewrite (Hall i p Hi). unfold CompareAndSwapInt32. rewrite Hf. simpl.
      winner_moves i AtOnce.
      left. eapply Hall. eassumption.
    + left. repeat split; assumption.
  - destruct (Nat.eq_dec i w) as [->|Hne].
    + unfold step. rewrite Hw.
      destruct Hws as (Hflag & Hws).
      destruct p; try contradiction;
        destruct Hws as (Hl & Ho & Hq & Hwk & Htr).
      * rewrite Ho. winner_moves w AtLock.
      * rewrite Hl, Ho. winner_moves w AtWorkerShutdown.
      * rewrite Hwk.
        destruct (core.Shutdown (Queue.worker q0)) as [w' r] eqn:Hsd.
        simpl in He. subst r. winner_moves w AtCloseQuit.
      * unfold close_signal. rewrite Hq. winner_moves w AtOnceExit.
      * winner_moves w Finished.
      * right. exists w, Finished. split; [exact Hw|].
        split; [|exact Hothers].
        unfold winner_state. repeat split; assumption.
    + unfold step. destruct (nth_error (callers st) i) as [p'|] eqn:Hi.
      * destruct Hws as (Hflag & Hws).
        destruct (Hothers i p' Hne Hi) as [-> | ->].
        -- unfold CompareAndSwapInt32. rewrite Hflag. simpl.
           right. exists w, p. simpl.
           split; [rewrite nth_error_update_neq by congruence; exact Hw|].
           split; [split; [exact Hflag|]; destruct p; exact Hws|].
           intros j p1 Hj Hn.
           apply nth_error_update_inv in Hn.
           destruct Hn as [(_ & -> & _) | (Hji & Hn)];
             [right; reflexivity | eapply Hothers; eassumption].
        -- right. exists w, p. split; [exact Hw|].
           split; [split; [exact Hflag|exact Hws]|exact Hothers].
      * right. exists w, p. split; [exact Hw|].
        split; [exact Hws|exact Hothers].
Qed.

Lemma run_inv (q0 : Queue.t W) (sched : list nat) : forall st : sys W,
  (exists e, snd (core.Shutdown (Queue.worker q0)) = Returned e) ->
  inv q0 st -> inv q0 (run sched st).
Proof.
  induction sched as [|i sched IH]; intros st He Hinv; simpl; [exact Hinv|].
  apply IH; [exact He|]. apply step_inv; assumption.
Qed.

Lemma update_length {A} (l : list A) (i : nat) (x : A) :
  List.length (update l i x) = List.length l.
Proof.
  revert i. induction l as [|a l IH]; intros [|i]; simpl; try reflexivity.
  rewrite IH. reflexivity.
Qed.

Lemma step_callers_length (st : sys W) (i : nat) :
  List.length (callers (step st i)) = List.length (callers st).
Proof.
  unfold step.
  destruct (nth_error (callers st) i) as [[| | | | | | |p]|]; try reflexivity;
    repeat match goal with
           | |- context [let (_, _) := ?x in _] => destruct x
           | |- context [if ?b then _ else _] => destruct b
           | |- context [match ?x with Returned _ => _ | Panicked _ => _ end] =>
               destruct x
           end;
    simpl; try apply update_length; reflexivity.
Qed.

Lemma run_callers_length (sched : list nat) : forall st : sys W,
  List.length (callers (run sched st)) = List.length (callers st).
Proof.
  induction sched as [|i sched IH]; intros st; simpl; [reflexivity|].
  rewrite IH. apply step_callers_length.
Qed.

(** Under the invariant nobody waits for the lock of [stopOnce]. *)
Lemma inv_lock_free (q0 : Queue.t W) (st : sys W) (k : nat) :
  inv q0 st -> nth_error (callers st) k = Some AtLock -> onceLocked st = false.
Proof.
  intros [Hp | (w & p & Hw & Hws & Hothers)] Hk.
  - destruct Hp as (_ & _ & _ & _ & _ & _ & Hall).
    specialize (Hall k AtLock Hk). discriminate.
  - destruct (Nat.eq_dec k w) as [->|Hne].
    + rewrite Hw in Hk. injection Hk as ->. apply Hws.
    + destruct (Hothers k AtLock Hne Hk); discriminate.
Qed.

(** A step of caller [k] brings [k] strictly nearer to its return and
    leaves the other callers where they are. *)
Lemma step_progress (q0 : Queue.t W) (st : sys W) (k i : nat) (p' : pc) :
  inv q0 st ->
  nth_error (callers (step st k)) i = Some p' ->
  exists p0,
    nth_error (callers st) i = Some p0 /\
    (remaining p' <= remaining p0 - (if Nat.eqb i k then 1 else 0))%nat.
Proof.
  intros Hinv Hn. unfold step in Hn.
  assert (Hsame : forall p0, nth_error (callers st) k = Some p0 ->
                  remaining p0 = 0%nat ->
                  nth_error (callers st) i = Some p' ->
                  exists p1, nth_error (callers st) i = Some p1 /\
                  (remaining p' <= remaining p1 - (if Nat.eqb i k then 1 else 0))%nat).
  { intros p0 Hk Hr Hi. exists p'. split; [exact Hi|].
    destruct (Nat.eqb_spec i k) as [->|_]; [|lia].
    rewrite Hk in Hi. injection Hi as <-. lia. }
  assert (Hmove : forall p0 px, nth_error (callers st) k = Some p0 ->
                  (remaining px < remaining p0)%nat ->
                  nth_error (update (callers st) k px) i = Some p' ->
                  exists p1, nth_error (callers st) i = Some p1 /\
                  (remaining p' <= remaining p1 - (if Nat.eqb i k then 1 else 0))%nat).
  { intros p0 px Hk Hr Hi. apply nth_error_update_inv in Hi.
    destruct Hi as [(-> & -> & _) | (Hne & Hi)].
    - exists p0. split; [exact Hk|]. rewrite Nat.eqb_refl. lia.
    - exists p'. split; [exact Hi|].
      destruct (Nat.eqb_spec i k); [contradiction|lia]. }
  destruct (nth_error (callers st) k) as [pk|] eqn:Hk.
  - destruct pk.
    + destruct (CompareAndSwapInt32 (Queue.stopFlag (pool st)) 0 1) as [f [|]];
        simpl in Hn; eapply Hmove; try eassumption; try reflexivity; simpl; lia.
    + destruct (Queue.stopOnce (pool st)); simpl in Hn;
        eapply Hmove; try eassumption; try reflexivity; simpl; lia.
    + rewrite (inv_lock_free q0 st k Hinv Hk) in Hn.
      destruct (Queue.stopOnce (pool st)); simpl in Hn;
        eapply Hmove; try eassumption; try reflexivity; simpl; lia.
    + destruct (core.Shutdown (Queue.worker (pool st))) as [w' [e|p]];
        simpl in Hn; eapply Hmove; try eassumption; try reflexivity; simpl; lia.
    + destruct (close_signal (Queue.quit (pool st))); simpl in Hn;
        eapply Hmove; try eassumption; try reflexivity; simpl; lia.
    + simpl in Hn. eapply Hmove; try eassumption; try reflexivity; simpl; lia.
    + eapply Hsame; try eassumption; reflexivity.
    + eapply Hsame; try eassumption; reflexivity.
  - exists p'. split; [exact Hn|].
    destruct (Nat.eqb_spec i k) as [->|_]; [|lia].
    rewrite Hk in Hn. discriminate.
Qed.

Lemma run_progress (q0 : Queue.t W) (sched : list nat) :
  (exists e, snd (core.Shutdown (Queue.worker q0)) = Returned e) ->
  forall (st : sys W) (i : nat) (p : pc),
  inv q0 st ->
  nth_error (callers (run sched st)) i = Some p ->
  exists p0,
    nth_error (callers st) i = Some p0 /\
    (remaining p <= remaining p0 - count_occ Nat.eq_dec sched i)%nat.
Proof.
  intros He.
  induction sched as [|k sched IH]; intros st i p Hinv Hn; simpl in *.
  - exists p. split; [exact Hn|]. lia.
  - destruct (IH (step st k) i p (step_inv q0 st k He Hinv) Hn)
      as (p1 & Hp1 & Hle1).
    destruct (step_progress q0 st k i p1 Hinv Hp1) as (p0 & Hp0 & Hle0).
    exists p0. split; [exact Hp0|].
    destruct (Nat.eq_dec k i) as [->|Hne].
    + rewrite Nat.eqb_refl in Hle0. lia.
    + destruct (Nat.eqb_spec i k); [congruence|lia].
Qed.

(** A single caller run to its end leaves the pool as the function
    [Queue.Shutdown] does. *)
Lemma run_alone (q : Queue.t W) :
  pool (run [0; 0; 0; 0; 0; 0]%nat (start q 1)) = fst (Queue.Shutdown q).
Proof.
  destruct q as [m wc qt rd w once flag].
  unfold run, start, Queue.Shutdown, CompareAndSwapInt32. cbn [fold_left repeat].
  unfold step at 6. cbn. unfold CompareAndSwapInt32.
  destruct (flag =? 0); cbn; [|reflexivity].
  destruct once; cbn; [reflexivity|].
  destruct (core.Shutdown w) as [w' [e|p]]; cbn; [|reflexivity].
  destruct qt; reflexivity.
Qed.

(** C6.  Any number [n] of callers of [Shutdown] on a fresh pool, under
    any schedule of their atomic steps: nobody panics, [quit] is closed at
    most once and the worker's [Shutdown] is called at most once; [quit] is
    closed in the pool exactly if the close has been made; when every
    caller has had the six steps a call takes at most, all have returned;
    and when all have returned (and there was a caller), the stop flag is
    set, [quit] has been closed exactly once and the worker shut down
    exactly once. *)
Theorem Queue_Shutdown_once (q0 : Queue.t W) (n : nat) (sched : list nat) :
  Queue.stopFlag q0 = 0 -> Queue.stopOnce q0 = false -> Queue.quit q0 = false ->
  (exists e, snd (core.Shutdown (Queue.worker q0)) = Returned e) ->
  let st := run sched (start q0 n) in
  some_crashed st = false /\
  (occurrences EvCloseQuit (trace st) <= 1)%nat /\
  (occurrences EvWorkerShutdown (trace st) <= 1)%nat /\
  (Queue.quit (pool st) = true <-> occurrences EvCloseQuit (trace st) = 1%nat) /\
  ((forall i, (i < n)%nat -> (6 <= count_occ Nat.eq_dec sched i)%nat) ->
   all_finished st = true) /\
  (all_finished st = true -> (0 < n)%nat ->
   Queue.stopFlag (pool st) = 1 /\ Queue.quit (pool st) = true /\
   occurrences EvCloseQuit (trace st) = 1%nat /\
   occurrences EvWorkerShutdown (trace st) = 1%nat).
Proof.
  intros Hf Ho Hq He st.
  assert (Hinv0 : inv q0 (start q0 n)) by (apply start_inv; assumption).
  assert (Hinv : inv q0 st) by (apply run_inv; assumption).
  assert (Hlen : List.length (callers st) = n).
  { unfold st. rewrite run_callers_length. simpl. apply repeat_length. }
  split; [|split; [|split; [|split; [|split]]]].
  - (* nobody has panicked *)
    unfold some_crashed.
    destruct (existsb is_Crashed (callers st)) eqn:Hex; [|reflexivity].
    apply existsb_exists in Hex. destruct Hex as (p & Hin & Hp).
    destruct p; try discriminate.
    apply In_nth_error in Hin. destruct Hin as [j Hj].
    destruct Hinv as [Hp0 | (w & pw & Hw & Hws & Hothers)].
    + destruct Hp0 as (_ & _ & _ & _ & _ & _ & Hall).
      specialize (Hall j _ Hj). discriminate.
    + destruct (Nat.eq_dec j w) as [->|Hne].
      * rewrite Hw in Hj. injection Hj as ->. destruct Hws as (_ & []).
      * destruct (Hothers j _ Hne Hj); discriminate.
  - destruct Hinv as [Hp0 | (w & pw & Hw & (_ & Hws) & _)].
    + destruct Hp0 as (_ & _ & _ & _ & _ & -> & _). unfold occurrences. simpl. lia.
    + destruct pw; try contradiction;
        destruct Hws as (_ & _ & _ & _ & ->); unfold occurrences; simpl; lia.
  - destruct Hinv as [Hp0 | (w & pw & Hw & (_ & Hws) & _)].
    + destruct Hp0 as (_ & _ & _ & _ & _ & -> & _). unfold occurrences. simpl. lia.
    + destruct pw; try contradiction;
        destruct Hws as (_ & _ & _ & _ & ->); unfold occurrences; simpl; lia.
  - destruct Hinv as [Hp0 | (w & pw & Hw & (_ & Hws) & _)].
    + destruct Hp0 as (_ & _ & _ & -> & _ & -> & _). unfold occurrences. simpl.
      split; discriminate.
    + destruct pw; try contradiction;
        destruct Hws as (_ & _ & -> & _ & ->); unfold occurrences; simpl;
        split; intros; try discriminate; reflexivity.
  - (* a fair schedule lets everybody return *)
    intros Hfair. unfold all_finished. apply forallb_forall. intros p Hin.
    apply In_nth_error in Hin. destruct Hin as [j Hj].
    destruct (run_progress q0 sched He (start q0 n) j p Hinv0 Hj)
      as (p0 & Hp0 & Hle).
    assert (Hjn : (j < n)%nat).
    { assert (Hsome : nth_error (callers (start q0 n)) j <> None)
        by (rewrite Hp0; discriminate).
      apply nth_error_Some in Hsome. simpl in Hsome.
      rewrite repeat_length in Hsome. exact Hsome. }
    assert (Hp0' : p0 = AtCAS).
    { apply nth_error_In in Hp0. simpl in Hp0. apply repeat_spec in Hp0.
      exact Hp0. }
    subst p0. specialize (Hfair j Hjn).
    change (remaining AtCAS) with 6%nat in Hle.
    assert (Hr : remaining p = 0%nat) by lia.
    destruct p; simpl in Hr; try discriminate; [reflexivity|].
    exfalso.
    destruct Hinv as [Hpr | (w & pw & Hw & Hws & Hothers)].
    + destruct Hpr as (_ & _ & _ & _ & _ & _ & Hall).
      specialize (Hall j _ Hj). discriminate.
    + destruct (Nat.eq_dec j w) as [->|Hne].
      * rewrite Hw in Hj. injection Hj as ->. destruct Hws as (_ & []).
      * destruct (Hothers j _ Hne Hj); discriminate.
  - (* all returned: exactly one shutdown *)
    intros Hall Hn. unfold all_finished in Hall.
    rewrite forallb_forall in Hall.
    destruct Hinv as [Hpr | (w & pw & Hw & (Hflag & Hws) & _)].
    + exfalso. destruct Hpr as (_ & _ & _ & _ & _ & _ & Hcas).
      destruct (nth_error (callers st) 0) as [p|] eqn:H0.
      * pose proof (Hcas 0%nat p H0) as ->.
        apply nth_error_In in H0. specialize (Hall _ H0). discriminate.
      * apply nth_error_None in H0. lia.
    + apply nth_error_In in Hw. specialize (Hall _ Hw).
      destruct pw; try discriminate.
      destruct Hws as (_ & _ & -> & _ & ->). unfold occurrences. simpl.
      repeat split; assumption.
Qed.

End RaceFacts.

Lemma Queue_Shutdown_once_witness :
  let env := mkEnv None (fun _ => 0%nat) 1 in
  let c := Consumer.NewConsumer 1 (fun _ _ => Hangs) Metric.zero in
  let q0 := Queue.mk Metric.zero 2 false (Chan.make unit 1) c false 0 in
  let sched := [2; 0; 1; 0; 1; 2; 0; 0; 1; 2; 0; 0; 1; 2; 1; 2; 1; 2; 0]%nat in
  let st := ShutdownRace.run (H := Consumer_Worker env) sched
              (ShutdownRace.start q0 3) in
  ShutdownRace.all_finished st = true /\
  ShutdownRace.some_crashed st = false /\
  ShutdownRace.occurrences ShutdownRace.EvCloseQuit (ShutdownRace.trace st) = 1%nat /\
  ShutdownRace.occurrences ShutdownRace.EvWorkerShutdown (ShutdownRace.trace st) = 1%nat /\
  Consumer.stopped (Queue.worker (ShutdownRace.pool st)).
Proof.
  intros env c q0 sched st.
  destruct (@Queue_Shutdown_once _ _ (Consumer_Worker env) q0 3%nat sched
              eq_refl eq_refl eq_refl (ex_intro _ None eq_refl))
    as (Hcrash & _ & _ & _ & _ & Hdone).
  assert (Hfin : ShutdownRace.all_finished st = true) by reflexivity.
  destruct (Hdone Hfin ltac:(lia)) as (_ & _ & Hq & Hw).
  split; [exact Hfin|]. split; [exact Hcrash|].
  split; [exact Hq|]. split; [exact Hw|]. repeat split.
Defined.

(* ----------------------------------------------------------------- *)
(** ** The in-memory worker: timeouts *)

Lemma stop_at_nonneg s env ts : Consumer.stop_at s env = Some ts -> 0 <= ts.
Proof.
  unfold Consumer.stop_at. destruct (Consumer.stop s).
  - intros [= <-]. lia.
  - destruct (shutdownAt env); simpl; [intros [= <-]; lia|discriminate].
Qed.

Lemma Int64_wrap_small (z : Z) :
  Int64.min <= z <= Int64.max -> Int64.wrap z = z.
Proof.
  unfold Int64.wrap, Int64.min, Int64.max. intros Hz.
  rewrite Z.mod_small by lia. lia.
Qed.

Lemma Int64_wrap_below (z : Z) :
  Int64.min - 2 ^ 63 <= z < Int64.min -> Int64.wrap z = z + 2 ^ 64.
Proof.
  unfold Int64.wrap, Int64.min. intros Hz.
  replace (z + 2 ^ 63) with (z + 2 ^ 63 + 2 ^ 64 + (-1) * 2 ^ 64) by ring.
  rewrite Z_mod_plus_full. rewrite Z.mod_small by lia. lia.
Qed.

(** The clock is read at or after the instant at which [s.stop] was
    taken, and [time.Since] returns a duration between 0 and the greatest
    one. *)
Lemma Since_facts s env ts :
  Consumer.stop_at s env = Some ts ->
  ts <= Consumer.clock_read env ts /\
  Consumer.Since env ts = Z.min Int64.max (Consumer.clock_read env ts) /\
  0 <= Consumer.Since env ts <= Int64.max.
Proof.
  intros Hts. pose proof (stop_at_nonneg s env ts Hts) as H0.
  unfold Consumer.Since, Consumer.clock_read, Int64.max. lia.
Qed.

Ltac race_cases :=
  unfold select, better; simpl;
  repeat match goal with
         | Hw : Int64.wrap ?z = _ |- context [Int64.wrap ?z] => rewrite Hw
         | |- context [?a <? ?b] => destruct (Z.ltb_spec a b); simpl
         | |- context [?a =? ?b] => destruct (Z.eqb_spec a b); simpl
         | |- context [(?a <? ?b)%nat] => destruct (a <? b)%nat; simpl
         end;
  try reflexivity; try lia.

(** User code that is done strictly before the timeout, the clock being
    read before the timeout if the worker is shut down before the user
    code is done: [handle] hands on what it returned, or its panic. *)
Lemma handle_before_timeout s env job d r :
  snd (Consumer.user_call s env job) = Finishes d r ->
  0 <= d < Timeout job ->
  job.int64_range (Timeout job) ->
  (forall t1, Consumer.stop_at s env = Some t1 -> t1 <= d ->
     Consumer.clock_read env t1 < Timeout job) ->
  snd (fst (Consumer.handle s env job)) = r.
Proof.
  intros Hb Hd Hrange Hclock. unfold Consumer.handle.
  destruct (Consumer.user_call s env job) as [c b]. simpl in Hb. subst b.
  unfold job.int64_range in Hrange.
  destruct (Consumer.stop_at s env) as [ts|] eqn:Hts.
  - pose proof (stop_at_nonneg s env ts Hts) as H0.
    destruct (Since_facts s env ts Hts) as (Hnow & HS & HS0).
    unfold Int64.max in HS, HS0.
    destruct (Z.le_gt_cases ts d) as [Hle|Hgt].
    + pose proof (Hclock ts eq_refl Hle) as Hc.
      assert (Hw : Int64.wrap (Timeout job - Consumer.Since env ts) =
                   Timeout job - Consumer.Since env ts).
      { apply Int64_wrap_small. unfold Int64.min, Int64.max. lia. }
      destruct r as [e|p]; simpl; race_cases.
    + destruct r as [e|p]; simpl; race_cases.
  - destruct r as [e|p]; simpl; race_cases.
Qed.

(** User code that is not done when the timeout has passed, nor when the
    clock is read if the worker is shut down by then, the subtraction of
    the time elapsed from the timeout not wrapping around: [handle] returns
    [context.DeadlineExceeded]. *)
Lemma handle_after_timeout s env job :
  job.int64_range (Timeout job) ->
  (forall t1, Consumer.stop_at s env = Some t1 -> t1 <= Z.max 0 (Timeout job) ->
     Int64.min <= Timeout job - Consumer.Since env t1) ->
  match snd (Consumer.user_call s env job) with
  | Finishes d _ =>
      Z.max 0 (Timeout job) < d /\
      forall t1, Consumer.stop_at s env = Some t1 -> t1 <= Z.max 0 (Timeout job) ->
        Consumer.clock_read env t1 < d
  | Hangs => True
  end ->
  snd (fst (Consumer.handle s env job)) = Returned (Some DeadlineExceeded).
Proof.
  intros Hrange Hwrap Hb. unfold Consumer.handle.
  destruct (Consumer.user_call s env job) as [c b]. simpl in Hb.
  unfold job.int64_range in Hrange.
  destruct (Consumer.stop_at s env) as [ts|] eqn:Hts.
  - pose proof (stop_at_nonneg s env ts Hts) as H0.
    destruct (Since_facts s env ts Hts) as (Hnow & HS & HS0).
    unfold Int64.max in HS, HS0.
    destruct (Z.le_gt_cases ts (Z.max 0 (Timeout job))) as [Hle|Hgt].
    + pose proof (Hwrap ts eq_refl Hle) as Hmin.
      assert (Hw : Int64.wrap (Timeout job - Consumer.Since env ts) =
                   Timeout job - Consumer.Since env ts).
      { apply Int64_wrap_small. unfold Int64.max. lia. }
      unfold Int64.min in Hmin.
      destruct b as [d r|].
      * destruct Hb as [Hd Hc]. pose proof (Hc ts eq_refl Hle) as Hread.
        destruct r as [e|p]; simpl; race_cases.
      * simpl; race_cases.
    + destruct b as [d r|].
      * destruct Hb as [Hd _]. destruct r as [e|p]; simpl; race_cases.
      * simpl; race_cases.
  - destruct b as [d r|].
    + destruct Hb as [Hd _]. destruct r as [e|p]; simpl; race_cases.
    + simpl; race_cases.
Qed.

(** The subtraction wraps around: on a consumer that is already shut down,
    for the least timeout and with the [select] taking [s.stop], the time
    left comes out as a duration of some 292 years once any time has
    elapsed, and [handle] hands on what the user code returns. *)
Lemma handle_left_time_wraps s env job d r :
  Consumer.stop s = true ->
  Timeout job = Int64.min ->
  0 < lag env < 2 ^ 62 ->
  (prefer env caseStop < prefer env caseCtxDone)%nat ->
  (prefer env caseStop < prefer env caseDone)%nat ->
  (prefer env caseStop < prefer env casePanic)%nat ->
  snd (Consumer.user_call s env job) = Finishes d r ->
  0 <= d < 2 ^ 62 ->
  snd (fst (Consumer.handle s env job)) = r.
Proof.
  intros Hstop Ht Hlag Hp1 Hp2 Hp3 Hb Hd. unfold Consumer.handle.
  destruct (Consumer.user_call s env job) as [c b]. simpl in Hb. subst b.
  assert (Hts : Consumer.stop_at s env = Some 0).
  { unfold Consumer.stop_at. rewrite Hstop. reflexivity. }
  rewrite Hts. remember (Timeout job) as T eqn:HT. clear HT.
  assert (Hnow : Consumer.clock_read env 0 = lag env).
  { unfold Consumer.clock_read. lia. }
  assert (Hw : exists W, Int64.wrap (T - Consumer.Since env 0) = W /\
                         W = T - lag env + 2 ^ 64).
  { eexists. split; [|reflexivity].
    replace (Consumer.Since env 0) with (lag env)
      by (unfold Consumer.Since, Consumer.clock_read, Int64.max; lia).
    apply Int64_wrap_below. rewrite Ht. unfold Int64.min. lia. }
  destruct Hw as (W & Hw & HW).
  assert (HmaxT : Z.max 0 T = 0) by (rewrite Ht; unfold Int64.min; lia).
  rewrite HmaxT.
  assert (Hq1 : (prefer env caseCtxDone <? prefer env caseStop)%nat = false)
    by (apply Nat.ltb_ge; lia).
  assert (Hq2 : (prefer env caseDone <? prefer env caseStop)%nat = false)
    by (apply Nat.ltb_ge; lia).
  assert (Hq3 : (prefer env casePanic <? prefer env caseStop)%nat = false)
    by (apply Nat.ltb_ge; lia).
  apply Nat.ltb_lt in Hp1, Hp2, Hp3.
  unfold Int64.min in Ht.
  destruct d as [|dp|dp]; [| |lia];
    destruct r as [e|p]; simpl; unfold select, better; simpl;
    repeat match goal with
           | |- context [Int64.wrap ?z] => rewrite Hw
           | |- context [Consumer.clock_read env 0] => rewrite Hnow
           | H : (?a <? ?b)%nat = _ |- context [(?a <? ?b)%nat] =>
               rewrite H; simpl
           | |- context [?a <? ?b] => destruct (Z.ltb_spec a b); simpl
           | |- context [?a =? ?b] => destruct (Z.eqb_spec a b); simpl
           | |- context [(?a <? ?b)%nat] => destruct (a <? b)%nat; simpl
           end;
    try reflexivity; try lia.
Qed.

Lemma Consumer_handle_call s env job :
  snd (Consumer.handle s env job) = fst (Consumer.user_call s env job).
Proof.
  unfold Consumer.handle.
  destruct (Consumer.user_call s env job); reflexivity.
Qed.


(** C1, as the code has it.  The scope of a job is made from the job's own
    timeout, whatever its value, and the user code gets that scope.  User
    code done strictly before the timeout makes [handle] return what it
    returned (no deadline error on success); user code not done when the
    timeout has passed makes [handle] return [context.DeadlineExceeded],
    which for a timeout of 0 is any user code that takes time.  When the
    worker is shut down meanwhile, [handle] reads the clock and waits for
    the time left: the clauses then ask that the clock is read before the
    instant they speak of (the timeout, the end of the user code), and the
    deadline clauses that the time left, an [int64], does not wrap
    around, as it cannot for a timeout that is not negative. *)
Theorem Consumer_handle_timeout (s : Consumer.t) (env : Env) (job : Job) :
  job.int64_range (Timeout job) ->
  let result := snd (fst (Consumer.handle s env job)) in
  ctxTimeout (Consumer.context_of s env job) = Timeout job /\
  (forall d r,
     snd (Consumer.user_call s env job) = Finishes d r ->
     0 <= d < Timeout job ->
     (forall t1, Consumer.stop_at s env = Some t1 -> t1 <= d ->
        Consumer.clock_read env t1 < Timeout job) ->
     result = r) /\
  (forall d r,
     snd (Consumer.user_call s env job) = Finishes d r ->
     Z.max 0 (Timeout job) < d ->
     (forall t1, Consumer.stop_at s env = Some t1 -> t1 <= Z.max 0 (Timeout job) ->
        Consumer.clock_read env t1 < d /\
        Int64.min <= Timeout job - Consumer.Since env t1) ->
     result = Returned (Some DeadlineExceeded)) /\
  (forall d r,
     snd (Consumer.user_call s env job) = Finishes d r ->
     0 <= Timeout job < d ->
     (forall t1, Consumer.stop_at s env = Some t1 -> t1 <= Timeout job ->
        Consumer.clock_read env t1 < d) ->
     result = Returned (Some DeadlineExceeded)) /\
  (forall d r,
     snd (Consumer.user_call s env job) = Finishes d r ->
     Timeout job = 0 -> 0 < d ->
     (forall t1, Consumer.stop_at s env = Some t1 -> t1 <= 0 ->
        Consumer.clock_read env t1 < d) ->
     result = Returned (Some DeadlineExceeded)) /\
  (snd (Consumer.user_call s env job) = Hangs ->
   (forall t1, Consumer.stop_at s env = Some t1 -> t1 <= Z.max 0 (Timeout job) ->
      Int64.min <= Timeout job - Consumer.Since env t1) ->
   result = Returned (Some DeadlineExceeded)).
Proof.
  intros Hrange result.
  assert (Hpos : 0 <= Timeout job ->
            forall t1, Consumer.stop_at s env = Some t1 ->
              Int64.min <= Timeout job - Consumer.Since env t1).
  { intros Ht t1 Hts. destruct (Since_facts s env t1 Hts) as (_ & _ & HS0).
    unfold Int64.min, Int64.max in *. lia. }
  split; [reflexivity|]. split; [|split; [|split; [|split]]].
  - intros d r Hb Hd Hclock. eapply handle_before_timeout; eassumption.
  - intros d r Hb Hd Hclock. apply handle_after_timeout.
    + exact Hrange.
    + intros t1 Hts Hle. apply (Hclock t1 Hts Hle).
    + rewrite Hb. split; [exact Hd|].
      intros t1 Hts Hle. apply (Hclock t1 Hts Hle).
  - intros d r Hb Hd Hclock. apply handle_after_timeout.
    + exact Hrange.
    + intros t1 Hts _. apply Hpos; [lia|exact Hts].
    + rewrite Hb. split; [lia|].
      intros t1 Hts Hle. apply (Hclock t1 Hts). lia.
  - intros d r Hb Ht Hd Hclock. apply handle_after_timeout.
    + exact Hrange.
    + intros t1 Hts _. apply Hpos; [lia|exact Hts].
    + rewrite Hb. split; [lia|].
      intros t1 Hts Hle. apply (Hclock t1 Hts). lia.
  - intros Hb Hwrap. apply handle_after_timeout.
    + exact Hrange.
    + exact Hwrap.
    + rewrite Hb. exact I.
Qed.

Lemma Consumer_handle_timeout_witness :
  let s := Consumer.NewConsumer 1 (fun _ _ => Hangs) Metric.zero in
  let env := mkEnv (Some 20) (fun _ => 0%nat) 1 in
  let quick : TaskFunc := fun _ => Finishes 30 (Returned None) in
  snd (fst (Consumer.handle s env (mkJob (Some quick) 100 None))) = Returned None /\
  snd (fst (Consumer.handle s env (mkJob (Some quick) 25 None)))
    = Returned (Some DeadlineExceeded).
Proof.
  intros s env quick. split.
  - refine (proj1 (proj2 (Consumer_handle_timeout s env (mkJob (Some quick) 100 None) _))
                  30 (Returned None) eq_refl _ _).
    + unfold job.int64_range. simpl. lia.
    + simpl. lia.
    + intros t1 Hts _. injection Hts as <-. vm_compute. reflexivity.
  - refine (proj1 (proj2 (proj2
              (Consumer_handle_timeout s env (mkJob (Some quick) 25 None) _)))
                  30 (Returned None) eq_refl _ _).
    + unfold job.int64_range. simpl. lia.
    + simpl. lia.
    + intros t1 Hts _. injection Hts as <-. split; vm_compute; [reflexivity|discriminate].
Defined.

(** C1 as stated fails: a job with timeout 0 whose task returns success
    after a microsecond; [handle] returns [context.DeadlineExceeded]. *)
Lemma Consumer_handle_zero_timeout_counterexample :
  let s := Consumer.NewConsumer 1 (fun _ _ => Finishes 0 (Returned None)) Metric.zero in
  let env := mkEnv None (fun _ => 0%nat) 1 in
  let task : TaskFunc := fun _ => Finishes 1000 (Returned None) in
  let job := mkJob (Some task) 0 None in
  Timeout job = 0 /\
  snd (Consumer.user_call s env job) = Finishes 1000 (Returned None) /\
  snd (fst (Consumer.handle s env job)) = Returned (Some DeadlineExceeded).
Proof.
  intros s env task job. repeat split.
Qed.

(* ----------------------------------------------------------------- *)
(** ** The in-memory worker: what [Run] executes *)

Lemma store_Job_member_Task acc kv :
  Task (fst (json.store_Job_member acc kv)) = Task (fst acc).
Proof.
  destruct acc as [j err], kv as [k v]. unfold json.store_Job_member.
  destruct (json.equalFold k json.name_timeout).
  - destruct (json.store_int64 v (Timeout j)). reflexivity.
  - destruct (json.equalFold k json.name_body); [|reflexivity].
    destruct (json.store_bytes v (Body j)). reflexivity.
Qed.

(** [Unmarshal] never touches the field [Task] (its tag is [-]). *)
Lemma Unmarshal_Job_Task data v :
  Task (fst (json.Unmarshal_Job data v)) = Task v.
Proof.
  unfold json.Unmarshal_Job.
  destruct (json.parse _) as [[| | | | |members]|]; try reflexivity.
  change (Task v) with (Task (fst (v, @None json.UnmarshalError))).
  generalize (v, @None json.UnmarshalError).
  induction members as [|kv members IH]; intros acc; simpl; [reflexivity|].
  rewrite IH. apply store_Job_member_Task.
Qed.

(** [Run] on a message without callable: [handle] on the decoded view,
    which calls the payload handler. *)
Lemma Consumer_Run_no_callable (s : Consumer.t) (env : Env) (task : QueuedMessage) :
  Consumer.stop s = false ->
  (forall j, task = QJob j -> Task j = None) ->
  let data := fst (json.Unmarshal_Job (Bytes task) zeroJob) in
  Consumer.Run s env task =
    (let '(s', r, c) := Consumer.handle s env data in (s', r, [c])) /\
  snd (Consumer.handle s env data) =
    CallRunFunc (Consumer.context_of s env data) (QJob data).
Proof.
  intros Hstop Hnotask data.
  assert (HT : Task data = None).
  { unfold data. rewrite Unmarshal_Job_Task. reflexivity. }
  split.
  - unfold Consumer.Run. rewrite Hstop. fold data.
    destruct task as [j|b]; [|reflexivity].
    rewrite (Hnotask j eq_refl). reflexivity.
  - rewrite Consumer_handle_call. unfold Consumer.user_call.
    rewrite HT. reflexivity.
Qed.

(** C10, as the code has it.  On a running consumer and for a message
    without callable, [Run] is [handle] on the job view that [Unmarshal]
    left, whether [Unmarshal] failed or not: its error is dropped, and the
    payload handler is called with that view.  The view is the zero [Job]
    when the bytes are not the text of a JSON object (ill-formed JSON
    included); when they are, it holds the members that did decode. *)
Theorem Consumer_Run_drops_decode_error
  (s : Consumer.t) (env : Env) (task : QueuedMessage) :
  Consumer.stop s = false ->
  (forall j, task = QJob j -> Task j = None) ->
  let bytes := match Bytes task with Some l => l | None => [] end in
  let data := fst (json.Unmarshal_Job (Bytes task) zeroJob) in
  snd (fst (Consumer.Run s env task)) = snd (fst (Consumer.handle s env data)) /\
  snd (Consumer.Run s env task) =
    [CallRunFunc (Consumer.context_of s env data) (QJob data)] /\
  ((forall members, json.parse bytes <> Some (json.JObject members)) ->
   data = zeroJob) /\
  (forall members,
     json.parse bytes = Some (json.JObject members) ->
     json.Unmarshal_Job (Bytes task) zeroJob =
       fold_left json.store_Job_member members (zeroJob, None)).
Proof.
  intros Hstop Hnotask bytes data.
  destruct (Consumer_Run_no_callable s env task Hstop Hnotask) as [Hrun Hcall].
  fold data in Hrun, Hcall.
  split; [|split; [|split]].
  - rewrite Hrun. destruct (Consumer.handle s env data) as [[s' r] c].
    reflexivity.
  - rewrite Hrun.
    destruct (Consumer.handle s env data) as [[s' r] c]. simpl in *.
    rewrite Hcall. reflexivity.
  - intros Hno. unfold data, json.Unmarshal_Job. fold bytes.
    destruct (json.parse bytes) as [[| | | | |members]|]; try reflexivity.
    exfalso. apply (Hno members). reflexivity.
  - intros members Hp. unfold json.Unmarshal_Job. fold bytes.
    rewrite Hp. reflexivity.
Qed.

Lemma Consumer_Run_drops_decode_error_witness :
  let s := Consumer.NewConsumer 1 (fun _ _ => Finishes 0 (Returned None)) Metric.zero in
  let env := mkEnv None (fun _ => 0%nat) 1 in
  let task := mockMessage "foo" in
  snd (json.Unmarshal_Job (Bytes task) zeroJob) = Some json.SyntaxError /\
  snd (Consumer.Run s env task) =
    [CallRunFunc (mkContext 0 None) (QJob zeroJob)].
Proof.
  intros s env task. split; [reflexivity|].
  exact (proj1 (proj2 (Consumer_Run_drops_decode_error s env task eq_refl
                         ltac:(intros j Hj; discriminate Hj)))).
Defined.

(** C10 as stated fails: the bytes are no encoding of a [Job] ([body] is a
    boolean) and [Unmarshal] returns an error, yet the payload handler is
    called with a job view whose timeout is 5, not 0. *)
Lemma Consumer_Run_partial_decode_counterexample :
  let s := Consumer.NewConsumer 1 (fun _ _ => Finishes 0 (Returned None)) Metric.zero in
  let env := mkEnv None (fun _ => 0%nat) 1 in
  let text :=
    [x7b; x22; x74; x69; x6d; x65; x6f; x75; x74; x22; x3a; x35; x2c;
     x22; x62; x6f; x64; x79; x22; x3a; x74; x72; x75; x65; x7d] in
  let task := QOther (Some text) in
  json.parse text =
    Some (json.JObject [(json.name_timeout, json.JNumber [x35]);
                        (json.name_body, json.JBool true)]) /\
  snd (json.Unmarshal_Job (Bytes task) zeroJob) = Some json.UnmarshalTypeError /\
  snd (Consumer.Run s env task) =
    [CallRunFunc (mkContext 5 None) (QJob (mkJob None 5 None))].
Proof.
  intros s env text task. repeat split.
Qed.

(* ----------------------------------------------------------------- *)
(** ** Decimal numerals *)

Lemma uint_of_bytes_of_uint (d : Decimal.uint) :
  strconv.uint_of_bytes (strconv.bytes_of_uint d) = Some d.
Proof.
  induction d; simpl; try reflexivity; rewrite IHd; reflexivity.
Qed.

Lemma bytes_of_uint_nil (d : Decimal.uint) :
  strconv.bytes_of_uint d = [] -> d = Nil.
Proof. destruct d; simpl; intros Hd; try discriminate; reflexivity. Qed.

Lemma Z_of_to_uint (p : positive) : Z.of_uint (Pos.to_uint p) = Z.pos p.
Proof.
  unfold Z.of_uint. rewrite DecimalPos.Unsigned.of_to. reflexivity.
Qed.

Lemma ParseInt_minus (s : list byte) :
  strconv.ParseInt (x2d :: s) =
  match s with
  | [] => None
  | _ =>
      match strconv.uint_of_bytes s with
      | Some d =>
          if (- 2 ^ 63 <=? - Z.of_uint d) && (- Z.of_uint d <? 2 ^ 63)
          then Some (- Z.of_uint d) else None
      | None => None
      end
  end.
Proof. reflexivity. Qed.

(** The text of an [int64] reads back as the same number. *)
Lemma ParseInt_FormatInt (z : Z) :
  - 2 ^ 63 <= z < 2 ^ 63 ->
  strconv.ParseInt (strconv.FormatInt z) = Some z.
Proof.
  intros Hz. unfold strconv.FormatInt.
  destruct z as [|p|p]; simpl Z.to_int; cbv iota.
  - reflexivity.
  - pose proof (DecimalPos.Unsigned.to_uint_nonnil p) as Hnn.
    unfold strconv.ParseInt.
    destruct (strconv.bytes_of_uint (Pos.to_uint p)) as [|c r] eqn:Hb.
    { apply bytes_of_uint_nil in Hb. contradiction. }
    assert (Hc : Byte.eqb c x2d = false).
    { destruct (Pos.to_uint p); try contradiction; simpl in Hb;
        injection Hb as <- _; reflexivity. }
    rewrite Hc, <- Hb, uint_of_bytes_of_uint, Z_of_to_uint.
    destruct (Z.leb_spec (- 2 ^ 63) (Z.pos p)); [|lia].
    destruct (Z.ltb_spec (Z.pos p) (2 ^ 63)); [reflexivity|lia].
  - pose proof (DecimalPos.Unsigned.to_uint_nonnil p) as Hnn.
    rewrite ParseInt_minus.
    destruct (strconv.bytes_of_uint (Pos.to_uint p)) as [|c r] eqn:Hb.
    { apply bytes_of_uint_nil in Hb. contradiction. }
    rewrite <- Hb, uint_of_bytes_of_uint, Z_of_to_uint.
    change (- Z.pos p) with (Z.neg p).
    destruct (Z.leb_spec (- 2 ^ 63) (Z.neg p)); [|lia].
    destruct (Z.ltb_spec (Z.neg p) (2 ^ 63)); [reflexivity|lia].
Qed.

(* ----------------------------------------------------------------- *)
(** ** Base64 *)

Ltac N_divmod := zify; Z.to_euclidean_division_equations; lia.

Lemma byte_of_to_N (b : byte) : byte_of_N (Byte.to_N b) = b.
Proof. unfold byte_of_N. rewrite Byte.of_to_N. reflexivity. Qed.

Lemma byte_of_N_eq (n : N) (b : byte) : n = Byte.to_N b -> byte_of_N n = b.
Proof. intros ->. apply byte_of_to_N. Qed.

(** Each character of the alphabet decodes to its index, and stands for
    itself in a JSON string. *)
Lemma enc_facts (n : N) :
  (n < 64)%N ->
  base64.dec (base64.enc n) = Some n /\
  json.isPlain (base64.enc n) = true /\
  base64.isNewline (base64.enc n) = false.
Proof.
  intros Hn.
  assert (Hall :
    forallb (fun k =>
               match base64.dec (base64.enc k) with
               | Some m => N.eqb m k
               | None => false
               end
               && json.isPlain (base64.enc k)
               && negb (base64.isNewline (base64.enc k)))
            (map N.of_nat (seq 0 64)) = true) by (vm_compute; reflexivity).
  rewrite forallb_forall in Hall.
  assert (Hin : In n (map N.of_nat (seq 0 64))).
  { apply in_map_iff. exists (N.to_nat n). split; [lia|].
    apply in_seq. lia. }
  specialize (Hall n Hin).
  apply andb_true_iff in Hall. destruct Hall as [Hall Hnl].
  apply andb_true_iff in Hall. destruct Hall as [Hdec Hplain].
  split; [|split].
  - destruct (base64.dec (base64.enc n)) as [m|]; [|discriminate].
    apply N.eqb_eq in Hdec. subst m. reflexivity.
  - exact Hplain.
  - apply negb_true_iff. exact Hnl.
Qed.

Ltac enc_bound :=
  match goal with
  | |- (_ < 64)%N =>
      repeat match goal with
             | b : byte |- _ =>
                 lazymatch goal with
                 | _ : (Byte.to_N b <= 255)%N |- _ => fail
                 | _ => pose proof (Byte.to_N_bounded b)
                 end
             end;
      N_divmod
  end.

(** The characters of a base64 text. *)
Lemma EncodeToString_chars (l : list byte) :
  Forall (fun c => json.isPlain c = true /\ base64.isNewline c = false)
         (base64.EncodeToString l).
Proof.
  assert (Henc : forall n, (n < 64)%N ->
            json.isPlain (base64.enc n) = true /\
            base64.isNewline (base64.enc n) = false).
  { intros n Hn. apply enc_facts in Hn. tauto. }
  assert (Hpad : json.isPlain base64.pad = true /\
                 base64.isNewline base64.pad = false) by (split; reflexivity).
  assert (Hgen : forall n l', (List.length l' <= n)%nat ->
            Forall (fun c => json.isPlain c = true /\ base64.isNewline c = false)
                   (base64.EncodeToString l')).
  { induction n as [|n IH]; intros l' Hlen.
    - destruct l'; [constructor|simpl in Hlen; lia].
    - destruct l' as [|a [|b [|c r]]]; simpl.
      + constructor.
      + repeat (apply Forall_cons;
                [first [exact Hpad | apply Henc; enc_bound]|]).
        constructor.
      + repeat (apply Forall_cons;
                [first [exact Hpad | apply Henc; enc_bound]|]).
        constructor.
      + repeat (apply Forall_cons; [apply Henc; enc_bound|]).
        apply IH. simpl in Hlen. lia. }
  apply (Hgen (List.length l)). lia.
Qed.

Lemma filter_newline_id (s : list byte) :
  Forall (fun c => json.isPlain c = true /\ base64.isNewline c = false) s ->
  filter (fun c => negb (base64.isNewline c)) s = s.
Proof.
  induction 1 as [|c s [_ Hc] _ IH]; simpl; [reflexivity|].
  rewrite Hc. simpl. rewrite IH. reflexivity.
Qed.

Lemma decode_quanta_EncodeToString (l : list byte) :
  base64.decode_quanta (base64.EncodeToString l) = Some l.
Proof.
  assert (Hdec : forall n, (n < 64)%N -> base64.dec (base64.enc n) = Some n).
  { intros n Hn. apply enc_facts in Hn. tauto. }
  assert (Hgen : forall n l', (List.length l' <= n)%nat ->
            base64.decode_quanta (base64.EncodeToString l') = Some l').
  { induction n as [|n IH]; intros l' Hlen.
    - destruct l'; [reflexivity|simpl in Hlen; lia].
    - destruct l' as [|a [|b [|c r]]].
      + reflexivity.
      + pose proof (Byte.to_N_bounded a).
        cbn [base64.EncodeToString base64.decode_quanta].
        rewrite !Hdec by N_divmod.
        change (base64.dec base64.pad) with (@None N).
        change (Byte.eqb base64.pad base64.pad) with true. simpl.
        f_equal. f_equal. apply byte_of_N_eq. N_divmod.
      + pose proof (Byte.to_N_bounded a). pose proof (Byte.to_N_bounded b).
        cbn [base64.EncodeToString base64.decode_quanta].
        rewrite !Hdec by N_divmod.
        change (base64.dec base64.pad) with (@None N).
        change (Byte.eqb base64.pad base64.pad) with true. simpl.
        f_equal. f_equal; [|f_equal]; apply byte_of_N_eq; N_divmod.
      + pose proof (Byte.to_N_bounded a). pose proof (Byte.to_N_bounded b).
        pose proof (Byte.to_N_bounded c).
        cbn [base64.EncodeToString base64.decode_quanta].
        rewrite !Hdec by N_divmod.
        rewrite IH by (simpl in Hlen; lia). simpl.
        f_equal. f_equal; [|f_equal; [|f_equal]]; apply byte_of_N_eq; N_divmod. }
  apply (Hgen (List.length l)). lia.
Qed.

(** Base64 text decodes to the bytes it was made from. *)
Lemma DecodeString_EncodeToString (l : list byte) :
  base64.DecodeString (base64.EncodeToString l) = Some l.
Proof.
  unfold base64.DecodeString.
  rewrite filter_newline_id by apply EncodeToString_chars.
  apply decode_quanta_EncodeToString.
Qed.

(* ----------------------------------------------------------------- *)
(** ** Scanning the text that [Marshal] writes *)

Lemma scan_string_plain (str rest : list byte) : forall fuel,
  Forall (fun c => json.isPlain c = true) str ->
  (List.length str < fuel)%nat ->
  json.scan_string fuel (str ++ json.quote :: rest) = Some (str, rest).
Proof.
  induction str as [|c str IH]; intros fuel Hplain Hfuel.
  - destruct fuel; [simpl in Hfuel; lia|]. reflexivity.
  - destruct fuel; [simpl in Hfuel; lia|].
    inversion Hplain as [|c' str' Hc Hstr]; subst.
    unfold json.isPlain in Hc.
    apply andb_true_iff in Hc. destruct Hc as [Hc H32].
    apply andb_true_iff in Hc. destruct Hc as [Hq Hb].
    apply negb_true_iff in Hq, Hb, H32.
    simpl. rewrite Hq, Hb, H32.
    rewrite IH by (try assumption; simpl in Hfuel; lia).
    reflexivity.
Qed.

Lemma span_digits_uint (d : Decimal.uint) (c : byte) (rest : list byte) :
  strconv.isDigit c = false ->
  json.span_digits (strconv.bytes_of_uint d ++ c :: rest)
  = (strconv.bytes_of_uint d, c :: rest).
Proof.
  intros Hc. induction d; simpl; try (rewrite IHd; reflexivity).
  rewrite Hc. reflexivity.
Qed.

(** The numeral of a positive number does not start with [0]. *)
Lemma to_uint_head (p : positive) :
  match Pos.to_uint p with
  | Nil | D0 _ => False
  | _ => True
  end.
Proof.
  pose proof (DecimalPos.Unsigned.to_of (Pos.to_uint p)) as Hnorm.
  rewrite DecimalPos.Unsigned.of_to in Hnorm. simpl in Hnorm.
  pose proof (DecimalPos.Unsigned.to_uint_nonzero p) as Hnz.
  pose proof (DecimalPos.Unsigned.to_uint_nonnil p) as Hnn.
  destruct (Pos.to_uint p) as [|d| | | | | | | | |] eqn:Hd; try exact I.
  - apply Hnn. reflexivity.
  - unfold unorm in Hnorm.
    destruct (nzhead (D0 d)) eqn:Hh;
      try (symmetry in Hnorm; exact (nzhead_nonzero (D0 d) d (eq_trans Hh Hnorm))).
    apply Hnz. exact Hnorm.
Qed.

Lemma scan_value_eq (f : nat) (s : list byte) :
  json.scan_value (S f) s =
  match json.skip_ws s with
  | [] => None
  | c :: r =>
      if Byte.eqb c json.quote then
        match json.scan_string (S (List.length r)) r with
        | Some (str, r') => Some (json.JString str, r')
        | None => None
        end
      else if Byte.eqb c x5b then
        match json.skip_ws r with
        | c' :: r' =>
            if Byte.eqb c' x5d then Some (json.JArray [], r')
            else match json.scan_elements f r [] with
                 | Some (l, r'') => Some (json.JArray l, r'')
                 | None => None
                 end
        | [] => None
        end
      else if Byte.eqb c x7b then
        match json.skip_ws r with
        | c' :: r' =>
            if Byte.eqb c' x7d then Some (json.JObject [], r')
            else match json.scan_members f r [] with
                 | Some (l, r'') => Some (json.JObject l, r'')
                 | None => None
                 end
        | [] => None
        end
      else if Byte.eqb c x6e then
        option_map (fun r' => (json.JNull, r'))
                   (json.starts_with json.lit_null (c :: r))
      else if Byte.eqb c x74 then
        option_map (fun r' => (json.JBool true, r'))
                   (json.starts_with json.lit_true (c :: r))
      else if Byte.eqb c x66 then
        option_map (fun r' => (json.JBool false, r'))
                   (json.starts_with json.lit_false (c :: r))
      else
        match json.scan_number (c :: r) with
        | Some (lit, r') => Some (json.JNumber lit, r')
        | None => None
        end
  end.
Proof. reflexivity. Qed.

Lemma scan_members_eq (f : nat) (s : list byte) (acc : list (list byte * json.value)) :
  json.scan_members (S f) s acc =
  match json.skip_ws s with
  | c :: r =>
      if Byte.eqb c json.quote then
        match json.scan_string (S (List.length r)) r with
        | Some (k, r1) =>
            match json.skip_ws r1 with
            | c1 :: r2 =>
                if Byte.eqb c1 x3a then
                  match json.scan_value f r2 with
                  | Some (v, r3) =>
                      match json.skip_ws r3 with
                      | c3 :: r4 =>
                          if Byte.eqb c3 x2c
                          then json.scan_members f r4 ((k, v) :: acc)
                          else if Byte.eqb c3 x7d
                          then Some (List.rev ((k, v) :: acc), r4)
                          else None
                      | [] => None
                      end
                  | None => None
                  end
                else None
            | [] => None
            end
        | None => None
        end
      else None
  | [] => None
  end.
Proof. reflexivity. Qed.

(** A numeral followed by a comma or a closing brace. *)
Lemma scan_number_uint (d : Decimal.uint) (c : byte) (rest : list byte) :
  match d with Nil | D0 _ => False | _ => True end ->
  c = x2c \/ c = x7d ->
  json.scan_number (strconv.bytes_of_uint d ++ c :: rest)
  = Some (strconv.bytes_of_uint d, c :: rest) /\
  json.scan_number (x2d :: strconv.bytes_of_uint d ++ c :: rest)
  = Some (x2d :: strconv.bytes_of_uint d, c :: rest).
Proof.
  intros Hd Hc.
  assert (Hdig : strconv.isDigit c = false) by (destruct Hc; subst; reflexivity).
  destruct d; try contradiction;
    cbn [strconv.bytes_of_uint Datatypes.app];
    unfold json.scan_number, json.scan_int; simpl;
    rewrite (span_digits_uint d c rest Hdig);
    destruct Hc; subst c; simpl; rewrite ?List.app_nil_r; split; reflexivity.
Qed.

Lemma scan_value_FormatInt (f : nat) (z : Z) (c : byte) (rest : list byte) :
  c = x2c \/ c = x7d ->
  json.scan_value (S f) (strconv.FormatInt z ++ c :: rest)
  = Some (json.JNumber (strconv.FormatInt z), c :: rest).
Proof.
  intros Hc. rewrite scan_value_eq. unfold strconv.FormatInt.
  destruct z as [|p|p]; simpl Z.to_int; cbv iota.
  - destruct Hc; subst c; reflexivity.
  - pose proof (to_uint_head p) as Hh.
    destruct (scan_number_uint (Pos.to_uint p) c rest Hh Hc) as [Hpos _].
    destruct (Pos.to_uint p); try contradiction;
      cbn [strconv.bytes_of_uint Datatypes.app] in *; simpl json.skip_ws; cbv iota;
      match goal with
      | |- context [Byte.eqb ?a json.quote] =>
          change (Byte.eqb a json.quote) with false;
          change (Byte.eqb a x5b) with false;
          change (Byte.eqb a x7b) with false;
          change (Byte.eqb a x6e) with false;
          change (Byte.eqb a x74) with false;
          change (Byte.eqb a x66) with false
      end; cbv iota; rewrite Hpos; reflexivity.
  - pose proof (to_uint_head p) as Hh.
    destruct (scan_number_uint (Pos.to_uint p) c rest Hh Hc) as [_ Hneg].
    cbn [Datatypes.app]. simpl json.skip_ws. cbv iota.
    change (Byte.eqb x2d json.quote) with false.
    change (Byte.eqb x2d x5b) with false.
    change (Byte.eqb x2d x7b) with false.
    change (Byte.eqb x2d x6e) with false.
    change (Byte.eqb x2d x74) with false.
    change (Byte.eqb x2d x66) with false.
    cbv iota. rewrite Hneg. reflexivity.
Qed.

Lemma scan_value_quoted (f : nat) (str rest : list byte) :
  Forall (fun c => json.isPlain c = true) str ->
  json.scan_value (S f) (json.quoted str ++ rest) = Some (json.JString str, rest).
Proof.
  intros Hplain. rewrite scan_value_eq. unfold json.quoted.
  cbn [Datatypes.app]. rewrite <- List.app_assoc. cbn [Datatypes.app].
  simpl json.skip_ws. cbv iota.
  change (Byte.eqb json.quote json.quote) with true. cbv iota.
  rewrite scan_string_plain; [reflexivity|exact Hplain|].
  rewrite length_app. simpl. lia.
Qed.

Lemma scan_value_null (f : nat) (rest : list byte) :
  json.scan_value (S f) (json.lit_null ++ rest) = Some (json.JNull, rest).
Proof. reflexivity. Qed.

(** One member [name:value] of an object, followed by a comma or by the
    closing brace. *)
Lemma scan_members_step (f : nat) (name vtext rest : list byte)
  (v : json.value) (c : byte) (acc : list (list byte * json.value)) :
  Forall (fun c => json.isPlain c = true) name ->
  json.scan_value f (vtext ++ c :: rest) = Some (v, c :: rest) ->
  c = x2c \/ c = x7d ->
  json.scan_members (S f) (json.quoted name ++ x3a :: vtext ++ c :: rest) acc =
  if Byte.eqb c x2c then json.scan_members f rest ((name, v) :: acc)
  else Some (List.rev ((name, v) :: acc), rest).
Proof.
  intros Hplain Hv Hc. rewrite scan_members_eq. unfold json.quoted.
  cbn [Datatypes.app]. rewrite <- List.app_assoc. cbn [Datatypes.app].
  simpl json.skip_ws. cbv iota.
  change (Byte.eqb json.quote json.quote) with true. cbv iota.
  rewrite scan_string_plain;
    [|exact Hplain|rewrite length_app; simpl; lia].
  simpl json.skip_ws. cbv iota.
  change (Byte.eqb x3a x3a) with true. cbv iota.
  rewrite Hv.
  destruct Hc; subst c; reflexivity.
Qed.

Lemma names_plain :
  Forall (fun c => json.isPlain c = true) json.name_timeout /\
  Forall (fun c => json.isPlain c = true) json.name_body /\
  Forall (fun c => json.isPlain c = true) json.name_retry_count /\
  Forall (fun c => json.isPlain c = true) json.name_retry_delay.
Proof. repeat split; repeat constructor. Qed.

Lemma scan_value_encode_bytes (f : nat) (b : byteslice) (rest : list byte) :
  json.scan_value (S f) (json.encode_bytes b ++ rest) = Some (json.bytes_value b, rest).
Proof.
  destruct b as [l|]; simpl json.encode_bytes.
  - apply scan_value_quoted.
    eapply Forall_impl; [|apply EncodeToString_chars].
    intros c [Hc _]. exact Hc.
  - apply scan_value_null.
Qed.

Lemma Marshal_shape (m : job.Message) :
  json.Marshal_Message m =
  x7b :: json.quoted json.name_timeout ++ x3a ::
    strconv.FormatInt (job.Timeout m) ++ x2c ::
    json.quoted json.name_body ++ x3a ::
    json.encode_bytes (job.Payload m) ++ x2c ::
    json.quoted json.name_retry_count ++ x3a ::
    strconv.FormatInt (job.RetryCount m) ++ x2c ::
    json.quoted json.name_retry_delay ++ x3a ::
    strconv.FormatInt (job.RetryDelay m) ++ x7d :: [].
Proof. reflexivity. Qed.

Lemma scan_value_open (f : nat) (name rest : list byte) :
  json.scan_value (S f) (x7b :: json.quoted name ++ rest) =
  match json.scan_members f (json.quoted name ++ rest) [] with
  | Some (l, r) => Some (json.JObject l, r)
  | None => None
  end.
Proof. reflexivity. Qed.

(** The text of a message scans as an object of four members. *)
Lemma scan_value_Marshal (f : nat) (m : job.Message) :
  json.scan_value (6 + f) (json.Marshal_Message m) =
  Some (json.JObject
          [(json.name_timeout, json.JNumber (strconv.FormatInt (job.Timeout m)));
           (json.name_body, json.bytes_value (job.Payload m));
           (json.name_retry_count, json.JNumber (strconv.FormatInt (job.RetryCount m)));
           (json.name_retry_delay, json.JNumber (strconv.FormatInt (job.RetryDelay m)))],
        []).
Proof.
  destruct names_plain as (Ht & Hb & Hc & Hd).
  rewrite Marshal_shape.
  change (6 + f)%nat with (S (S (S (S (S (S f)))))).
  rewrite scan_value_open.
  rewrite (scan_members_step _ _ _ _ _ _ _ Ht
             (scan_value_FormatInt _ _ _ _ (or_introl eq_refl)) (or_introl eq_refl)).
  change (Byte.eqb x2c x2c) with true. cbv iota.
  rewrite (scan_members_step (S (S (S f))) json.name_body
             (json.encode_bytes (job.Payload m)) _ (json.bytes_value (job.Payload m))
             x2c _ Hb (scan_value_encode_bytes _ _ _) (or_introl eq_refl)).
  change (Byte.eqb x2c x2c) with true. cbv iota.
  rewrite (scan_members_step _ _ _ _ _ _ _ Hc
             (scan_value_FormatInt _ _ _ _ (or_introl eq_refl)) (or_introl eq_refl)).
  change (Byte.eqb x2c x2c) with true. cbv iota.
  rewrite (scan_members_step _ _ _ _ _ _ _ Hd
             (scan_value_FormatInt _ _ _ _ (or_intror eq_refl)) (or_intror eq_refl)).
  reflexivity.
Qed.

Lemma Marshal_length (m : job.Message) :
  (5 <= List.length (json.Marshal_Message m))%nat.
Proof.
  rewrite Marshal_shape. unfold json.quoted. simpl. lia.
Qed.

Lemma parse_Marshal (m : job.Message) :
  json.parse (json.Marshal_Message m) =
  Some (json.JObject
          [(json.name_timeout, json.JNumber (strconv.FormatInt (job.Timeout m)));
           (json.name_body, json.bytes_value (job.Payload m));
           (json.name_retry_count, json.JNumber (strconv.FormatInt (job.RetryCount m)));
           (json.name_retry_delay, json.JNumber (strconv.FormatInt (job.RetryDelay m)))]).
Proof.
  unfold json.parse.
  pose proof (Marshal_length m) as Hlen.
  replace (S (List.length (json.Marshal_Message m)))
    with (6 + (List.length (json.Marshal_Message m) - 5))%nat by lia.
  rewrite scan_value_Marshal. reflexivity.
Qed.

Lemma store_bytes_of_value (b old : byteslice) :
  json.store_bytes (json.bytes_value b) old = (b, None).
Proof.
  destruct b as [l|]; simpl; [|reflexivity].
  rewrite DecodeString_EncodeToString. reflexivity.
Qed.

Lemma store_int64_FormatInt (z old : Z) :
  job.int64_range z ->
  json.store_int64 (json.JNumber (strconv.FormatInt z)) old = (z, None).
Proof.
  intros Hz. simpl. rewrite ParseInt_FormatInt by exact Hz. reflexivity.
Qed.

(* ----------------------------------------------------------------- *)
(** ** Messages: encoding and decoding *)

(** C8.  Decoding what [Encode] wrote gives back the timeout, the payload
    (the nil slice as the nil slice), the retry count and the retry delay
    of the message, without error; the callable is not part of the text,
    so a message without callable is given back as a whole. *)
Theorem Message_Encode_roundtrip (m : job.Message) :
  job.wf m ->
  let r := json.Unmarshal_Message (Message_Encode m) job.zeroMessage in
  snd r = None /\
  job.Timeout (fst r) = job.Timeout m /\
  job.Payload (fst r) = job.Payload m /\
  job.RetryCount (fst r) = job.RetryCount m /\
  job.RetryDelay (fst r) = job.RetryDelay m /\
  (job.Task m = None -> fst r = m).
Proof.
  intros (Ht & Hc & Hd) r.
  assert (Hr : r = (job.mkMessage None (job.Timeout m) (job.Payload m)
                                  (job.RetryCount m) (job.RetryDelay m), None)).
  { unfold r, json.Unmarshal_Message, Message_Encode.
    rewrite parse_Marshal. cbn [fold_left].
    unfold json.store_Message_member at 4.
    change (json.equalFold json.name_timeout json.name_timeout) with true.
    cbv iota. rewrite (store_int64_FormatInt _ _ Ht). cbv iota beta.
    unfold json.store_Message_member at 3.
    change (json.equalFold json.name_body json.name_timeout) with false.
    change (json.equalFold json.name_body json.name_body) with true.
    cbv iota. rewrite store_bytes_of_value. cbv iota beta.
    unfold json.store_Message_member at 2.
    change (json.equalFold json.name_retry_count json.name_timeout) with false.
    change (json.equalFold json.name_retry_count json.name_body) with false.
    change (json.equalFold json.name_retry_count json.name_retry_count) with true.
    cbv iota. rewrite (store_int64_FormatInt _ _ Hc). cbv iota beta.
    unfold json.store_Message_member.
    change (json.equalFold json.name_retry_delay json.name_timeout) with false.
    change (json.equalFold json.name_retry_delay json.name_body) with false.
    change (json.equalFold json.name_retry_delay json.name_retry_count) with false.
    change (json.equalFold json.name_retry_delay json.name_retry_delay) with true.
    cbv iota. rewrite (store_int64_FormatInt _ _ Hd). reflexivity. }
  rewrite Hr. simpl. repeat split.
  intros HT. destruct m as [task t p c d]. simpl in HT. subst task. reflexivity.
Qed.

Lemma Message_Encode_roundtrip_witness :
  let m := job.mkMessage None 3000000
             (Some (list_byte_of_string "foobar")) 100 (-5) in
  json.Unmarshal_Message (Message_Encode m) job.zeroMessage = (m, None).
Proof.
  intros m.
  assert (Hwf : job.wf m).
  { unfold job.wf, job.int64_range. simpl. lia. }
  destruct (Message_Encode_roundtrip m Hwf) as (Herr & _ & _ & _ & _ & Hm).
  specialize (Hm eq_refl).
  destruct (json.Unmarshal_Message (Message_Encode m) job.zeroMessage) as [m' e].
  simpl in Herr, Hm. subst m' e. reflexivity.
Defined.

(** What the pool enqueues is read by the consumer as a job with the
    timeout and the payload of the message. *)
Lemma Unmarshal_Job_Encode (m : job.Message) :
  job.wf m ->
  json.Unmarshal_Job (Message_Encode m) zeroJob =
  (mkJob None (job.Timeout m) (job.Payload m), None).
Proof.
  intros (Ht & Hc & Hd).
  unfold json.Unmarshal_Job, Message_Encode.
  rewrite parse_Marshal. cbn [fold_left].
  unfold json.store_Job_member at 4.
  change (json.equalFold json.name_timeout json.name_timeout) with true.
  cbv iota. rewrite (store_int64_FormatInt _ _ Ht). cbv iota beta.
  unfold json.store_Job_member at 3.
  change (json.equalFold json.name_body json.name_timeout) with false.
  change (json.equalFold json.name_body json.name_body) with true.
  cbv iota. rewrite store_bytes_of_value. cbv iota beta.
  unfold json.store_Job_member.
  change (json.equalFold json.name_retry_count json.name_timeout) with false.
  change (json.equalFold json.name_retry_count json.name_body) with false.
  change (json.equalFold json.name_retry_delay json.name_timeout) with false.
  change (json.equalFold json.name_retry_delay json.name_body) with false.
  reflexivity.
Qed.





(* ----------------------------------------------------------------- *)
(** ** The in-memory worker: order, slots and drain *)

Lemma Consumer_eta (s : Consumer.t) :
  Consumer.set_taskQueue s
    (Chan.mk (Chan.buf (Consumer.taskQueue s)) (Chan.cap (Consumer.taskQueue s))
             (Chan.closed (Consumer.taskQueue s))) = s.
Proof. destruct s as [[b c cl] f st o fl m]. reflexivity. Qed.

(** Messages that fit are all taken, in the order given. *)
Lemma Queue_all_room (msgs : list QueuedMessage) : forall s,
  Consumer.stopFlag s = 0 ->
  Chan.closed (Consumer.taskQueue s) = false ->
  (List.length (Chan.buf (Consumer.taskQueue s)) + List.length msgs
   <= Chan.cap (Consumer.taskQueue s))%nat ->
  Queue_all s msgs =
  (Consumer.set_taskQueue s
     (Chan.mk (Chan.buf (Consumer.taskQueue s) ++ msgs)
              (Chan.cap (Consumer.taskQueue s)) false),
   map (fun _ => Returned None) msgs).
Proof.
  induction msgs as [|m msgs IH]; intros s Hflag Hopen Hroom; simpl.
  - rewrite List.app_nil_r, <- Hopen, Consumer_eta. reflexivity.
  - unfold Consumer.Queue, Chan.try_send, Chan.len. rewrite Hflag, Hopen. simpl.
    destruct (Nat.ltb_spec (List.length (Chan.buf (Consumer.taskQueue s)))
                           (Chan.cap (Consumer.taskQueue s))) as [Hlt|Hge];
      [|simpl in Hroom; lia].
    rewrite IH; simpl; try assumption; try reflexivity.
    + rewrite <- List.app_assoc. reflexivity.
    + rewrite length_app. simpl in *. lia.
Qed.

(** Requests take the buffered messages from the oldest on. *)
Lemma Request_n_buffer (l : list QueuedMessage) : forall s,
  Chan.buf (Consumer.taskQueue s) = l ->
  Request_n (List.length l) s =
  (Consumer.set_taskQueue s
     (Chan.mk [] (Chan.cap (Consumer.taskQueue s))
              (Chan.closed (Consumer.taskQueue s))),
   map (fun m => (Some m, None)) l).
Proof.
  induction l as [|m l IH]; intros s Hbuf; simpl.
  - rewrite <- Hbuf, Consumer_eta. reflexivity.
  - unfold Consumer.Request, Chan.try_recv. rewrite Hbuf.
    rewrite IH by reflexivity. reflexivity.
Qed.

(** X1.  First in, first out: on a running consumer, messages that fit
    into the free room are all accepted, and as many requests as there are
    buffered messages then return the old content of the buffer followed
    by the new messages, in the order they were queued and each without
    error; the consumer is then empty and the next request reports that
    there is no message. *)
Theorem Consumer_fifo (s : Consumer.t) (msgs : list QueuedMessage) :
  Consumer.running s ->
  Consumer.Usage s + Z.of_nat (List.length msgs) <= Consumer.Capacity s ->
  let old := Chan.buf (Consumer.taskQueue s) in
  let queued := Queue_all s msgs in
  let taken := Request_n (List.length (old ++ msgs)) (fst queued) in
  snd queued = map (fun _ => Returned None) msgs /\
  snd taken = map (fun m => (Some m, None)) (old ++ msgs) /\
  Consumer.Usage (fst taken) = 0 /\
  Consumer.Request (fst taken) = (fst taken, (None, Some errNoMessage)).
Proof.
  intros (Hflag & _ & _ & Hopen) Hroom old queued taken.
  unfold Consumer.Usage, Consumer.Capacity, Chan.len in Hroom.
  assert (Hq : queued = Queue_all s msgs) by reflexivity.
  rewrite Queue_all_room in Hq by (try assumption; lia).
  assert (Ht : taken = Request_n (List.length (old ++ msgs)) (fst queued))
    by reflexivity.
  rewrite Hq in Ht. simpl fst in Ht.
  rewrite (Request_n_buffer (old ++ msgs)) in Ht by reflexivity.
  rewrite Hq, Ht. simpl. repeat split.
Qed.

Lemma Consumer_fifo_witness :
  let s := Consumer.NewConsumer 3 (fun _ _ => Hangs) Metric.zero in
  let msgs := [mockMessage "a"; mockMessage "b"; mockMessage "c"] in
  snd (Request_n 3 (fst (Queue_all s msgs))) =
    map (fun m => (Some m, None)) msgs.
Proof.
  intros s msgs.
  refine (proj1 (proj2 (Consumer_fifo s msgs _ _))).
  - repeat split.
  - subst s msgs. vm_compute. discriminate.
Defined.

(** X2.  A request frees exactly one slot: on a running consumer that is
    full and not empty, [Request] returns the oldest message, the next
    [Queue] is accepted and goes to the end of the buffer, and the one
    after it is refused with [errMaxCapacity]. *)
Theorem Consumer_Request_frees_slot
  (s : Consumer.t) (v m1 m2 : QueuedMessage) (rest : list QueuedMessage) :
  Consumer.running s ->
  Consumer.Usage s = Consumer.Capacity s ->
  Chan.buf (Consumer.taskQueue s) = v :: rest ->
  exists s1 s2,
    Consumer.Request s = (s1, (Some v, None)) /\
    Consumer.Queue s1 m1 = (s2, Returned None) /\
    Chan.buf (Consumer.taskQueue s2) = rest ++ [m1] /\
    Consumer.Usage s2 = Consumer.Capacity s2 /\
    Consumer.Queue s2 m2 = (s2, Returned (Some errMaxCapacity)).
Proof.
  intros (Hflag & _ & _ & Hopen) Hfull Hbuf.
  unfold Consumer.Usage, Consumer.Capacity, Chan.len in *.
  rewrite Hbuf in Hfull. simpl List.length in Hfull.
  unfold Consumer.Request, Chan.try_recv. rewrite Hbuf, Hopen.
  eexists. eexists. split; [reflexivity|].
  unfold Consumer.Queue, Chan.try_send, Chan.len. simpl. rewrite Hflag. simpl.
  destruct (Nat.ltb_spec (List.length rest) (Chan.cap (Consumer.taskQueue s)))
    as [Hlt|Hge]; [|lia].
  split; [reflexivity|]. simpl. split; [reflexivity|].
  rewrite length_app. simpl. split; [lia|].
  rewrite Hflag. simpl.
  match goal with
  | |- context [(?a <? ?b)%nat] =>
      destruct (Nat.ltb_spec a b) as [Hlt'|Hge']; [|reflexivity]
  end.
  lia.
Qed.

Lemma Consumer_Request_frees_slot_witness :
  let s := fst (Queue_all (Consumer.NewConsumer 2 (fun _ _ => Hangs) Metric.zero)
                          [mockMessage "a"; mockMessage "b"]) in
  exists s1 s2,
    Consumer.Request s = (s1, (Some (mockMessage "a"), None)) /\
    Consumer.Queue s1 (mockMessage "c") = (s2, Returned None) /\
    Chan.buf (Consumer.taskQueue s2) = [mockMessage "b"; mockMessage "c"] /\
    Consumer.Usage s2 = Consumer.Capacity s2 /\
    Consumer.Queue s2 (mockMessage "d") = (s2, Returned (Some errMaxCapacity)).
Proof.
  intros s.
  refine (Consumer_Request_frees_slot s (mockMessage "a") (mockMessage "c")
            (mockMessage "d") [mockMessage "b"] _ _ _).
  - repeat split.
  - reflexivity.
  - reflexivity.
Defined.

Lemma Consumer_apply_phase (s : Consumer.t) (o : Consumer.op) :
  Consumer.running s \/ Consumer.stopped s ->
  Consumer.running (Consumer.apply s o) \/ Consumer.stopped (Consumer.apply s o).
Proof.
  intros [Hrun | Hstop].
  - destruct Hrun as (Hflag & Honce & Hst & Hopen). destruct o; simpl.
    + left. unfold Consumer.Queue, Chan.try_send. rewrite Hflag, Hopen. simpl.
      destruct (Chan.len (Consumer.taskQueue s) <? Chan.cap (Consumer.taskQueue s))%nat;
        simpl; repeat split; assumption.
    + left. unfold Consumer.Request, Chan.try_recv.
      destruct (Chan.buf (Consumer.taskQueue s)); simpl;
        [rewrite Hopen|]; simpl; repeat split; assumption.
    + right. destruct (Consumer_Shutdown_running s) as (s1 & Hs1 & Hstopped & _);
        [repeat split; assumption|].
      rewrite Hs1. exact Hstopped.
    + left. unfold Consumer.Run. rewrite Hst.
      match goal with
      | |- context [Consumer.handle ?a ?b ?c] =>
          pose proof (Consumer_handle_state a b c) as Hh;
          destruct (Consumer.handle a b c) as [[s' r] c']
      end.
      simpl in *. subst s'. repeat split; assumption.
  - destruct Hstop as (Hflag & Honce & Hst & Hclosed). destruct o; simpl.
    + right. unfold Consumer.Queue. rewrite Hflag. simpl. repeat split; assumption.
    + right. unfold Consumer.Request, Chan.try_recv.
      destruct (Chan.buf (Consumer.taskQueue s)); simpl;
        [rewrite Hclosed|]; simpl; repeat split; assumption.
    + right. unfold Consumer.Shutdown, CompareAndSwapInt32. rewrite Hflag. simpl.
      repeat split; assumption.
    + right. unfold Consumer.Run. rewrite Hst. simpl. repeat split; assumption.
Qed.

Lemma Consumer_apply_cap (s : Consumer.t) (o : Consumer.op) :
  Chan.cap (Consumer.taskQueue (Consumer.apply s o)) = Chan.cap (Consumer.taskQueue s).
Proof.
  destruct o; simpl.
  - unfold Consumer.Queue, Chan.try_send.
    destruct (Consumer.stopFlag s =? 1); [reflexivity|].
    destruct (Chan.closed (Consumer.taskQueue s)); [reflexivity|].
    destruct (Chan.len (Consumer.taskQueue s) <? Chan.cap (Consumer.taskQueue s))%nat;
      reflexivity.
  - unfold Consumer.Request, Chan.try_recv.
    destruct (Chan.buf (Consumer.taskQueue s)); simpl; [|reflexivity].
    destruct (Chan.closed (Consumer.taskQueue s)); reflexivity.
  - unfold Consumer.Shutdown, CompareAndSwapInt32, close_signal, Chan.close.
    destruct (Consumer.stopFlag s =? 0); simpl; [|reflexivity].
    destruct (Consumer.stopOnce s); simpl; [reflexivity|].
    destruct (Consumer.stop s); simpl; [reflexivity|].
    destruct (Chan.closed (Consumer.taskQueue s)); reflexivity.
  - destruct (Consumer_Run_taskQueue s env task) as [-> _]. reflexivity.
Qed.

(** X3.  Whatever is called on a consumer made by [NewConsumer], in
    whatever order: its flags and channels agree (it is running or
    stopped, nothing in between), its capacity is the size it was made
    with, its usage stays within the capacity, and neither [Queue] nor
    [Shutdown] panics on it (no send on, and no second close of, a closed
    channel). *)
Theorem Consumer_always_consistent
  (queueSize : nat) (fn : Context -> QueuedMessage -> Behaviour)
  (metric : Metric.t) (ops : list Consumer.op) :
  let s := fold_left Consumer.apply ops (Consumer.NewConsumer queueSize fn metric) in
  (Consumer.running s \/ Consumer.stopped s) /\
  Consumer.Capacity s = Z.of_nat queueSize /\
  0 <= Consumer.Usage s <= Consumer.Capacity s /\
  (forall task, exists e, snd (Consumer.Queue s task) = Returned e) /\
  (exists e, snd (Consumer.Shutdown s) = Returned e).
Proof.
  intros s.
  assert (Hgen : forall ops s0,
            (Consumer.running s0 \/ Consumer.stopped s0) /\
            Chan.cap (Consumer.taskQueue s0) = queueSize /\
            Chan.wf (Consumer.taskQueue s0) ->
            let s' := fold_left Consumer.apply ops s0 in
            (Consumer.running s' \/ Consumer.stopped s') /\
            Chan.cap (Consumer.taskQueue s') = queueSize /\
            Chan.wf (Consumer.taskQueue s')).
  { clear. induction ops as [|o ops IH]; intros s0 H0; simpl; [exact H0|].
    apply IH. destruct H0 as (Hp & Hc & Hw).
    split; [apply Consumer_apply_phase; exact Hp|].
    split; [rewrite Consumer_apply_cap; exact Hc|].
    apply Consumer_apply_wf. exact Hw. }
  destruct (Hgen ops (Consumer.NewConsumer queueSize fn metric)) as (Hp & Hc & Hw).
  { split; [left; repeat split|]. split; [reflexivity|]. apply NewConsumer_wf. }
  fold s in Hp, Hc, Hw.
  split; [exact Hp|].
  unfold Consumer.Capacity, Consumer.Usage, Chan.wf in *.
  split; [rewrite Hc; reflexivity|]. split; [lia|]. split.
  - intros task. unfold Consumer.Queue, Chan.try_send.
    destruct Hp as [(Hflag & _ & _ & Hopen) | (Hflag & _)]; rewrite Hflag; simpl.
    + rewrite Hopen.
      destruct (Chan.len (Consumer.taskQueue s) <? Chan.cap (Consumer.taskQueue s))%nat;
        eexists; reflexivity.
    + eexists; reflexivity.
  - unfold Consumer.Shutdown, CompareAndSwapInt32, close_signal, Chan.close.
    destruct Hp as [(Hflag & Honce & Hst & Hopen) | (Hflag & _)]; rewrite Hflag; simpl.
    + rewrite Honce, Hst, Hopen. eexists; reflexivity.
    + eexists; reflexivity.
Qed.

Lemma Request_n_closed_empty (k : nat) (s : Consumer.t) :
  Chan.buf (Consumer.taskQueue s) = [] ->
  Chan.closed (Consumer.taskQueue s) = true ->
  Request_n k s = (s, repeat (None, None) k).
Proof.
  intros Hbuf Hclosed. induction k as [|k IH]; simpl; [reflexivity|].
  unfold Consumer.Request, Chan.try_recv. rewrite Hbuf, Hclosed, IH.
  reflexivity.
Qed.

(** X4.  Drain after shutdown: once a running consumer has been shut
    down, requests still return the messages it holds, oldest first and
    without error; when none is left every request returns no message and
    no error (the receive on the closed channel), and changes nothing. *)
Theorem Consumer_drain_after_Shutdown (s : Consumer.t) (k : nat) :
  Consumer.running s ->
  let held := Chan.buf (Consumer.taskQueue s) in
  let s1 := fst (Consumer.Shutdown s) in
  let taken := Request_n (List.length held) s1 in
  snd taken = map (fun m => (Some m, None)) held /\
  Consumer.Usage (fst taken) = 0 /\
  Request_n k (fst taken) = (fst taken, repeat (None, None) k).
Proof.
  intros Hrun held s1 taken.
  destruct (Consumer_Shutdown_running s Hrun) as (s1' & Hsd & Hstopped & Hbuf).
  assert (Hs1 : s1 = s1') by (unfold s1; rewrite Hsd; reflexivity).
  destruct Hstopped as (_ & _ & _ & Hclosed). rewrite <- Hs1 in Hclosed, Hbuf.
  assert (Ht : taken = Request_n (List.length held) s1) by reflexivity.
  rewrite (Request_n_buffer held s1 Hbuf) in Ht. rewrite Hclosed in Ht.
  rewrite Ht. simpl. split; [reflexivity|]. split; [reflexivity|].
  apply Request_n_closed_empty; reflexivity.
Qed.

Lemma Consumer_drain_after_Shutdown_witness :
  let s := fst (Queue_all (Consumer.NewConsumer 2 (fun _ _ => Hangs) Metric.zero)
                          [mockMessage "a"; mockMessage "b"]) in
  let taken := Request_n 2 (fst (Consumer.Shutdown s)) in
  snd taken = [(Some (mockMessage "a"), None); (Some (mockMessage "b"), None)] /\
  Consumer.Usage (fst taken) = 0 /\
  Request_n 1 (fst taken) = (fst taken, [(None, None)]).
Proof.
  intros s.
  exact (Consumer_drain_after_Shutdown s 1
           (conj eq_refl (conj eq_refl (conj eq_refl eq_refl)))).
Defined.

(* ----------------------------------------------------------------- *)
(** ** The in-memory worker: what one execution leaves and returns *)

Lemma Consumer_busy_eta (s : Consumer.t) :
  U64.in_range (Consumer.BusyWorkers s) ->
  Consumer.decBusyWorker (Consumer.incBusyWorker s) = s.
Proof.
  destruct s as [tq f st o fl [b sc fa su]].
  unfold Consumer.BusyWorkers, Metric.BusyWorkers,
    Consumer.decBusyWorker, Consumer.incBusyWorker, Consumer.set_metric,
    Metric.DecBusyWorker, Metric.IncBusyWorker. simpl.
  intros Hb. rewrite U64_dec_inc by exact Hb. reflexivity.
Qed.

(** X5.  No slot is leaked: whether the user code returns, fails, panics,
    hangs or runs into the timeout or the shutdown, [handle] and [Run]
    leave the consumer exactly as they found it, the busy gauge they
    incremented being decremented again. *)
Theorem Consumer_execution_leaves_state
  (s : Consumer.t) (env : Env) (job : Job) (task : QueuedMessage) :
  U64.in_range (Consumer.BusyWorkers s) ->
  fst (fst (Consumer.handle s env job)) = s /\
  fst (fst (Consumer.Run s env task)) = s.
Proof.
  intros Hb. split.
  - rewrite Consumer_handle_state. apply Consumer_busy_eta. exact Hb.
  - unfold Consumer.Run. destruct (Consumer.stop s); [reflexivity|].
    match goal with
    | |- context [Consumer.handle ?a ?b ?c] =>
        pose proof (Consumer_handle_state a b c) as Hh;
        destruct (Consumer.handle a b c) as [[s' r] c']
    end.
    simpl in *. subst s'. apply Consumer_busy_eta. exact Hb.
Qed.

Lemma Consumer_execution_leaves_state_witness :
  let panics : TaskFunc := fun _ => Finishes 5 (Panicked (PanicValue "boom")) in
  let s := Consumer.NewConsumer 1 (fun _ _ => Hangs) Metric.zero in
  let env := mkEnv None (fun _ => 0%nat) 1 in
  snd (fst (Consumer.handle s env (mkJob (Some panics) 100 None)))
    = Panicked (PanicValue "boom") /\
  fst (fst (Consumer.handle s env (mkJob (Some panics) 100 None))) = s.
Proof.
  intros panics s env. split; [reflexivity|].
  refine (proj1 (Consumer_execution_leaves_state s env
                   (mkJob (Some panics) 100 None) (mockMessage "a") _)).
  subst s. vm_compute. split; [discriminate|reflexivity].
Defined.

(** X6.  [handle] returns nothing of its own but the deadline error: what
    it returns is [context.DeadlineExceeded] or the very outcome of the
    user code (the value it returned, or its panic raised again); in
    particular it panics only with a panic of the user code, and never
    returns [context.Canceled] or [ErrQueueShutdown] unless the user code
    did. *)
Theorem Consumer_handle_outcomes (s : Consumer.t) (env : Env) (job : Job) :
  let result := snd (fst (Consumer.handle s env job)) in
  result = Returned (Some DeadlineExceeded) \/
  exists d, snd (Consumer.user_call s env job) = Finishes d result.
Proof.
  intros result. unfold result, Consumer.handle.
  destruct (Consumer.user_call s env job) as [c b]. simpl.
  destruct (Consumer.stop_at s env) as [ts|];
    destruct b as [d [e|p]|]; simpl; unfold select, better; simpl;
    repeat match goal with
           | |- context [?a <? ?b] => destruct (a <? b); simpl
           | |- context [?a =? ?b] => destruct (a =? b); simpl
           | |- context [(?a <? ?b)%nat] => destruct (a <? b)%nat; simpl
           end;
    solve [left; reflexivity | right; eexists; reflexivity].
Qed.

(* ----------------------------------------------------------------- *)
(** ** The pool: the ready token and the counters *)

Section PoolMore.

Context {W M : Type} `{core.Worker W M}.

(** X7.  The ready signal coalesces.  With [ready] as [NewQueue] makes it
    (open, of capacity 1), [schedule] does not panic and touches nothing
    but [ready]; it leaves the pool as it is when no slot is free
    ([BusyWorkers() >= workerCount]) and otherwise leaves exactly one token
    in [ready], whether or not one was there; a second [schedule] changes
    nothing.  [UpdateWorkerCount] stores the new count and schedules with
    it. *)
Theorem Queue_schedule_coalesces (q : Queue.t W) (num : Z) :
  Chan.closed (Queue.ready q) = false ->
  Chan.cap (Queue.ready q) = 1%nat ->
  (Chan.len (Queue.ready q) <= 1)%nat ->
  let q' := fst (Queue.schedule q) in
  snd (Queue.schedule q) = Returned tt /\
  q' = Queue.set_ready q (Queue.ready q') /\
  (Queue.workerCount q <= Queue.BusyWorkers q -> q' = q) /\
  (Queue.BusyWorkers q < Queue.workerCount q -> Chan.len (Queue.ready q') = 1%nat) /\
  (Chan.len (Queue.ready q) <= Chan.len (Queue.ready q') <= 1)%nat /\
  Queue.schedule q' = (q', Returned tt) /\
  Queue.workerCount (fst (Queue.UpdateWorkerCount q num)) = num /\
  (Queue.BusyWorkers q < num ->
   Chan.len (Queue.ready (fst (Queue.UpdateWorkerCount q num))) = 1%nat).
Proof.
  intros Hopen Hcap Hlen q'.
  destruct q as [m wc qt [buf cap cl] w once flag].
  simpl in Hopen, Hcap, Hlen. subst cl cap. unfold Chan.len in Hlen. simpl in Hlen.
  unfold q', Queue.UpdateWorkerCount, Queue.schedule, Queue.BusyWorkers,
    Chan.try_send, Chan.len. simpl.
  destruct (Z.geb_spec (U64.to_int (Metric.BusyWorkers m)) wc) as [Hge|Hlt];
    destruct (Z.geb_spec (U64.to_int (Metric.BusyWorkers m)) num) as [Hge'|Hlt'];
    simpl;
    destruct buf as [|[] [|u buf]]; simpl in *; try lia;
    unfold Queue.BusyWorkers, Chan.len; simpl;
    repeat match goal with
           | |- context [?a >=? ?b] => destruct (Z.geb_spec a b); try lia; simpl
           end;
    repeat split; try reflexivity; try lia.
Qed.

Lemma Queue_submit_metric (q : Queue.t W) (o : Queue.op M) :
  match o with Queue.OpWork _ => False | _ => True end ->
  let m := Queue.metric q in
  let m' := Queue.metric (Queue.apply q o) in
  Metric.BusyWorkers m' = Metric.BusyWorkers m /\
  Metric.SuccessTasks m' = Metric.SuccessTasks m /\
  Metric.FailureTasks m' = Metric.FailureTasks m.
Proof.
  intros Ho. destruct o; try contradiction; simpl.
  - unfold Queue.Queue. destruct (Queue.stopFlag q =? 1); [repeat split|].
    destruct (core.Queue _ _) as [w' [[e|]|p]]; repeat split.
  - unfold Queue.QueueTask. destruct (Queue.stopFlag q =? 1); [repeat split|].
    destruct (core.Queue _ _) as [w' [[e|]|p]]; repeat split.
  - unfold Queue.Shutdown, CompareAndSwapInt32.
    destruct (Queue.stopFlag q =? 0); simpl; [|repeat split].
    destruct (Queue.stopOnce q); simpl; [repeat split|].
    destruct (core.Shutdown (Queue.worker q)) as [w' [e|p]]; [|repeat split].
    destruct (close_signal (Queue.quit q)); repeat split.
  - unfold Queue.UpdateWorkerCount.
    destruct (Queue_schedule_fields (Queue.set_workerCount q num)) as (-> & _).
    repeat split.
Qed.

Lemma Queue_work_metric (q : Queue.t W) (task : M) :
  Chan.closed (Queue.ready q) = false ->
  let m := Queue.metric q in
  let m' := Queue.metric (fst (Queue.work q task)) in
  Metric.BusyWorkers m' = U64.dec (Metric.BusyWorkers m) /\
  ((Metric.SuccessTasks m' = U64.inc (Metric.SuccessTasks m) /\
    Metric.FailureTasks m' = Metric.FailureTasks m) \/
   (Metric.SuccessTasks m' = Metric.SuccessTasks m /\
    Metric.FailureTasks m' = U64.inc (Metric.FailureTasks m))).
Proof.
  intros Hready. unfold Queue.work.
  destruct (core.Run (Queue.worker q) task) as [w' r].
  match goal with
  | |- context [Queue.schedule ?x] =>
      pose proof (Queue_schedule_fields x) as (Hm & _);
      pose proof (Queue_schedule_returns x Hready) as Hret;
      destruct (Queue.schedule x) as [q3 o3]
  end.
  simpl in Hm, Hret. subst o3.
  destruct r as [[e|]|p]; simpl; rewrite Hm; simpl;
    (split; [reflexivity|]); first [left; split; reflexivity | right; split; reflexivity].
Qed.

Lemma U64_wrap_inc_l (a b : Z) : U64.wrap (U64.inc a + b) = U64.wrap (a + b + 1).
Proof.
  unfold U64.inc, U64.wrap. rewrite Zplus_mod_idemp_l. f_equal. ring.
Qed.

(** X8.  The counters account for the executions.  Each call in a
    sequence of calls on a pool (a submission, a shutdown, a change of the
    worker count, an execution) touches the busy gauge and the success and
    failure counters in one way only: a call of [work] takes one from the busy gauge and adds one to
    either success or failure, the other staying as it is, and no other
    call touches these three counters.  So over any sequence of calls,
    success and failure have each grown by a number of executions, these
    two numbers adding up to the number of calls of [work], and the busy
    gauge has gone down by that number; all arithmetic is that of
    [uint64]. *)
Theorem Queue_counters_account (ops : list (Queue.op M)) (q : Queue.t W) :
  Chan.closed (Queue.ready q) = false ->
  Metric.wf (Queue.metric q) ->
  let m := Queue.metric q in
  let m' := Queue.metric (fold_left Queue.apply ops q) in
  (forall before o,
     let m0 := Queue.metric (fold_left Queue.apply before q) in
     let m1 := Queue.metric (Queue.apply (fold_left Queue.apply before q) o) in
     match o with
     | Queue.OpWork _ =>
         Metric.BusyWorkers m1 = U64.dec (Metric.BusyWorkers m0) /\
         ((Metric.SuccessTasks m1 = U64.inc (Metric.SuccessTasks m0) /\
           Metric.FailureTasks m1 = Metric.FailureTasks m0) \/
          (Metric.SuccessTasks m1 = Metric.SuccessTasks m0 /\
           Metric.FailureTasks m1 = U64.inc (Metric.FailureTasks m0)))
     | _ =>
         Metric.BusyWorkers m1 = Metric.BusyWorkers m0 /\
         Metric.SuccessTasks m1 = Metric.SuccessTasks m0 /\
         Metric.FailureTasks m1 = Metric.FailureTasks m0
     end) /\
  (exists succeeded failed,
     0 <= succeeded /\ 0 <= failed /\ succeeded + failed = works ops /\
     Metric.SuccessTasks m' = U64.wrap (Metric.SuccessTasks m + succeeded) /\
     Metric.FailureTasks m' = U64.wrap (Metric.FailureTasks m + failed)) /\
  Metric.BusyWorkers m' = U64.wrap (Metric.BusyWorkers m - works ops).
Proof.
  intros Hready Hwf m m'. split.
  { intros before o m0 m1. unfold m1, m0.
    destruct (Queue_invariants_stay before q (conj Hready Hwf)) as [Hready0 _].
    destruct o as [mm oo|tk oo| |num|task];
      try (match goal with
           | |- context [Queue.apply ?q0 ?o] =>
               exact (Queue_submit_metric q0 o I)
           end).
    exact (Queue_work_metric _ task Hready0). }
  unfold m, m'. clear m m'.
  revert q Hready Hwf. induction ops as [|o ops IH]; intros q Hready Hwf.
  - destruct Hwf as (Hb & Hs & Hf & _). unfold works. simpl. split.
    + exists 0, 0. rewrite !Z.add_0_r.
      repeat split; try lia; symmetry; apply Z.mod_small; assumption.
    + rewrite Z.sub_0_r. symmetry. apply Z.mod_small. exact Hb.
  - destruct (Queue_apply_invariants q o (conj Hready Hwf)) as [Hready1 Hwf1].
    destruct (IH (Queue.apply q o) Hready1 Hwf1)
      as [(ns & nf & Hns & Hnf & Hsum & IHs & IHf) IHb].
    simpl fold_left. rewrite IHs, IHf, IHb. clear IHs IHf IHb.
    destruct o as [mm oo|tk oo| |num|task];
      try (match goal with
           | |- context [Queue.apply q ?o] =>
               destruct (Queue_submit_metric q o I) as (-> & -> & ->)
           end;
           split; [exists ns, nf|];
           unfold works in *; simpl; repeat split; solve [assumption|reflexivity]).
    simpl Queue.apply.
    destruct (Queue_work_metric q task Hready) as (Hb' & Hsf).
    assert (Hw : works (Queue.OpWork task :: ops) = works ops + 1).
    { unfold works. simpl. lia. }
    rewrite Hw, Hb'. split.
    + destruct Hsf as [[-> ->] | [-> ->]].
      * exists (ns + 1), nf. repeat split; try lia.
        rewrite U64_wrap_inc_l. f_equal. ring.
      * exists ns, (nf + 1). repeat split; try lia.
        rewrite U64_wrap_inc_l. f_equal. ring.
    + unfold U64.dec, U64.wrap, U64.modulus.
      rewrite Zminus_mod_idemp_l.
      replace (Metric.BusyWorkers (Queue.metric q) + (2 ^ 64 - 1) - works ops)
        with (Metric.BusyWorkers (Queue.metric q) - (works ops + 1) + 1 * 2 ^ 64)
        by ring.
      apply Z_mod_plus_full.
Qed.

End PoolMore.

Lemma Queue_schedule_coalesces_witness :
  let q := Queue.mk Metric.zero 2 false (Chan.make unit 1) EmptyWorker false 0 in
  let q' := fst (Queue.schedule q) in
  Chan.len (Queue.ready q') = 1%nat /\ Queue.schedule q' = (q', Returned tt).
Proof.
  intros q.
  destruct (Queue_schedule_coalesces q 2 eq_refl eq_refl (le_S _ _ (le_n 0)))
    as (_ & _ & _ & Hone & _ & Hidem & _).
  split; [apply Hone; reflexivity|exact Hidem].
Defined.

Lemma Queue_counters_account_witness :
  let env := mkEnv None (fun _ => 0%nat) 1 in
  let c := Consumer.NewConsumer 1 (fun _ _ => Finishes 0 (Returned None)) Metric.zero in
  let q := Queue.mk (Metric.mk 2 0 0 0) 2 false (Chan.make unit 1) c false 0 in
  let ops := [Queue.OpWork (mockMessage "a"); Queue.OpShutdown;
              Queue.OpWork (mockMessage "b")] in
  let m' := Queue.metric (fold_left (Queue.apply (H := Consumer_Worker env)) ops q) in
  (exists succeeded failed,
     0 <= succeeded /\ 0 <= failed /\ succeeded + failed = 2 /\
     Metric.SuccessTasks m' = U64.wrap (0 + succeeded) /\
     Metric.FailureTasks m' = U64.wrap (0 + failed)) /\
  Metric.BusyWorkers m' = 0.
Proof.
  intros env c q ops.
  refine (proj2 (@Queue_counters_account _ _ (Consumer_Worker env) ops q eq_refl _)).
  subst q. vm_compute. repeat split; discriminate.
Defined.

(* ----------------------------------------------------------------- *)
(** ** The pool over the in-memory worker *)

Lemma enqueued_Consumer (env : Env) (m : QueuedMessage) (o : job.Options) :
  Queue.enqueued (H := Consumer_Worker env) m o =
  QOther (Message_Encode (NewMessage (Bytes m) o)).
Proof. reflexivity. Qed.

Lemma Pool_Queue_room (env : Env) (q : Queue.t Consumer.t)
  (m : QueuedMessage) (o : job.Options) :
  Queue.stopFlag q = 0 ->
  Consumer.running (Queue.worker q) ->
  Consumer.Usage (Queue.worker q) < Consumer.Capacity (Queue.worker q) ->
  Queue.Queue (H := Consumer_Worker env) q m o =
  (Queue.set_metric
     (Queue.set_worker q
        (Consumer.set_taskQueue (Queue.worker q)
           (Chan.mk (Chan.buf (Consumer.taskQueue (Queue.worker q))
                       ++ [Queue.enqueued (H := Consumer_Worker env) m o])
                    (Chan.cap (Consumer.taskQueue (Queue.worker q))) false)))
     (Metric.IncSubmittedTask (Queue.metric q)),
   Returned None).
Proof.
  intros Hflag (Hwflag & _ & _ & Hopen) Hroom.
  unfold Consumer.Usage, Consumer.Capacity, Chan.len in Hroom.
  unfold Queue.Queue. rewrite Hflag. simpl.
  unfold Consumer.Queue, Chan.try_send, Chan.len. rewrite Hwflag, Hopen. simpl.
  destruct (Nat.ltb_spec
              (List.length (Chan.buf (Consumer.taskQueue (Queue.worker q))))
              (Chan.cap (Consumer.taskQueue (Queue.worker q)))) as [Hlt|Hge];
    [reflexivity|lia].
Qed.

Lemma Pool_Queue_full (env : Env) (q : Queue.t Consumer.t)
  (m : QueuedMessage) (o : job.Options) :
  Queue.stopFlag q = 0 ->
  Consumer.running (Queue.worker q) ->
  Consumer.Usage (Queue.worker q) = Consumer.Capacity (Queue.worker q) ->
  Queue.Queue (H := Consumer_Worker env) q m o = (q, Returned (Some errMaxCapacity)).
Proof.
  intros Hflag (Hwflag & _ & _ & Hopen) Hfull.
  unfold Consumer.Usage, Consumer.Capacity, Chan.len in Hfull.
  unfold Queue.Queue. rewrite Hflag. simpl.
  unfold Consumer.Queue, Chan.try_send, Chan.len. rewrite Hwflag, Hopen. simpl.
  destruct (Nat.ltb_spec
              (List.length (Chan.buf (Consumer.taskQueue (Queue.worker q))))
              (Chan.cap (Consumer.taskQueue (Queue.worker q)))) as [Hlt|Hge];
    [lia|]. destruct q; reflexivity.
Qed.

(** X9.  Submissions up to the capacity: on a pool that is not stopped,
    over a running in-memory worker, payloads that fit into the free room
    of the worker are all accepted, the worker then holds that many more
    messages and the submitted counter has advanced by their number; and
    once the worker is full every further submission returns
    [errMaxCapacity] and leaves the pool, counter included, as it was. *)
Theorem Pool_submit_until_full (env : Env) (q : Queue.t Consumer.t)
  (ms : list QueuedMessage) (extra : QueuedMessage) (o : job.Options) :
  Queue.stopFlag q = 0 ->
  Consumer.running (Queue.worker q) ->
  Consumer.Usage (Queue.worker q) + Z.of_nat (List.length ms)
    <= Consumer.Capacity (Queue.worker q) ->
  let r := Submit_all (H := Consumer_Worker env) q ms o in
  snd r = map (fun _ => Returned None) ms /\
  Consumer.Usage (Queue.worker (fst r)) =
    Consumer.Usage (Queue.worker q) + Z.of_nat (List.length ms) /\
  Metric.SubmittedTasks (Queue.metric (fst r)) =
    Nat.iter (List.length ms) U64.inc (Metric.SubmittedTasks (Queue.metric q)) /\
  (Consumer.Usage (Queue.worker (fst r)) = Consumer.Capacity (Queue.worker q) ->
   Queue.Queue (H := Consumer_Worker env) (fst r) extra o
     = (fst r, Returned (Some errMaxCapacity))).
Proof.
  revert q. induction ms as [|m ms IH]; intros q Hflag Hrun Hroom r.
  - unfold r. simpl. split; [reflexivity|]. split; [lia|]. split; [reflexivity|].
    intros Hfull. apply Pool_Queue_full; assumption.
  - assert (Hlt : Consumer.Usage (Queue.worker q) < Consumer.Capacity (Queue.worker q)).
    { simpl List.length in Hroom. lia. }
    pose proof (Pool_Queue_room env q m o Hflag Hrun Hlt) as Hq.
    unfold r. simpl Submit_all. rewrite Hq.
    match goal with
    | |- context [Submit_all ?q1 ms o] =>
        specialize (IH q1);
        destruct (Submit_all q1 ms o) as [q2 es] eqn:Hs
    end.
    simpl in IH.
    destruct IH as (Hes & Husage & Hsub & Hfull).
    + exact Hflag.
    + destruct Hrun as (Hf & Ho & Hst & _). repeat split; assumption.
    + unfold Consumer.Usage, Consumer.Capacity, Chan.len in *. simpl.
      rewrite length_app. simpl List.length in *. lia.
    + simpl. split; [rewrite Hes; reflexivity|]. split; [|split].
      * rewrite Husage. unfold Consumer.Usage, Chan.len. simpl.
        rewrite length_app. simpl List.length. lia.
      * rewrite Hsub. unfold Metric.SubmittedTasks. simpl.
        rewrite <- Nat.iter_succ_r. reflexivity.
      * exact Hfull.
Qed.

Lemma Pool_submit_until_full_witness :
  let env := mkEnv None (fun _ => 0%nat) 1 in
  let c := Consumer.NewConsumer 2 (fun _ _ => Hangs) Metric.zero in
  let q := Queue.mk Metric.zero 5 false (Chan.make unit 1) c false 0 in
  let o := job.mkOptions 0 0 0 in
  let r := Submit_all (H := Consumer_Worker env) q
             [mockMessage "foobar"; mockMessage "foobar"] o in
  snd r = [Returned None; Returned None] /\
  Metric.SubmittedTasks (Queue.metric (fst r)) = 2 /\
  Queue.Queue (H := Consumer_Worker env) (fst r) (mockMessage "foobar") o
    = (fst r, Returned (Some errMaxCapacity)).
Proof.
  intros env c q o.
  destruct (Pool_submit_until_full env q
              [mockMessage "foobar"; mockMessage "foobar"] (mockMessage "foobar") o
              eq_refl (conj eq_refl (conj eq_refl (conj eq_refl eq_refl)))
              ltac:(subst q c; vm_compute; discriminate))
    as (Hes & Husage & Hsub & Hfull).
  split; [exact Hes|]. split; [exact Hsub|].
  apply Hfull. rewrite Husage. reflexivity.
Defined.

(** X10.  From submission to execution: a payload submitted with
    [Queue.Queue] to a pool over an empty, running in-memory worker is
    accepted; the next [Request] of the worker returns the message that
    was stored for it; and [Run] on that message calls the payload handler
    with a job whose body is the payload submitted and whose timeout is
    the timeout of the options, under a scope made with that timeout. *)
Theorem Pool_submit_then_run (env : Env) (q : Queue.t Consumer.t)
  (m : QueuedMessage) (o : job.Options) :
  Queue.stopFlag q = 0 ->
  Consumer.running (Queue.worker q) ->
  Chan.buf (Consumer.taskQueue (Queue.worker q)) = [] ->
  0 < Consumer.Capacity (Queue.worker q) ->
  job.int64_range (job.timeout o) /\ job.int64_range (job.retryCount o) /\
  job.int64_range (job.retryDelay o) ->
  exists q1 c1 t,
    Queue.Queue (H := Consumer_Worker env) q m o = (q1, Returned None) /\
    Consumer.Request (Queue.worker q1) = (c1, (Some t, None)) /\
    snd (Consumer.Run c1 env t) =
      [CallRunFunc
         (mkContext (job.timeout o) (option_map (Z.max 0) (shutdownAt env)))
         (QJob (mkJob None (job.timeout o) (Bytes m)))] /\
    snd (fst (Consumer.Run c1 env t)) =
      snd (fst (Consumer.handle c1 env (mkJob None (job.timeout o) (Bytes m)))).
Proof.
  intros Hflag Hrun Hbuf Hcap (Ht & Hc & Hd).
  assert (Hroom : Consumer.Usage (Queue.worker q) < Consumer.Capacity (Queue.worker q)).
  { unfold Consumer.Usage, Chan.len. rewrite Hbuf. simpl. exact Hcap. }
  pose proof (Pool_Queue_room env q m o Hflag Hrun Hroom) as Hq.
  rewrite Hbuf in Hq. simpl app in Hq.
  destruct Hrun as (Hwflag & Honce & Hstop & Hopen).
  eexists. eexists. eexists. split; [exact Hq|].
  split; [reflexivity|].
  rewrite enqueued_Consumer.
  match goal with
  | |- context [Consumer.Run ?c env ?t] =>
      destruct (Consumer_Run_no_callable c env t Hstop
                  ltac:(intros j Hj; discriminate Hj)) as [HRun Hcall]
  end.
  simpl Bytes in HRun, Hcall.
  rewrite Unmarshal_Job_Encode in HRun, Hcall
    by (unfold job.wf, NewMessage; simpl; tauto).
  simpl fst in HRun, Hcall. simpl job.Timeout in *. simpl job.Payload in *.
  rewrite HRun.
  match goal with
  | |- context [Consumer.handle ?c env ?j] =>
      destruct (Consumer.handle c env j) as [[s' r] cl]
  end.
  simpl in *. rewrite Hcall.
  unfold Consumer.context_of, Consumer.stop_at. simpl. rewrite Hstop.
  split; reflexivity.
Qed.

Lemma Pool_submit_then_run_witness :
  let env := mkEnv None (fun _ => 0%nat) 1 in
  let c := Consumer.NewConsumer 1 (fun _ _ => Finishes 10 (Returned None)) Metric.zero in
  let q := Queue.mk Metric.zero 2 false (Chan.make unit 1) c false 0 in
  let o := job.mkOptions 3 2000 1000000 in
  exists q1 c1 t,
    Queue.Queue (H := Consumer_Worker env) q (mockMessage "foo") o
      = (q1, Returned None) /\
    Consumer.Request (Queue.worker q1) = (c1, (Some t, None)) /\
    Consumer.Run c1 env t =
      (c1, Returned None,
       [CallRunFunc (mkContext 1000000 None)
          (QJob (mkJob None 1000000 (Bytes (mockMessage "foo"))))]).
Proof.
  intros env c q o.
  destruct (Pool_submit_then_run env q (mockMessage "foo") o eq_refl
              (conj eq_refl (conj eq_refl (conj eq_refl eq_refl))) eq_refl eq_refl
              ltac:(subst o; unfold job.int64_range; simpl; lia))
    as (q1 & c1 & t & Hq & Hr & Hcall & _).
  exists q1, c1, t. split; [exact Hq|]. split; [exact Hr|].
  vm_compute in Hq. injection Hq as <-.
  vm_compute in Hr. injection Hr as <- <-.
  reflexivity.
Defined.

(** X11.  Shutdown of a pool over the in-memory worker: the first
    [Shutdown] returns, sets the stop flag, closes [quit] and shuts the
    worker down, which keeps the messages it holds.  A message executed
    afterwards is not run: the worker's [Run] returns [ErrQueueShutdown]
    without calling user code, and [work] counts it as a failure. *)
Theorem Pool_Shutdown_stops_worker (env : Env) (q : Queue.t Consumer.t)
  (task : QueuedMessage) :
  Queue.stopFlag q = 0 -> Queue.stopOnce q = false -> Queue.quit q = false ->
  Chan.closed (Queue.ready q) = false ->
  Consumer.running (Queue.worker q) ->
  let q1 := fst (Queue.Shutdown (H := Consumer_Worker env) q) in
  let q2 := fst (Queue.work (H := Consumer_Worker env) q1 task) in
  snd (Queue.Shutdown (H := Consumer_Worker env) q) = Returned tt /\
  Queue.stopFlag q1 = 1 /\ Queue.quit q1 = true /\
  Consumer.stopped (Queue.worker q1) /\
  Chan.buf (Consumer.taskQueue (Queue.worker q1)) =
    Chan.buf (Consumer.taskQueue (Queue.worker q)) /\
  Consumer.Run (Queue.worker q1) env task =
    (Queue.worker q1, Returned (Some ErrQueueShutdown), []) /\
  snd (Queue.work (H := Consumer_Worker env) q1 task) = Returned tt /\
  Queue.worker q2 = Queue.worker q1 /\
  Metric.FailureTasks (Queue.metric q2) = U64.inc (Metric.FailureTasks (Queue.metric q)) /\
  Metric.SuccessTasks (Queue.metric q2) = Metric.SuccessTasks (Queue.metric q).
Proof.
  intros Hflag Honce Hquit Hready Hrun q1 q2.
  destruct (Consumer_Shutdown_running (Queue.worker q) Hrun)
    as (c1 & Hsd & Hstopped & Hbuf).
  assert (Hq1 : Queue.Shutdown (H := Consumer_Worker env) q =
                (Queue.set_quit
                   (Queue.set_worker
                      (Queue.set_stopOnce (Queue.set_stopFlag q 1) true) c1) true,
                 Returned tt)).
  { unfold Queue.Shutdown, CompareAndSwapInt32. rewrite Hflag. simpl.
    rewrite Honce. simpl. rewrite Hsd. unfold close_signal. rewrite Hquit.
    reflexivity. }
  assert (HRun : forall c, Consumer.stopped c ->
            Consumer.Run c env task = (c, Returned (Some ErrQueueShutdown), [])).
  { intros c (_ & _ & Hst & _). unfold Consumer.Run. rewrite Hst. reflexivity. }
  unfold q2, q1. rewrite Hq1. simpl fst. simpl snd.
  split; [reflexivity|]. split; [reflexivity|]. split; [reflexivity|].
  split; [exact Hstopped|]. split; [exact Hbuf|].
  split; [apply HRun; exact Hstopped|].
  match goal with
  | |- context [Queue.work ?x task] =>
      assert (Hwork : exists q3,
                Queue.work (H := Consumer_Worker env) x task =
                  (Queue.set_metric q3 (Metric.IncFailureTask (Queue.metric q3)),
                   Returned tt) /\
                Queue.metric q3 = Metric.DecBusyWorker (Queue.metric q) /\
                Queue.worker q3 = c1)
  end.
  { unfold Queue.work. simpl core.Run. simpl Queue.worker.
    rewrite (HRun c1 Hstopped). simpl fst. cbv beta iota.
    match goal with
    | |- context [Queue.schedule ?x] =>
        pose proof (Queue_schedule_fields x) as (Hm & _ & Hw & _);
        pose proof (Queue_schedule_returns x Hready) as Hret;
        destruct (Queue.schedule x) as [q3 o3]
    end.
    simpl in Hm, Hw, Hret. subst o3. exists q3. repeat split; assumption. }
  destruct Hwork as (q3 & -> & Hm & Hw). simpl. rewrite Hm, Hw. repeat split.
Qed.

Lemma Pool_Shutdown_stops_worker_witness :
  let env := mkEnv None (fun _ => 0%nat) 1 in
  let c := fst (Consumer.Queue
                  (Consumer.NewConsumer 2 (fun _ _ => Finishes 0 (Returned None))
                                        Metric.zero)
                  (mockMessage "left")) in
  let q := Queue.mk (Metric.IncBusyWorker Metric.zero) 2 false
                    (Chan.make unit 1) c false 0 in
  let q1 := fst (Queue.Shutdown (H := Consumer_Worker env) q) in
  Consumer.Request (Queue.worker q1) =
    (Consumer.set_taskQueue (Queue.worker q1) (Chan.mk [] 2 true),
     (Some (mockMessage "left"), None)) /\
  Metric.FailureTasks
    (Queue.metric (fst (Queue.work (H := Consumer_Worker env) q1 (mockMessage "left"))))
    = 1.
Proof.
  intros env c q q1. split; [reflexivity|].
  destruct (Pool_Shutdown_stops_worker env q (mockMessage "left")
              eq_refl eq_refl eq_refl eq_refl
              (conj eq_refl (conj eq_refl (conj eq_refl eq_refl))))
    as (_ & _ & _ & _ & _ & _ & _ & _ & Hfail & _).
  fold q1 in Hfail. rewrite Hfail. reflexivity.
Defined.

(** X12.  A callable submitted with [QueueTask] to a pool over an empty,
    running in-memory worker is accepted and counted, and stored as a
    message without bytes (a [job.Message] with a callable has no
    [Bytes()], and is no [Job]).  [Run] on the message that [Request] then
    returns does not call the callable: it calls the payload handler with
    the zero job, under a scope of timeout zero. *)
Theorem Pool_QueueTask_callable_not_called (env : Env) (q : Queue.t Consumer.t)
  (f : TaskFunc) (o : job.Options) :
  Queue.stopFlag q = 0 ->
  Consumer.running (Queue.worker q) ->
  Chan.buf (Consumer.taskQueue (Queue.worker q)) = [] ->
  0 < Consumer.Capacity (Queue.worker q) ->
  exists q1 c1 t,
    Queue.QueueTask (H := Consumer_Worker env) q (Some f) o = (q1, Returned None) /\
    Metric.SubmittedTasks (Queue.metric q1) =
      U64.inc (Metric.SubmittedTasks (Queue.metric q)) /\
    Consumer.Request (Queue.worker q1) = (c1, (Some t, None)) /\
    Bytes t = None /\
    snd (Consumer.Run c1 env t) =
      [CallRunFunc (mkContext 0 (option_map (Z.max 0) (shutdownAt env)))
                   (QJob zeroJob)].
Proof.
  intros Hflag (Hwflag & Honce & Hstop & Hopen) Hbuf Hcap.
  unfold Consumer.Capacity in Hcap.
  assert (Hq : Queue.QueueTask (H := Consumer_Worker env) q (Some f) o =
               (Queue.set_metric
                  (Queue.set_worker q
                     (Consumer.set_taskQueue (Queue.worker q)
                        (Chan.mk [QOther None]
                                 (Chan.cap (Consumer.taskQueue (Queue.worker q))) false)))
                  (Metric.IncSubmittedTask (Queue.metric q)),
                Returned None)).
  { unfold Queue.QueueTask. rewrite Hflag. simpl.
    unfold Consumer.Queue, Chan.try_send, Chan.len. rewrite Hwflag, Hopen, Hbuf.
    simpl.
    destruct (Nat.ltb_spec 0 (Chan.cap (Consumer.taskQueue (Queue.worker q))))
      as [Hlt|Hge]; [reflexivity|lia]. }
  eexists. eexists. eexists. split; [exact Hq|].
  split; [reflexivity|]. split; [reflexivity|]. split; [reflexivity|].
  match goal with
  | |- context [Consumer.Run ?c env ?t] =>
      destruct (Consumer_Run_no_callable c env t Hstop
                  ltac:(intros j Hj; discriminate Hj)) as [HRun Hcall]
  end.
  simpl Bytes in HRun, Hcall.
  change (fst (json.Unmarshal_Job None zeroJob)) with zeroJob in HRun, Hcall.
  rewrite HRun.
  match goal with
  | |- context [Consumer.handle ?c env ?j] =>
      destruct (Consumer.handle c env j) as [[s' r] cl]
  end.
  simpl in *. rewrite Hcall.
  unfold Consumer.context_of, Consumer.stop_at. simpl. rewrite Hstop.
  reflexivity.
Qed.

Lemma Pool_QueueTask_callable_not_called_witness :
  let env := mkEnv None (fun _ => 0%nat) 1 in
  let c := Consumer.NewConsumer 1 (fun _ _ => Finishes 10 (Returned None)) Metric.zero in
  let q := Queue.mk Metric.zero 2 false (Chan.make unit 1) c false 0 in
  let o := job.mkOptions 0 0 1000000 in
  let f : TaskFunc := fun _ => Finishes 0 (Returned (Some errMaxCapacity)) in
  exists q1 c1 t,
    Queue.QueueTask (H := Consumer_Worker env) q (Some f) o = (q1, Returned None) /\
    Consumer.Request (Queue.worker q1) = (c1, (Some t, None)) /\
    snd (Consumer.Run c1 env t) =
      [CallRunFunc (mkContext 0 None) (QJob zeroJob)].
Proof.
  intros env c q o f.
  destruct (Pool_QueueTask_callable_not_called env q f o eq_refl
              (conj eq_refl (conj eq_refl (conj eq_refl eq_refl))) eq_refl eq_refl)
    as (q1 & c1 & t & Hq & _ & Hr & _ & Hcall).
  exists q1, c1, t. split; [exact Hq|]. split; [exact Hr|]. exact Hcall.
Defined.

(* ----------------------------------------------------------------- *)
(** ** The request loop and the turns of the dispatcher *)

Lemma Fetch_loop_Consumer_head (env : Env) (fuel : nat) (noTask : error -> bool)
  (quit : bool) (c : Consumer.t) (m : QueuedMessage) (rest : list QueuedMessage) :
  Chan.buf (Consumer.taskQueue c) = m :: rest ->
  Fetch.loop (H := Consumer_Worker env) (S fuel) noTask quit c =
    (Consumer.set_taskQueue c
       (Chan.mk rest (Chan.cap (Consumer.taskQueue c))
                (Chan.closed (Consumer.taskQueue c))),
     Some (Fetch.Delivered m)).
Proof.
  intros Hbuf. simpl. unfold Consumer.Request, Chan.try_recv. rewrite Hbuf.
  reflexivity.
Qed.

Lemma Fetch_loop_Consumer_closed (env : Env) (fuel : nat) (noTask : error -> bool)
  (c : Consumer.t) :
  Chan.buf (Consumer.taskQueue c) = [] ->
  Chan.closed (Consumer.taskQueue c) = true ->
  Fetch.loop (H := Consumer_Worker env) (S fuel) noTask true c =
    (c, Some Fetch.TasksClosed).
Proof.
  intros Hbuf Hclosed. simpl. unfold Consumer.Request, Chan.try_recv.
  rewrite Hbuf, Hclosed. reflexivity.
Qed.

(** X13.  The request loop over the in-memory worker that holds a message
    ends at its first request and delivers the oldest message, taken out of
    the buffer, whether or not [quit] is closed and whether or not the
    worker has been shut down. *)
Theorem Fetch_Consumer_delivers_oldest (env : Env) (fuel : nat)
  (noTask : error -> bool) (quit : bool) (c : Consumer.t)
  (m : QueuedMessage) (rest : list QueuedMessage) :
  Chan.buf (Consumer.taskQueue c) = m :: rest ->
  let r := Fetch.loop (H := Consumer_Worker env) (S fuel) noTask quit c in
  snd r = Some (Fetch.Delivered m) /\
  Chan.buf (Consumer.taskQueue (fst r)) = rest /\
  Consumer.Usage (fst r) = Consumer.Usage c - 1 /\
  Consumer.Capacity (fst r) = Consumer.Capacity c /\
  Consumer.stopFlag (fst r) = Consumer.stopFlag c /\
  Consumer.stop (fst r) = Consumer.stop c.
Proof.
  intros Hbuf r. unfold r. rewrite (Fetch_loop_Consumer_head env fuel noTask quit c m rest Hbuf).
  simpl. repeat split.
  unfold Consumer.Usage, Chan.len. simpl. rewrite Hbuf. simpl List.length. lia.
Qed.

Lemma Fetch_Consumer_delivers_oldest_witness :
  let env := mkEnv None (fun _ => 0%nat) 1 in
  let c := fst (Consumer.Shutdown
             (fst (Consumer.Queue
                (fst (Consumer.Queue
                        (Consumer.NewConsumer 2 (fun _ _ => Hangs) Metric.zero)
                        (mockMessage "a")))
                (mockMessage "b")))) in
  let r := Fetch.loop (H := Consumer_Worker env) 1 (fun _ => false) true c in
  snd r = Some (Fetch.Delivered (mockMessage "a")) /\
  Chan.buf (Consumer.taskQueue (fst r)) = [mockMessage "b"].
Proof.
  intros env c.
  destruct (Fetch_Consumer_delivers_oldest env 0 (fun _ => false) true c
              (mockMessage "a") [mockMessage "b"] eq_refl)
    as (Hr & Hb & _).
  split; [exact Hr|exact Hb].
Defined.

(** X14.  The request loop over the in-memory worker that holds no
    message.  While [quit] is open it keeps polling, whether or not the
    worker has been shut down.  With [quit] closed it closes [tasks] at its
    first request when the worker has been shut down (the receive on the
    closed channel gives no message and no error), and also when the worker
    is running, unless the error for the empty buffer counts as
    [ErrNoTaskInQueue], in which case it polls on and never closes
    [tasks]. *)
Theorem Fetch_Consumer_empty (env : Env) (noTask : error -> bool) (c : Consumer.t) :
  Chan.buf (Consumer.taskQueue c) = [] ->
  (forall fuel, Fetch.loop (H := Consumer_Worker env) fuel noTask false c = (c, None)) /\
  (Chan.closed (Consumer.taskQueue c) = true ->
   forall fuel,
     Fetch.loop (H := Consumer_Worker env) (S fuel) noTask true c =
       (c, Some Fetch.TasksClosed)) /\
  (Chan.closed (Consumer.taskQueue c) = false -> noTask errNoMessage = false ->
   forall fuel,
     Fetch.loop (H := Consumer_Worker env) (S fuel) noTask true c =
       (c, Some Fetch.TasksClosed)) /\
  (Chan.closed (Consumer.taskQueue c) = false -> noTask errNoMessage = true ->
   forall fuel,
     Fetch.loop (H := Consumer_Worker env) fuel noTask true c = (c, None)).
Proof.
  intros Hbuf. split; [|split; [|split]].
  - induction fuel as [|fuel IH]; [reflexivity|].
    simpl. unfold Consumer.Request, Chan.try_recv. rewrite Hbuf.
    destruct (Chan.closed (Consumer.taskQueue c)); simpl; exact IH.
  - intros Hclosed fuel. apply Fetch_loop_Consumer_closed; assumption.
  - intros Hopen HnoTask fuel. simpl. unfold Consumer.Request, Chan.try_recv.
    rewrite Hbuf, Hopen. simpl. rewrite HnoTask. reflexivity.
  - intros Hopen HnoTask. induction fuel as [|fuel IH]; [reflexivity|].
    simpl. unfold Consumer.Request, Chan.try_recv. rewrite Hbuf, Hopen.
    simpl. rewrite HnoTask. simpl. exact IH.
Qed.

Lemma Fetch_Consumer_empty_witness :
  let env := mkEnv None (fun _ => 0%nat) 1 in
  let c := Consumer.NewConsumer 2 (fun _ _ => Hangs) Metric.zero in
  let noTask := fun e => match e with ErrQueueShutdown => true | _ => false end in
  Fetch.loop (H := Consumer_Worker env) 5 noTask false c = (c, None) /\
  Fetch.loop (H := Consumer_Worker env) 5 noTask true c = (c, Some Fetch.TasksClosed) /\
  Fetch.loop (H := Consumer_Worker env) 5 noTask true (fst (Consumer.Shutdown c)) =
    (fst (Consumer.Shutdown c), Some Fetch.TasksClosed).
Proof.
  intros env c noTask.
  destruct (Fetch_Consumer_empty env noTask c eq_refl) as (Hpoll & _ & Hclose & _).
  destruct (Fetch_Consumer_empty env noTask (fst (Consumer.Shutdown c)) eq_refl)
    as (_ & Hclosed & _).
  split; [apply Hpoll|]. split; [apply Hclose; reflexivity|apply Hclosed; reflexivity].
Defined.

Section FetchMore.

Context {W M : Type} `{core.Worker W M}.

Lemma Fetch_once_open (noTask : error -> bool) (r : option M * option error) :
  Fetch.once noTask false false r <> Fetch.CloseTasks.
Proof.
  destruct r as [[t|] [e|]]; simpl; discriminate.
Qed.

(** X15.  Whatever the worker, the request loop does not close [tasks]
    while [quit] is open: as long as the pool is not shut down the
    dispatcher is not ended by its request loop, however often the worker
    reports an error. *)
Theorem Fetch_closes_only_after_quit (fuel : nat) (noTask : error -> bool) (w : W) :
  snd (Fetch.loop fuel noTask false w) <> Some Fetch.TasksClosed.
Proof.
  revert w. induction fuel as [|fuel IH]; intros w; [discriminate|].
  simpl. destruct (core.Request w) as [w' [r|p]]; [|discriminate].
  pose proof (Fetch_once_open noTask r) as Hopen.
  destruct (Fetch.once noTask false false r); simpl.
  - discriminate.
  - contradiction Hopen; reflexivity.
  - apply IH.
Qed.

(** X16.  The limit on the number of workers: when [BusyWorkers()] has
    reached [workerCount] and no token is pending in [ready], a turn of the
    dispatcher requests nothing from the worker and changes nothing; it
    waits for a token, or returns if [quit] is closed. *)
Theorem Start_turn_respects_worker_count (fuel : nat) (noTask : error -> bool)
  (preferQuit : bool) (q : Queue.t W) :
  Chan.closed (Queue.ready q) = false ->
  Chan.buf (Queue.ready q) = [] ->
  Queue.BusyWorkers q >= Queue.workerCount q ->
  Start.turn fuel noTask preferQuit q =
    if Queue.quit q then Start.Returns q else Start.Blocks q.
Proof.
  intros Hopen Hbuf Hbusy. unfold Start.turn, Queue.schedule.
  destruct (Z.geb_spec (Queue.BusyWorkers q) (Queue.workerCount q)) as [_|Hlt];
    [|lia].
  unfold Chan.try_recv. rewrite Hbuf, Hopen. reflexivity.
Qed.

End FetchMore.

Lemma Start_turn_respects_worker_count_witness :
  let c := Consumer.NewConsumer 2 (fun _ _ => Hangs) Metric.zero in
  let c1 := fst (Consumer.Queue c (mockMessage "waits")) in
  let q := Queue.mk (Metric.mk 3 0 0 0) 3 false (Chan.make unit 1) c1 false 0 in
  Start.turn (H := Consumer_Worker (mkEnv None (fun _ => 0%nat) 1))
             5 (fun _ => false) false q = Start.Blocks q.
Proof.
  intros c c1 q.
  exact (Start_turn_respects_worker_count
           (H := Consumer_Worker (mkEnv None (fun _ => 0%nat) 1))
           5 (fun _ => false) false q eq_refl eq_refl
           ltac:(subst q; vm_compute; discriminate)).
Defined.

Section TurnFacts.

Context {W M : Type} `{core.Worker W M}.

(** With a free slot, [schedule] leaves one token in [ready]. *)
Lemma Queue_schedule_token (q : Queue.t W) :
  Chan.closed (Queue.ready q) = false ->
  Chan.cap (Queue.ready q) = 1%nat ->
  (Chan.len (Queue.ready q) <= 1)%nat ->
  Queue.BusyWorkers q < Queue.workerCount q ->
  Queue.schedule q = (Queue.set_ready q (Chan.mk [tt] 1 false), Returned tt).
Proof.
  intros Hopen Hcap Hlen Hfree.
  destruct q as [m wc qt [buf cap cl] w once flag].
  simpl in Hopen, Hcap. subst cl cap.
  unfold Chan.len in Hlen. simpl in Hlen.
  unfold Queue.schedule, Queue.BusyWorkers in *. simpl in *.
  destruct (Z.geb_spec (U64.to_int (Metric.BusyWorkers m)) wc) as [Hge|_]; [lia|].
  unfold Chan.try_send, Chan.len, Queue.set_ready. simpl.
  destruct buf as [|[] [|u buf]]; simpl in *; try lia; reflexivity.
Qed.

(** [work] gives the slot back: when the pool is below its worker count
    once the gauge is decremented, a token is in [ready] afterwards. *)
Lemma Queue_work_ready (q : Queue.t W) (task : M) :
  Chan.closed (Queue.ready q) = false ->
  Chan.cap (Queue.ready q) = 1%nat ->
  (Chan.len (Queue.ready q) <= 1)%nat ->
  U64.to_int (U64.dec (Metric.BusyWorkers (Queue.metric q))) < Queue.workerCount q ->
  Queue.ready (fst (Queue.work q task)) = Chan.mk [tt] 1 false.
Proof.
  intros Hopen Hcap Hlen Hfree. unfold Queue.work.
  destruct (core.Run (Queue.worker q) task) as [w' r].
  match goal with
  | |- context [Queue.schedule ?x] =>
      rewrite (Queue_schedule_token x Hopen Hcap Hlen Hfree)
  end.
  destruct r as [[e|]|p]; reflexivity.
Qed.

End TurnFacts.

(** X17.  A turn of the dispatcher over the in-memory worker, on a pool
    that is not shut down and has a free slot: it takes the token out of
    [ready], dispatches the oldest message of the worker, taken out of the
    buffer, and counts one more busy worker.  The execution of that message
    gives the slot back: the busy gauge is what it was before the turn and
    a token is in [ready] again. *)
Theorem Start_turn_dispatches (env : Env) (fuel : nat) (noTask : error -> bool)
  (preferQuit : bool) (q : Queue.t Consumer.t)
  (m : QueuedMessage) (rest : list QueuedMessage) :
  Chan.closed (Queue.ready q) = false ->
  Chan.cap (Queue.ready q) = 1%nat ->
  (Chan.len (Queue.ready q) <= 1)%nat ->
  Queue.quit q = false ->
  Queue.BusyWorkers q < Queue.workerCount q ->
  Metric.wf (Queue.metric q) ->
  Chan.buf (Consumer.taskQueue (Queue.worker q)) = m :: rest ->
  exists q1,
    Start.turn (H := Consumer_Worker env) (S fuel) noTask preferQuit q =
      Start.Dispatches q1 m /\
    Chan.buf (Consumer.taskQueue (Queue.worker q1)) = rest /\
    Chan.buf (Queue.ready q1) = [] /\
    Metric.BusyWorkers (Queue.metric q1) =
      U64.inc (Metric.BusyWorkers (Queue.metric q)) /\
    let q2 := fst (Queue.work (H := Consumer_Worker env) q1 m) in
    Metric.BusyWorkers (Queue.metric q2) = Metric.BusyWorkers (Queue.metric q) /\
    Chan.buf (Queue.ready q2) = [tt].
Proof.
  intros Hopen Hcap Hlen Hquit Hfree (Hb & _) Hbuf.
  unfold Start.turn.
  rewrite (Queue_schedule_token q Hopen Hcap Hlen Hfree).
  simpl Queue.ready. unfold Chan.try_recv. simpl Chan.buf. cbv iota.
  simpl Queue.quit. rewrite Hquit. simpl andb. cbv iota.
  unfold Start.fetch. simpl Queue.quit. simpl Queue.worker.
  rewrite (Fetch_loop_Consumer_head env fuel noTask (Queue.quit q) (Queue.worker q)
             m rest Hbuf).
  eexists. split; [reflexivity|].
  split; [reflexivity|]. split; [reflexivity|]. split; [reflexivity|].
  split.
  - match goal with
    | |- context [Queue.work ?x m] =>
        destruct (Queue_work_metric (H := Consumer_Worker env) x m eq_refl)
          as (Hbusy & _)
    end.
    rewrite Hbusy. simpl. apply U64_dec_inc. exact Hb.
  - rewrite Queue_work_ready; try reflexivity.
    + unfold Chan.len. simpl. lia.
    + simpl. unfold Metric.BusyWorkers. simpl.
      rewrite U64_dec_inc by exact Hb. exact Hfree.
Qed.

Lemma Start_turn_dispatches_witness :
  let env := mkEnv None (fun _ => 0%nat) 1 in
  let c := Consumer.NewConsumer 2 (fun _ _ => Finishes 10 (Returned None)) Metric.zero in
  let c1 := fst (Consumer.Queue (fst (Consumer.Queue c (mockMessage "a")))
                                (mockMessage "b")) in
  let q := Queue.mk Metric.zero 1 false (Chan.make unit 1) c1 false 0 in
  exists q1,
    Start.turn (H := Consumer_Worker env) 1 (fun _ => false) false q =
      Start.Dispatches q1 (mockMessage "a") /\
    Chan.buf (Consumer.taskQueue (Queue.worker q1)) = [mockMessage "b"] /\
    Queue.BusyWorkers q1 = 1 /\
    Start.turn (H := Consumer_Worker env) 1 (fun _ => false) false q1 =
      Start.Blocks q1.
Proof.
  intros env c c1 q.
  destruct (Start_turn_dispatches env 0 (fun _ => false) false q
              (mockMessage "a") [mockMessage "b"]
              eq_refl eq_refl (le_S _ _ (le_n 0)) eq_refl eq_refl
              ltac:(subst q; vm_compute; repeat split; discriminate) eq_refl)
    as (q1 & Hturn & Hbuf & _ & Hbusy & _).
  exists q1. split; [exact Hturn|]. split; [exact Hbuf|].
  vm_compute in Hturn. injection Hturn as <-.
  split; reflexivity.
Defined.

(** X18.  Once the pool is shut down ([quit] closed, the in-memory worker
    stopped), a turn of the dispatcher neither waits nor polls: it returns,
    leaving the worker as it is, or it dispatches the oldest message the
    worker still holds; with no message left it returns. *)
Theorem Start_turn_after_Shutdown (env : Env) (fuel : nat) (noTask : error -> bool)
  (preferQuit : bool) (q : Queue.t Consumer.t) :
  Queue.quit q = true ->
  Consumer.stopped (Queue.worker q) ->
  Chan.closed (Queue.ready q) = false ->
  match Start.turn (H := Consumer_Worker env) (S fuel) noTask preferQuit q with
  | Start.Returns q' => Queue.worker q' = Queue.worker q
  | Start.Dispatches q' m =>
      exists rest,
        Chan.buf (Consumer.taskQueue (Queue.worker q)) = m :: rest /\
        Chan.buf (Consumer.taskQueue (Queue.worker q')) = rest
  | _ => False
  end.
Proof.
  intros Hquit (_ & _ & _ & Hclosed) Hopen.
  unfold Start.turn.
  pose proof (Queue_schedule_fields q)
    as (_ & _ & Hw & Hqt & _ & _).
  pose proof (Queue_schedule_returns q Hopen) as Hret.
  destruct (Queue.schedule q) as [q1 o].
  simpl in Hw, Hqt, Hret. subst o. rewrite Hquit in Hqt.
  assert (Hfetch : forall q2 : Queue.t Consumer.t,
             Queue.worker q2 = Queue.worker q -> Queue.quit q2 = true ->
             match Start.fetch (H := Consumer_Worker env) (S fuel) noTask q2 with
             | Start.Returns q' => Queue.worker q' = Queue.worker q
             | Start.Dispatches q' m =>
                 exists rest,
                   Chan.buf (Consumer.taskQueue (Queue.worker q)) = m :: rest /\
                   Chan.buf (Consumer.taskQueue (Queue.worker q')) = rest
             | _ => False
             end).
  { intros q2 Hw2 Hq2. unfold Start.fetch. rewrite Hq2, Hw2.
    destruct (Chan.buf (Consumer.taskQueue (Queue.worker q))) as [|m rest] eqn:Hbuf.
    - rewrite (Fetch_loop_Consumer_closed env fuel noTask _ Hbuf Hclosed).
      reflexivity.
    - rewrite (Fetch_loop_Consumer_head env fuel noTask true _ m rest Hbuf).
      exists rest. split; reflexivity. }
  rewrite Hqt.
  destruct (Chan.try_recv (Queue.ready q1)) as [u c| |]; simpl.
  - destruct preferQuit; simpl; [exact Hw|]. apply Hfetch; [exact Hw|exact Hqt].
  - destruct preferQuit; simpl; [exact Hw|]. apply Hfetch; [exact Hw|exact Hqt].
  - exact Hw.
Qed.

Lemma Start_turn_after_Shutdown_witness :
  let env := mkEnv None (fun _ => 0%nat) 1 in
  let c := Consumer.NewConsumer 2 (fun _ _ => Hangs) Metric.zero in
  let q := Queue.mk Metric.zero 1 false (Chan.make unit 1) c false 0 in
  let q1 := fst (Queue.Shutdown (H := Consumer_Worker env) q) in
  match Start.turn (H := Consumer_Worker env) 1 (fun _ => true) false q1 with
  | Start.Returns q' => Queue.worker q' = Queue.worker q1
  | Start.Dispatches q' m =>
      exists rest,
        Chan.buf (Consumer.taskQueue (Queue.worker q1)) = m :: rest /\
        Chan.buf (Consumer.taskQueue (Queue.worker q')) = rest
  | _ => False
  end.
Proof.
  intros env c q q1.
  exact (Start_turn_after_Shutdown env 0 (fun _ => true) false q1 eq_refl
           (conj eq_refl (conj eq_refl (conj eq_refl eq_refl))) eq_refl).
Defined.

Lemma Fetch_loop_emptyWorker (fuel : nat) (noTask : error -> bool) (quit : bool)
  (w : emptyWorker) :
  Fetch.loop (H := emptyWorker_Worker) fuel noTask quit w =
    (w, match fuel with
        | O => None
        | S _ => if quit then Some Fetch.TasksClosed else None
        end).
Proof.
  induction fuel as [|fuel IH]; [reflexivity|].
  simpl. destruct quit; simpl; [reflexivity|].
  rewrite IH. destruct fuel; reflexivity.
Qed.

(** X19.  A pool over [emptyWorker], the worker of the unit tests, that is
    not stopped: every submission is accepted and counted, whatever their
    number; a turn of the dispatcher never dispatches anything and does not
    panic, since the worker's [Request] returns neither a message nor an
    error; and an execution is counted as a success. *)
Theorem emptyWorker_pool (q : Queue.t emptyWorker) (m : QueuedMessage)
  (o : job.Options) (fuel : nat) (noTask : error -> bool) (preferQuit : bool) :
  Queue.stopFlag q = 0 ->
  Chan.closed (Queue.ready q) = false ->
  Queue.Queue (H := emptyWorker_Worker) q m o =
    (Queue.set_metric q (Metric.IncSubmittedTask (Queue.metric q)), Returned None) /\
  match Start.turn (H := emptyWorker_Worker) fuel noTask preferQuit q with
  | Start.Dispatches _ _ => False
  | Start.Panics _ _ => False
  | _ => True
  end /\
  snd (Queue.work (H := emptyWorker_Worker) q m) = Returned tt /\
  Metric.SuccessTasks (Queue.metric (fst (Queue.work (H := emptyWorker_Worker) q m))) =
    U64.inc (Metric.SuccessTasks (Queue.metric q)).
Proof.
  intros Hflag Hopen. split; [|split].
  - unfold Queue.Queue. rewrite Hflag. simpl. destruct q; reflexivity.
  - unfold Start.turn.
    pose proof (Queue_schedule_returns q Hopen) as Hret.
    destruct (Queue.schedule q) as [q1 r]. simpl in Hret. subst r.
    assert (Hfetch : forall q2 : Queue.t emptyWorker,
               match Start.fetch (H := emptyWorker_Worker) fuel noTask q2 with
               | Start.Dispatches _ _ => False
               | Start.Panics _ _ => False
               | _ => True
               end).
    { intros q2. unfold Start.fetch. rewrite Fetch_loop_emptyWorker.
      destruct fuel; [exact I|]. destruct (Queue.quit q2); exact I. }
    destruct (Chan.try_recv (Queue.ready q1)) as [u c| |];
      destruct (Queue.quit q1); destruct preferQuit; simpl;
      solve [exact I | apply Hfetch].
  - unfold Queue.work. simpl core.Run. cbv iota beta zeta.
    match goal with
    | |- context [Queue.schedule ?x] =>
        pose proof (Queue_schedule_fields x) as (Hm & _);
        pose proof (Queue_schedule_returns x Hopen) as Hret;
        destruct (Queue.schedule x) as [q3 r]
    end.
    simpl in Hm, Hret. subst r. simpl. rewrite Hm. split; reflexivity.
Qed.

Lemma emptyWorker_pool_witness :
  let q := Queue.mk Metric.zero 2 false (Chan.make unit 1) EmptyWorker false 0 in
  fst (Queue.Queue (H := emptyWorker_Worker) q (mockMessage "foo")
         (job.mkOptions 0 0 0)) =
    Queue.set_metric q (Metric.mk 0 0 0 1) /\
  Start.turn (H := emptyWorker_Worker) 3 (fun _ => false) false q =
    Start.Polls (Queue.set_ready q (Chan.make unit 1)).
Proof.
  intros q.
  destruct (emptyWorker_pool q (mockMessage "foo") (job.mkOptions 0 0 0)
              3 (fun _ => false) false eq_refl eq_refl) as (Hq & _).
  split; [rewrite Hq; reflexivity|reflexivity].
Defined.
